(** * NeuroDesk gesture engine: the per-frame callback of [src/App.tsx]

    The development embeds the [hands.onResults] callback of [App] and the
    helpers it calls ([clamp], [distance], [drawHandGuide],
    [triggerTileClick], [reorderTiles], [triggerSwipeSelect]) as functions
    over an explicit
    engine record, and proves the properties the specification states
    about them, followed by further properties read off the code.

    Conventions of the embedding.
    - A JavaScript [number] is an exact rational ([Q]); rounding of
      IEEE doubles, [NaN] and infinities are outside the model.  Frame
      counters are natural numbers.
    - [Math.hypot] is not a rational function; it is a parameter of the
      engine section, so every theorem holds for any choice of it.
      [hypot_floor] below is one executable choice, exact on the inputs on
      which the square root is rational.
    - Every [useRef] cell and every [useState] cell touched by the callback
      is a field of [Engine]; [ref.current = v] and [setX(v)] become the
      field setters [set_ref] and [setX].
    - The callback is created once, when the start button is pressed, so the
      [activeTile] it reads and the [tiles] used by [triggerSwipeSelect] are
      the values captured by that closure ([activeTileCaptured],
      [tilesCaptured]); the functional updaters see the live cells.
    - [performance.now()] and the DOM hit test behind [getTileAtCursor] are
      inputs of a frame; [getTileAtCursorIn] is the hit test itself over an
      explicit page layout.
    - The overlay canvas is not a cell of the engine: [drawHandGuide]
      returns the canvas calls it makes, in order, and whether a
      [TypeError] escapes it; what it finds behind [canvasRef] and
      [videoRef] is an input of a frame. *)

From Stdlib Require Import ZArith QArith Qabs Qminmax Lqa.
From Stdlib Require Import List String Bool Arith Lia Permutation.
Import ListNotations.

Open Scope Q_scope.

(** ** Numbers *)

Definition Qltb (a b : Q) : bool :=
  match a ?= b with Lt => true | _ => false end.

Definition Qgtb (a b : Q) : bool := Qltb b a.

Definition Qgeb (a b : Q) : bool := negb (Qltb a b).

(** [function clamp(value, min, max)]: [Math.min(max, Math.max(min, value))]. *)
Definition clamp (value min max : Q) : Q := Qmin max (Qmax min value).

(** An executable [Math.hypot]: the square root of [x*x + y*y] rounded down
    to a multiple of the inverse of its denominator; exact whenever the sum
    of squares is the square of a rational with that denominator. *)
Definition hypot_floor (x y : Q) : Q :=
  let s := Qred (x * x + y * y) in
  Z.sqrt (Qnum s * Zpos (Qden s)) # Qden s.

(** ** Data *)

(** [type CursorPoint = { x; y }]; landmarks and the scroll anchor have the
    same shape. *)
Record CursorPoint : Type := mkPoint { x : Q; y : Q }.

(** The [{ x, y, t }] object held by [previousPointRef]. *)
Record TimedPoint : Type := mkTimed { px : Q; py : Q; pt : Q }.

(** [type Tile = { id; title; detail }]. *)
Record Tile : Type := mkTile {
  tile_id : string;
  tile_title : string;
  tile_detail : string
}.

(** [type GestureMode]. *)
Inductive GestureMode : Type := idle | pointer | click | scroll | zoom | swipe.

(** The [{ lastDistance }] object held by [zoomStateRef]. *)
Record ZoomAnchor : Type := mkZoomAnchor { lastDistance : Q }.

(** The [{ id, startedAt }] object held by [dwellRef]. *)
Record Dwell : Type := mkDwell { dwell_id : option string; startedAt : Q }.

Inductive Direction : Type := swipe_left | swipe_right.

Inductive ClickSource : Type := src_pinch | src_dwell.

(** The messages passed to [setStatus]; tile ids stand for their upper-cased
    rendering. *)
Inductive Status : Type :=
| StatusEnableCamera
| StatusCameraReady
| StatusHandNotDetected
| StatusZoomMode
| StatusScrollMode
| StatusDragging (fromId toId : string)
| StatusClick (source : ClickSource) (tileId : string)
| StatusPointerMode
| StatusSwipe (direction : Direction).

(** The calls the callback makes into the tile collaborator, in the order in
    which they are made during one frame. *)
Inductive GestureEvent : Type :=
| Click (tileId : string)
| DwellClick (tileId : string)
| SwipeSelect (direction : Direction)
| DragReorder (fromId toId : string).

(** How one invocation of the callback ends. *)
Inductive Outcome : Type :=
| NoHand      (* [!handLandmarks]: full reset, [return] *)
| Skipped     (* index tip or thumb tip missing: [return] *)
| Threw       (* a [TypeError] escapes the callback *)
| Completed.  (* the callback ran to its last statement *)

(** ** Inputs of one frame *)

(** What [drawHandGuide] finds when [canvasRef.current] and
    [videoRef.current] are both set: the dimensions of the video and whether
    [canvas.getContext] returns a context. *)
Record Overlay : Type := mkOverlay {
  videoWidth : Q;
  videoHeight : Q;
  context2d : bool
}.

(** [results.multiHandLandmarks?.[0] ?? null] together with the value
    [performance.now()] returns in this invocation, the layout seen by
    [getTileAtCursor] and the overlay seen by [drawHandGuide] ([None] when
    the canvas or the video element is missing).  An entry of the landmark
    array may be [undefined]. *)
Record Frame : Type := mkFrame {
  handLandmarks : option (list (option CursorPoint));
  now : Q;
  getTileAtCursor : CursorPoint -> option string;
  overlay : option Overlay
}.

(** [handLandmarks[i]]: [None] when the index is out of range or the entry
    is [undefined]. *)
Definition landmark (lm : list (option CursorPoint)) (i : nat)
  : option CursorPoint :=
  match nth_error lm i with
  | Some (Some p) => Some p
  | _ => None
  end.

(** ** The hand guide on the overlay canvas *)

(** [const HAND_CONNECTIONS]. *)
Definition HAND_CONNECTIONS : list (nat * nat) :=
  [ (0, 1); (1, 2); (2, 3); (3, 4);
    (0, 5); (5, 6); (6, 7); (7, 8);
    (5, 9); (9, 10); (10, 11); (11, 12);
    (9, 13); (13, 14); (14, 15); (15, 16);
    (13, 17); (17, 18); (18, 19); (19, 20);
    (0, 17) ]%nat.

(** The calls [drawHandGuide] makes on the canvas and its context. *)
Inductive CanvasCall : Type :=
| SetSize (width height : Q)     (* [canvas.width], [canvas.height] *)
| ClearRect (width height : Q)   (* [ctx.clearRect(0, 0, width, height)] *)
| GlowStyle    (* gradient stroke, line width 2.25, shadow (lines 256-264) *)
| Line (x0 y0 x1 y1 : Q)         (* [beginPath], [moveTo], [lineTo], [stroke] *)
| DotStyle     (* no shadow blur, light fill (lines 278-279) *)
| Dot (cx cy : Q)                (* [beginPath], [arc] of radius 3.6, [fill] *)
| DashStyle    (* pale stroke, [setLineDash([3, 5])] (lines 293-294) *)
| SolidStyle.  (* [setLineDash([])] *)

(** The callback of [HAND_CONNECTIONS.forEach]: a connection with a missing
    end is not drawn. *)
Definition drawConnection (width height : Q)
    (landmarks : list (option CursorPoint)) (connection : nat * nat)
  : list CanvasCall :=
  match landmark landmarks (fst connection),
        landmark landmarks (snd connection) with
  | Some start, Some finish =>
      [Line ((1 - x start) * width) (y start * height)
            ((1 - x finish) * width) (y finish * height)]
  | _, _ => []
  end.

(** [landmarks.forEach((point) => ...)]: reading [point.x] of an entry that
    is [undefined] raises, after the dots of the entries before it. *)
Fixpoint drawPoints (width height : Q)
    (landmarks : list (option CursorPoint)) : list CanvasCall * bool :=
  match landmarks with
  | [] => ([], false)
  | None :: _ => ([], true)
  | Some point :: rest =>
      let '(calls, raised) := drawPoints width height rest in
      (Dot ((1 - x point) * width) (y point * height) :: calls, raised)
  end.

(** [const drawHandGuide = (landmarks) => ...]: the canvas calls made and
    whether a [TypeError] escapes. *)
Definition drawHandGuide (overlay : option Overlay)
    (landmarks : option (list (option CursorPoint)))
  : list CanvasCall * bool :=
  match overlay with
  | None => ([], false)
  | Some video =>
      let width := videoWidth video in
      let height := videoHeight video in
      if Qeq_bool width 0 || Qeq_bool height 0 then ([], false)
      else
        let sized := [SetSize width height] in
        if negb (context2d video) then (sized, false)
        else
          let cleared := sized ++ [ClearRect width height] in
          match landmarks with
          | None => (cleared, false)
          | Some landmarks =>
              let lines :=
                flat_map (drawConnection width height landmarks)
                         HAND_CONNECTIONS in
              let '(dots, raised) := drawPoints width height landmarks in
              let drawn := cleared ++ GlowStyle :: lines ++ DotStyle :: dots in
              if raised then (drawn, true)
              else
                match landmark landmarks 8, landmark landmarks 4 with
                | Some indexTip, Some thumbTip =>
                    (drawn
                     ++ [DashStyle;
                         Line ((1 - x indexTip) * width)
                              (y indexTip * height)
                              ((1 - x thumbTip) * width)
                              (y thumbTip * height);
                         SolidStyle],
                     false)
                | _, _ => (drawn, false)
                end
          end
  end.

(** Whether [drawHandGuide(handLandmarks)], the first call of the
    callback, raises on a frame. *)
Definition overlayRaises (f : Frame) : bool :=
  snd (drawHandGuide (overlay f) (handLandmarks f)).

(** Truthiness of a [string | null] value: [null] and the empty string are
    falsy. *)
Definition truthy (o : option string) : bool :=
  match o with
  | Some EmptyString => false
  | Some _ => true
  | None => false
  end.

Definition opt_string_eqb (a b : option string) : bool :=
  match a, b with
  | Some s1, Some s2 => String.eqb s1 s2
  | None, None => true
  | _, _ => false
  end.

(** ** Tile list helpers *)

(** [tiles.findIndex((tile) => tile.id === id)], with [None] for [-1]. *)
Fixpoint findIndex (id : string) (l : list Tile) : option nat :=
  match l with
  | [] => None
  | t :: r =>
      if String.eqb (tile_id t) id then Some O
      else option_map S (findIndex id r)
  end.

(** [tiles.findIndex((tile) => tile.id === current)] for a
    [string | null] argument: [null] equals no id. *)
Definition findIndexOpt (current : option string) (l : list Tile)
  : option nat :=
  match current with
  | Some id => findIndex id l
  | None => None
  end.

(** [cloned.splice(i, 1)]: the list without its element at [i]. *)
Definition splice_remove (i : nat) (l : list Tile) : list Tile :=
  firstn i l ++ skipn (S i) l.

(** [cloned.splice(i, 0, moved)]: insertion before index [i], at the end
    when [i] is not below the length. *)
Definition splice_insert (i : nat) (moved : Tile) (l : list Tile)
  : list Tile :=
  firstn i l ++ moved :: skipn i l.

(** The updater passed to [setTiles] by [reorderTiles]. *)
Definition reorderUpdater (fromId toId : string) (current : list Tile)
  : list Tile :=
  match findIndex fromId current, findIndex toId current with
  | Some fromIndex, Some toIndex =>
      match nth_error current fromIndex with
      | Some moved =>
          splice_insert toIndex moved (splice_remove fromIndex current)
      | None => current
      end
  | _, _ => current
  end.

(** [const reorderTiles = (fromId, toId) => ...] as a function of the live
    tile list. *)
Definition reorderTiles (fromId toId : string) (current : list Tile)
  : list Tile :=
  if String.eqb fromId toId then current
  else reorderUpdater fromId toId current.

(** The updater passed to [setActiveTile] by [triggerSwipeSelect]; [tiles]
    is the list captured by the closure.  [None] stands for the [TypeError]
    raised by [tiles[nextIndex].id] when the list is empty (the index is
    then [NaN]). *)
Definition swipeUpdater (tiles : list Tile) (direction : Direction)
    (current : option string) : option (option string) :=
  let currentIndex := findIndexOpt current tiles in
  let safeIndex :=
    match currentIndex with
    | Some i => Z.of_nat i
    | None => 0%Z
    end in
  let delta :=
    match direction with
    | swipe_right => 1%Z
    | swipe_left => (-1)%Z
    end in
  let len := Z.of_nat (List.length tiles) in
  let nextIndex := Z.rem (safeIndex + delta + len) len in
  match tiles with
  | [] => None
  | _ =>
      option_map (fun t => Some (tile_id t))
                 (nth_error tiles (Z.to_nat nextIndex))
  end.

(** The updater passed to [setActiveTile] by [triggerTileClick]. *)
Definition toggleTile (tileId : string) (current : option string)
  : option string :=
  if opt_string_eqb current (Some tileId) then None else Some tileId.

(** [const INITIAL_TILES]. *)
Definition INITIAL_TILES : list Tile :=
  [ mkTile "mail" "Mail" "Unread: 12";
    mkTile "media" "Media" "Now Playing";
    mkTile "tasks" "Tasks" "3 due today";
    mkTile "notes" "Notes" "Gesture ideas";
    mkTile "stats" "Stats" "Realtime mode";
    mkTile "lights" "Lights" "Studio scene";
    mkTile "code" "Code" "Review queue";
    mkTile "boards" "Boards" "Sprint planning";
    mkTile "docs" "Docs" "AI spec draft";
    mkTile "music" "Music" "Focus playlist";
    mkTile "camera" "Camera" "Rear feed";
    mkTile "chat" "Chat" "4 active rooms" ]%string.

(** ** Engine state *)

Record Engine : Type := mkEngine {
  (* useRef cells *)
  pinchStateRef : bool;
  clickCooldownRef : Q;
  pinchFramesRef : nat;
  scrollFramesRef : nat;
  zoomFramesRef : nat;
  scrollReleaseFramesRef : nat;
  zoomReleaseFramesRef : nat;
  scrollModeRef : bool;
  zoomModeRef : bool;
  dragFramesRef : nat;
  dragSwapCooldownRef : Q;
  dragTargetRef : option string;
  pinchStartTimeRef : Q;
  zoomStateRef : option ZoomAnchor;
  scrollAnchorRef : option CursorPoint;
  previousPointRef : option TimedPoint;
  swipeCooldownRef : Q;
  dwellRef : Dwell;
  (* useState cells *)
  tiles : list Tile;
  cursor : CursorPoint;
  handVisible : bool;
  pinching : bool;
  dragging : bool;
  gestureMode : GestureMode;
  zoomLevel : Q;
  scrollOffset : Q;
  scrollOffsetX : Q;
  dwellProgress : Q;
  pinchMetric : Q;
  velocityMetric : Q;
  swipePulse : nat;
  activeTile : option string;
  status : Status
}.

Definition set_pinchStateRef (v : bool) (s : Engine) : Engine :=
  mkEngine v (clickCooldownRef s) (pinchFramesRef s) (scrollFramesRef s)
    (zoomFramesRef s) (scrollReleaseFramesRef s) (zoomReleaseFramesRef s)
    (scrollModeRef s) (zoomModeRef s) (dragFramesRef s)
    (dragSwapCooldownRef s) (dragTargetRef s) (pinchStartTimeRef s)
    (zoomStateRef s) (scrollAnchorRef s) (previousPointRef s)
    (swipeCooldownRef s) (dwellRef s) (tiles s) (cursor s) (handVisible s)
    (pinching s) (dragging s) (gestureMode s) (zoomLevel s) (scrollOffset s)
    (scrollOffsetX s) (dwellProgress s) (pinchMetric s) (velocityMetric s)
    (swipePulse s) (activeTile s) (status s).

Definition set_clickCooldownRef (v : Q) (s : Engine) : Engine :=
  mkEngine (pinchStateRef s) v (pinchFramesRef s) (scrollFramesRef s)
    (zoomFramesRef s) (scrollReleaseFramesRef s) (zoomReleaseFramesRef s)
    (scrollModeRef s) (zoomModeRef s) (dragFramesRef s)
    (dragSwapCooldownRef s) (dragTargetRef s) (pinchStartTimeRef s)
    (zoomStateRef s) (scrollAnchorRef s) (previousPointRef s)
    (swipeCooldownRef s) (dwellRef s) (tiles s) (cursor s) (handVisible s)
    (pinching s) (dragging s) (gestureMode s) (zoomLevel s) (scrollOffset s)
    (scrollOffsetX s) (dwellProgress s) (pinchMetric s) (velocityMetric s)
    (swipePulse s) (activeTile s) (status s).

Definition set_pinchFramesRef (v : nat) (s : Engine) : Engine :=
  mkEngine (pinchStateRef s) (clickCooldownRef s) v (scrollFramesRef s)
    (zoomFramesRef s) (scrollReleaseFramesRef s) (zoomReleaseFramesRef s)
    (scrollModeRef s) (zoomModeRef s) (dragFramesRef s)
    (dragSwapCooldownRef s) (dragTargetRef s) (pinchStartTimeRef s)
    (zoomStateRef s) (scrollAnchorRef s) (previousPointRef s)
    (swipeCooldownRef s) (dwellRef s) (tiles s) (cursor s) (handVisible s)
    (pinching s) (dragging s) (gestureMode s) (zoomLevel s) (scrollOffset s)
    (scrollOffsetX s) (dwellProgress s) (pinchMetric s) (velocityMetric s)
    (swipePulse s) (activeTile s) (status s).

Definition set_scrollFramesRef (v : nat) (s : Engine) : Engine :=
  mkEngine (pinchStateRef s) (clickCooldownRef s) (pinchFramesRef s) v
    (zoomFramesRef s) (scrollReleaseFramesRef s) (zoomReleaseFramesRef s)
    (scrollModeRef s) (zoomModeRef s) (dragFramesRef s)
    (dragSwapCooldownRef s) (dragTargetRef s) (pinchStartTimeRef s)
    (zoomStateRef s) (scrollAnchorRef s) (previousPointRef s)
    (swipeCooldownRef s) (dwellRef s) (tiles s) (cursor s) (handVisible s)
    (pinching s) (dragging s) (gestureMode s) (zoomLevel s) (scrollOffset s)
    (scrollOffsetX s) (dwellProgress s) (pinchMetric s) (velocityMetric s)
    (swipePulse s) (activeTile s) (status s).

Definition set_zoomFramesRef (v : nat) (s : Engine) : Engine :=
  mkEngine (pinchStateRef s) (clickCooldownRef s) (pinchFramesRef s)
    (scrollFramesRef s) v (scrollReleaseFramesRef s) (zoomReleaseFramesRef s)
    (scrollModeRef s) (zoomModeRef s) (dragFramesRef s)
    (dragSwapCooldownRef s) (dragTargetRef s) (pinchStartTimeRef s)
    (zoomStateRef s) (scrollAnchorRef s) (previousPointRef s)
    (swipeCooldownRef s) (dwellRef s) (tiles s) (cursor s) (handVisible s)
    (pinching s) (dragging s) (gestureMode s) (zoomLevel s) (scrollOffset s)
    (scrollOffsetX s) (dwellProgress s) (pinchMetric s) (velocityMetric s)
    (swipePulse s) (activeTile s) (status s).

Definition set_scrollReleaseFramesRef (v : nat) (s : Engine) : Engine :=
  mkEngine (pinchStateRef s) (clickCooldownRef s) (pinchFramesRef s)
    (scrollFramesRef s) (zoomFramesRef s) v (zoomReleaseFramesRef s)
    (scrollModeRef s) (zoomModeRef s) (dragFramesRef s)
    (dragSwapCooldownRef s) (dragTargetRef s) (pinchStartTimeRef s)
    (zoomStateRef s) (scrollAnchorRef s) (previousPointRef s)
    (swipeCooldownRef s) (dwellRef s) (tiles s) (cursor s) (handVisible s)
    (pinching s) (dragging s) (gestureMode s) (zoomLevel s) (scrollOffset s)
    (scrollOffsetX s) (dwellProgress s) (pinchMetric s) (velocityMetric s)
    (swipePulse s) (activeTile s) (status s).

Definition set_zoomReleaseFramesRef (v : nat) (s : Engine) : Engine :=
  mkEngine (pinchStateRef s) (clickCooldownRef s) (pinchFramesRef s)
    (scrollFramesRef s) (zoomFramesRef s) (scrollReleaseFramesRef s) v
    (scrollModeRef s) (zoomModeRef s) (dragFramesRef s)
    (dragSwapCooldownRef s) (dragTargetRef s) (pinchStartTimeRef s)
    (zoomStateRef s) (scrollAnchorRef s) (previousPointRef s)
    (swipeCooldownRef s) (dwellRef s) (tiles s) (cursor s) (handVisible s)
    (pinching s) (dragging s) (gestureMode s) (zoomLevel s) (scrollOffset s)
    (scrollOffsetX s) (dwellProgress s) (pinchMetric s) (velocityMetric s)
    (swipePulse s) (activeTile s) (status s).

Definition set_scrollModeRef (v : bool) (s : Engine) : Engine :=
  mkEngine (pinchStateRef s) (clickCooldownRef s) (pinchFramesRef s)
    (scrollFramesRef s) (zoomFramesRef s) (scrollReleaseFramesRef s)
    (zoomReleaseFramesRef s) v (zoomModeRef s) (dragFramesRef s)
    (dragSwapCooldownRef s) (dragTargetRef s) (pinchStartTimeRef s)
    (zoomStateRef s) (scrollAnchorRef s) (previousPointRef s)
    (swipeCooldownRef s) (dwellRef s) (tiles s) (cursor s) (handVisible s)
    (pinching s) (dragging s) (gestureMode s) (zoomLevel s) (scrollOffset s)
    (scrollOffsetX s) (dwellProgress s) (pinchMetric s) (velocityMetric s)
    (swipePulse s) (activeTile s) (status s).

Definition set_zoomModeRef (v : bool) (s : Engine) : Engine :=
  mkEngine (pinchStateRef s) (clickCooldownRef s) (pinchFramesRef s)
    (scrollFramesRef s) (zoomFramesRef s) (scrollReleaseFramesRef s)
    (zoomReleaseFramesRef s) (scrollModeRef s) v (dragFramesRef s)
    (dragSwapCooldownRef s) (dragTargetRef s) (pinchStartTimeRef s)
    (zoomStateRef s) (scrollAnchorRef s) (previousPointRef s)
    (swipeCooldownRef s) (dwellRef s) (tiles s) (cursor s) (handVisible s)
    (pinching s) (dragging s) (gestureMode s) (zoomLevel s) (scrollOffset s)
    (scrollOffsetX s) (dwellProgress s) (pinchMetric s) (velocityMetric s)
    (swipePulse s) (activeTile s) (status s).

Definition set_dragFramesRef (v : nat) (s : Engine) : Engine :=
  mkEngine (pinchStateRef s) (clickCooldownRef s) (pinchFramesRef s)
    (scrollFramesRef s) (zoomFramesRef s) (scrollReleaseFramesRef s)
    (zoomReleaseFramesRef s) (scrollModeRef s) (zoomModeRef s) v
    (dragSwapCooldownRef s) (dragTargetRef s) (pinchStartTimeRef s)
    (zoomStateRef s) (scrollAnchorRef s) (previousPointRef s)
    (swipeCooldownRef s) (dwellRef s) (tiles s) (cursor s) (handVisible s)
    (pinching s) (dragging s) (gestureMode s) (zoomLevel s) (scrollOffset s)
    (scrollOffsetX s) (dwellProgress s) (pinchMetric s) (velocityMetric s)
    (swipePulse s) (activeTile s) (status s).

Definition set_dragSwapCooldownRef (v : Q) (s : Engine) : Engine :=
  mkEngine (pinchStateRef s) (clickCooldownRef s) (pinchFramesRef s)
    (scrollFramesRef s) (zoomFramesRef s) (scrollReleaseFramesRef s)
    (zoomReleaseFramesRef s) (scrollModeRef s) (zoomModeRef s)
    (dragFramesRef s) v (dragTargetRef s) (pinchStartTimeRef s)
    (zoomStateRef s) (scrollAnchorRef s) (previousPointRef s)
    (swipeCooldownRef s) (dwellRef s) (tiles s) (cursor s) (handVisible s)
    (pinching s) (dragging s) (gestureMode s) (zoomLevel s) (scrollOffset s)
    (scrollOffsetX s) (dwellProgress s) (pinchMetric s) (velocityMetric s)
    (swipePulse s) (activeTile s) (status s).

Definition set_dragTargetRef (v : option string) (s : Engine) : Engine :=
  mkEngine (pinchStateRef s) (clickCooldownRef s) (pinchFramesRef s)
    (scrollFramesRef s) (zoomFramesRef s) (scrollReleaseFramesRef s)
    (zoomReleaseFramesRef s) (scrollModeRef s) (zoomModeRef s)
    (dragFramesRef s) (dragSwapCooldownRef s) v (pinchStartTimeRef s)
    (zoomStateRef s) (scrollAnchorRef s) (previousPointRef s)
    (swipeCooldownRef s) (dwellRef s) (tiles s) (cursor s) (handVisible s)
    (pinching s) (dragging s) (gestureMode s) (zoomLevel s) (scrollOffset s)
    (scrollOffsetX s) (dwellProgress s) (pinchMetric s) (velocityMetric s)
    (swipePulse s) (activeTile s) (status s).

Definition set_pinchStartTimeRef (v : Q) (s : Engine) : Engine :=
  mkEngine (pinchStateRef s) (clickCooldownRef s) (pinchFramesRef s)
    (scrollFramesRef s) (zoomFramesRef s) (scrollReleaseFramesRef s)
    (zoomReleaseFramesRef s) (scrollModeRef s) (zoomModeRef s)
    (dragFramesRef s) (dragSwapCooldownRef s) (dragTargetRef s) v
    (zoomStateRef s) (scrollAnchorRef s) (previousPointRef s)
    (swipeCooldownRef s) (dwellRef s) (tiles s) (cursor s) (handVisible s)
    (pinching s) (dragging s) (gestureMode s) (zoomLevel s) (scrollOffset s)
    (scrollOffsetX s) (dwellProgress s) (pinchMetric s) (velocityMetric s)
    (swipePulse s) (activeTile s) (status s).

Definition set_zoomStateRef (v : option ZoomAnchor) (s : Engine) : Engine :=
  mkEngine (pinchStateRef s) (clickCooldownRef s) (pinchFramesRef s)
    (scrollFramesRef s) (zoomFramesRef s) (scrollReleaseFramesRef s)
    (zoomReleaseFramesRef s) (scrollModeRef s) (zoomModeRef s)
    (dragFramesRef s) (dragSwapCooldownRef s) (dragTargetRef s)
    (pinchStartTimeRef s) v (scrollAnchorRef s) (previousPointRef s)
    (swipeCooldownRef s) (dwellRef s) (tiles s) (cursor s) (handVisible s)
    (pinching s) (dragging s) (gestureMode s) (zoomLevel s) (scrollOffset s)
    (scrollOffsetX s) (dwellProgress s) (pinchMetric s) (velocityMetric s)
    (swipePulse s) (activeTile s) (status s).

Definition set_scrollAnchorRef (v : option CursorPoint) (s : Engine) : Engine :=
  mkEngine (pinchStateRef s) (clickCooldownRef s) (pinchFramesRef s)
    (scrollFramesRef s) (zoomFramesRef s) (scrollReleaseFramesRef s)
    (zoomReleaseFramesRef s) (scrollModeRef s) (zoomModeRef s)
    (dragFramesRef s) (dragSwapCooldownRef s) (dragTargetRef s)
    (pinchStartTimeRef s) (zoomStateRef s) v (previousPointRef s)
    (swipeCooldownRef s) (dwellRef s) (tiles s) (cursor s) (handVisible s)
    (pinching s) (dragging s) (gestureMode s) (zoomLevel s) (scrollOffset s)
    (scrollOffsetX s) (dwellProgress s) (pinchMetric s) (velocityMetric s)
    (swipePulse s) (activeTile s) (status s).

Definition set_previousPointRef (v : option TimedPoint) (s : Engine) : Engine :=
  mkEngine (pinchStateRef s) (clickCooldownRef s) (pinchFramesRef s)
    (scrollFramesRef s) (zoomFramesRef s) (scrollReleaseFramesRef s)
    (zoomReleaseFramesRef s) (scrollModeRef s) (zoomModeRef s)
    (dragFramesRef s) (dragSwapCooldownRef s) (dragTargetRef s)
    (pinchStartTimeRef s) (zoomStateRef s) (scrollAnchorRef s) v
    (swipeCooldownRef s) (dwellRef s) (tiles s) (cursor s) (handVisible s)
    (pinching s) (dragging s) (gestureMode s) (zoomLevel s) (scrollOffset s)
    (scrollOffsetX s) (dwellProgress s) (pinchMetric s) (velocityMetric s)
    (swipePulse s) (activeTile s) (status s).

Definition set_swipeCooldownRef (v : Q) (s : Engine) : Engine :=
  mkEngine (pinchStateRef s) (clickCooldownRef s) (pinchFramesRef s)
    (scrollFramesRef s) (zoomFramesRef s) (scrollReleaseFramesRef s)
    (zoomReleaseFramesRef s) (scrollModeRef s) (zoomModeRef s)
    (dragFramesRef s) (dragSwapCooldownRef s) (dragTargetRef s)
    (pinchStartTimeRef s) (zoomStateRef s) (scrollAnchorRef s)
    (previousPointRef s) v (dwellRef s) (tiles s) (cursor s) (handVisible s)
    (pinching s) (dragging s) (gestureMode s) (zoomLevel s) (scrollOffset s)
    (scrollOffsetX s) (dwellProgress s) (pinchMetric s) (velocityMetric s)
    (swipePulse s) (activeTile s) (status s).

Definition set_dwellRef (v : Dwell) (s : Engine) : Engine :=
  mkEngine (pinchStateRef s) (clickCooldownRef s) (pinchFramesRef s)
    (scrollFramesRef s) (zoomFramesRef s) (scrollReleaseFramesRef s)
    (zoomReleaseFramesRef s) (scrollModeRef s) (zoomModeRef s)
    (dragFramesRef s) (dragSwapCooldownRef s) (dragTargetRef s)
    (pinchStartTimeRef s) (zoomStateRef s) (scrollAnchorRef s)
    (previousPointRef s) (swipeCooldownRef s) v (tiles s) (cursor s)
    (handVisible s) (pinching s) (dragging s) (gestureMode s) (zoomLevel s)
    (scrollOffset s) (scrollOffsetX s) (dwellProgress s) (pinchMetric s)
    (velocityMetric s) (swipePulse s) (activeTile s) (status s).

Definition setTiles (v : list Tile) (s : Engine) : Engine :=
  mkEngine (pinchStateRef s) (clickCooldownRef s) (pinchFramesRef s)
    (scrollFramesRef s) (zoomFramesRef s) (scrollReleaseFramesRef s)
    (zoomReleaseFramesRef s) (scrollModeRef s) (zoomModeRef s)
    (dragFramesRef s) (dragSwapCooldownRef s) (dragTargetRef s)
    (pinchStartTimeRef s) (zoomStateRef s) (scrollAnchorRef s)
    (previousPointRef s) (swipeCooldownRef s) (dwellRef s) v (cursor s)
    (handVisible s) (pinching s) (dragging s) (gestureMode s) (zoomLevel s)
    (scrollOffset s) (scrollOffsetX s) (dwellProgress s) (pinchMetric s)
    (velocityMetric s) (swipePulse s) (activeTile s) (status s).

Definition setCursor (v : CursorPoint) (s : Engine) : Engine :=
  mkEngine (pinchStateRef s) (clickCooldownRef s) (pinchFramesRef s)
    (scrollFramesRef s) (zoomFramesRef s) (scrollReleaseFramesRef s)
    (zoomReleaseFramesRef s) (scrollModeRef s) (zoomModeRef s)
    (dragFramesRef s) (dragSwapCooldownRef s) (dragTargetRef s)
    (pinchStartTimeRef s) (zoomStateRef s) (scrollAnchorRef s)
    (previousPointRef s) (swipeCooldownRef s) (dwellRef s) (tiles s) v
    (handVisible s) (pinching s) (dragging s) (gestureMode s) (zoomLevel s)
    (scrollOffset s) (scrollOffsetX s) (dwellProgress s) (pinchMetric s)
    (velocityMetric s) (swipePulse s) (activeTile s) (status s).

Definition setHandVisible (v : bool) (s : Engine) : Engine :=
  mkEngine (pinchStateRef s) (clickCooldownRef s) (pinchFramesRef s)
    (scrollFramesRef s) (zoomFramesRef s) (scrollReleaseFramesRef s)
    (zoomReleaseFramesRef s) (scrollModeRef s) (zoomModeRef s)
    (dragFramesRef s) (dragSwapCooldownRef s) (dragTargetRef s)
    (pinchStartTimeRef s) (zoomStateRef s) (scrollAnchorRef s)
    (previousPointRef s) (swipeCooldownRef s) (dwellRef s) (tiles s)
    (cursor s) v (pinching s) (dragging s) (gestureMode s) (zoomLevel s)
    (scrollOffset s) (scrollOffsetX s) (dwellProgress s) (pinchMetric s)
    (velocityMetric s) (swipePulse s) (activeTile s) (status s).

Definition setPinching (v : bool) (s : Engine) : Engine :=
  mkEngine (pinchStateRef s) (clickCooldownRef s) (pinchFramesRef s)
    (scrollFramesRef s) (zoomFramesRef s) (scrollReleaseFramesRef s)
    (zoomReleaseFramesRef s) (scrollModeRef s) (zoomModeRef s)
    (dragFramesRef s) (dragSwapCooldownRef s) (dragTargetRef s)
    (pinchStartTimeRef s) (zoomStateRef s) (scrollAnchorRef s)
    (previousPointRef s) (swipeCooldownRef s) (dwellRef s) (tiles s)
    (cursor s) (handVisible s) v (dragging s) (gestureMode s) (zoomLevel s)
    (scrollOffset s) (scrollOffsetX s) (dwellProgress s) (pinchMetric s)
    (velocityMetric s) (swipePulse s) (activeTile s) (status s).

Definition setDragging (v : bool) (s : Engine) : Engine :=
  mkEngine (pinchStateRef s) (clickCooldownRef s) (pinchFramesRef s)
    (scrollFramesRef s) (zoomFramesRef s) (scrollReleaseFramesRef s)
    (zoomReleaseFramesRef s) (scrollModeRef s) (zoomModeRef s)
    (dragFramesRef s) (dragSwapCooldownRef s) (dragTargetRef s)
    (pinchStartTimeRef s) (zoomStateRef s) (scrollAnchorRef s)
    (previousPointRef s) (swipeCooldownRef s) (dwellRef s) (tiles s)
    (cursor s) (handVisible s) (pinching s) v (gestureMode s) (zoomLevel s)
    (scrollOffset s) (scrollOffsetX s) (dwellProgress s) (pinchMetric s)
    (velocityMetric s) (swipePulse s) (activeTile s) (status s).

Definition setGestureMode (v : GestureMode) (s : Engine) : Engine :=
  mkEngine (pinchStateRef s) (clickCooldownRef s) (pinchFramesRef s)
    (scrollFramesRef s) (zoomFramesRef s) (scrollReleaseFramesRef s)
    (zoomReleaseFramesRef s) (scrollModeRef s) (zoomModeRef s)
    (dragFramesRef s) (dragSwapCooldownRef s) (dragTargetRef s)
    (pinchStartTimeRef s) (zoomStateRef s) (scrollAnchorRef s)
    (previousPointRef s) (swipeCooldownRef s) (dwellRef s) (tiles s)
    (cursor s) (handVisible s) (pinching s) (dragging s) v (zoomLevel s)
    (scrollOffset s) (scrollOffsetX s) (dwellProgress s) (pinchMetric s)
    (velocityMetric s) (swipePulse s) (activeTile s) (status s).

Definition setZoomLevel (v : Q) (s : Engine) : Engine :=
  mkEngine (pinchStateRef s) (clickCooldownRef s) (pinchFramesRef s)
    (scrollFramesRef s) (zoomFramesRef s) (scrollReleaseFramesRef s)
    (zoomReleaseFramesRef s) (scrollModeRef s) (zoomModeRef s)
    (dragFramesRef s) (dragSwapCooldownRef s) (dragTargetRef s)
    (pinchStartTimeRef s) (zoomStateRef s) (scrollAnchorRef s)
    (previousPointRef s) (swipeCooldownRef s) (dwellRef s) (tiles s)
    (cursor s) (handVisible s) (pinching s) (dragging s) (gestureMode s) v
    (scrollOffset s) (scrollOffsetX s) (dwellProgress s) (pinchMetric s)
    (velocityMetric s) (swipePulse s) (activeTile s) (status s).

Definition setScrollOffset (v : Q) (s : Engine) : Engine :=
  mkEngine (pinchStateRef s) (clickCooldownRef s) (pinchFramesRef s)
    (scrollFramesRef s) (zoomFramesRef s) (scrollReleaseFramesRef s)
    (zoomReleaseFramesRef s) (scrollModeRef s) (zoomModeRef s)
    (dragFramesRef s) (dragSwapCooldownRef s) (dragTargetRef s)
    (pinchStartTimeRef s) (zoomStateRef s) (scrollAnchorRef s)
    (previousPointRef s) (swipeCooldownRef s) (dwellRef s) (tiles s)
    (cursor s) (handVisible s) (pinching s) (dragging s) (gestureMode s)
    (zoomLevel s) v (scrollOffsetX s) (dwellProgress s) (pinchMetric s)
    (velocityMetric s) (swipePulse s) (activeTile s) (status s).

Definition setScrollOffsetX (v : Q) (s : Engine) : Engine :=
  mkEngine (pinchStateRef s) (clickCooldownRef s) (pinchFramesRef s)
    (scrollFramesRef s) (zoomFramesRef s) (scrollReleaseFramesRef s)
    (zoomReleaseFramesRef s) (scrollModeRef s) (zoomModeRef s)
    (dragFramesRef s) (dragSwapCooldownRef s) (dragTargetRef s)
    (pinchStartTimeRef s) (zoomStateRef s) (scrollAnchorRef s)
    (previousPointRef s) (swipeCooldownRef s) (dwellRef s) (tiles s)
    (cursor s) (handVisible s) (pinching s) (dragging s) (gestureMode s)
    (zoomLevel s) (scrollOffset s) v (dwellProgress s) (pinchMetric s)
    (velocityMetric s) (swipePulse s) (activeTile s) (status s).

Definition setDwellProgress (v : Q) (s : Engine) : Engine :=
  mkEngine (pinchStateRef s) (clickCooldownRef s) (pinchFramesRef s)
    (scrollFramesRef s) (zoomFramesRef s) (scrollReleaseFramesRef s)
    (zoomReleaseFramesRef s) (scrollModeRef s) (zoomModeRef s)
    (dragFramesRef s) (dragSwapCooldownRef s) (dragTargetRef s)
    (pinchStartTimeRef s) (zoomStateRef s) (scrollAnchorRef s)
    (previousPointRef s) (swipeCooldownRef s) (dwellRef s) (tiles s)
    (cursor s) (handVisible s) (pinching s) (dragging s) (gestureMode s)
    (zoomLevel s) (scrollOffset s) (scrollOffsetX s) v (pinchMetric s)
    (velocityMetric s) (swipePulse s) (activeTile s) (status s).

Definition setPinchMetric (v : Q) (s : Engine) : Engine :=
  mkEngine (pinchStateRef s) (clickCooldownRef s) (pinchFramesRef s)
    (scrollFramesRef s) (zoomFramesRef s) (scrollReleaseFramesRef s)
    (zoomReleaseFramesRef s) (scrollModeRef s) (zoomModeRef s)
    (dragFramesRef s) (dragSwapCooldownRef s) (dragTargetRef s)
    (pinchStartTimeRef s) (zoomStateRef s) (scrollAnchorRef s)
    (previousPointRef s) (swipeCooldownRef s) (dwellRef s) (tiles s)
    (cursor s) (handVisible s) (pinching s) (dragging s) (gestureMode s)
    (zoomLevel s) (scrollOffset s) (scrollOffsetX s) (dwellProgress s) v
    (velocityMetric s) (swipePulse s) (activeTile s) (status s).

Definition setVelocityMetric (v : Q) (s : Engine) : Engine :=
  mkEngine (pinchStateRef s) (clickCooldownRef s) (pinchFramesRef s)
    (scrollFramesRef s) (zoomFramesRef s) (scrollReleaseFramesRef s)
    (zoomReleaseFramesRef s) (scrollModeRef s) (zoomModeRef s)
    (dragFramesRef s) (dragSwapCooldownRef s) (dragTargetRef s)
    (pinchStartTimeRef s) (zoomStateRef s) (scrollAnchorRef s)
    (previousPointRef s) (swipeCooldownRef s) (dwellRef s) (tiles s)
    (cursor s) (handVisible s) (pinching s) (dragging s) (gestureMode s)
    (zoomLevel s) (scrollOffset s) (scrollOffsetX s) (dwellProgress s)
    (pinchMetric s) v (swipePulse s) (activeTile s) (status s).

Definition setSwipePulse (v : nat) (s : Engine) : Engine :=
  mkEngine (pinchStateRef s) (clickCooldownRef s) (pinchFramesRef s)
    (scrollFramesRef s) (zoomFramesRef s) (scrollReleaseFramesRef s)
    (zoomReleaseFramesRef s) (scrollModeRef s) (zoomModeRef s)
    (dragFramesRef s) (dragSwapCooldownRef s) (dragTargetRef s)
    (pinchStartTimeRef s) (zoomStateRef s) (scrollAnchorRef s)
    (previousPointRef s) (swipeCooldownRef s) (dwellRef s) (tiles s)
    (cursor s) (handVisible s) (pinching s) (dragging s) (gestureMode s)
    (zoomLevel s) (scrollOffset s) (scrollOffsetX s) (dwellProgress s)
    (pinchMetric s) (velocityMetric s) v (activeTile s) (status s).

Definition setActiveTile (v : option string) (s : Engine) : Engine :=
  mkEngine (pinchStateRef s) (clickCooldownRef s) (pinchFramesRef s)
    (scrollFramesRef s) (zoomFramesRef s) (scrollReleaseFramesRef s)
    (zoomReleaseFramesRef s) (scrollModeRef s) (zoomModeRef s)
    (dragFramesRef s) (dragSwapCooldownRef s) (dragTargetRef s)
    (pinchStartTimeRef s) (zoomStateRef s) (scrollAnchorRef s)
    (previousPointRef s) (swipeCooldownRef s) (dwellRef s) (tiles s)
    (cursor s) (handVisible s) (pinching s) (dragging s) (gestureMode s)
    (zoomLevel s) (scrollOffset s) (scrollOffsetX s) (dwellProgress s)
    (pinchMetric s) (velocityMetric s) (swipePulse s) v (status s).

Definition setStatus (v : Status) (s : Engine) : Engine :=
  mkEngine (pinchStateRef s) (clickCooldownRef s) (pinchFramesRef s)
    (scrollFramesRef s) (zoomFramesRef s) (scrollReleaseFramesRef s)
    (zoomReleaseFramesRef s) (scrollModeRef s) (zoomModeRef s)
    (dragFramesRef s) (dragSwapCooldownRef s) (dragTargetRef s)
    (pinchStartTimeRef s) (zoomStateRef s) (scrollAnchorRef s)
    (previousPointRef s) (swipeCooldownRef s) (dwellRef s) (tiles s)
    (cursor s) (handVisible s) (pinching s) (dragging s) (gestureMode s)
    (zoomLevel s) (scrollOffset s) (scrollOffsetX s) (dwellProgress s)
    (pinchMetric s) (velocityMetric s) (swipePulse s) (activeTile s) v.

(** The cells when the callback is first invoked: the initial values of
    the [useRef] and [useState] calls, with the gesture mode and the status
    that [startGestureEngine] sets once the camera runs (source lines
    610-611). *)
Definition initialEngine : Engine :=
  {| pinchStateRef := false; clickCooldownRef := 0; pinchFramesRef := 0;
     scrollFramesRef := 0; zoomFramesRef := 0; scrollReleaseFramesRef := 0;
     zoomReleaseFramesRef := 0; scrollModeRef := false; zoomModeRef := false;
     dragFramesRef := 0; dragSwapCooldownRef := 0; dragTargetRef := None;
     pinchStartTimeRef := 0; zoomStateRef := None; scrollAnchorRef := None;
     previousPointRef := None; swipeCooldownRef := 0;
     dwellRef := mkDwell None 0;
     tiles := INITIAL_TILES; cursor := mkPoint 0.5 0.5; handVisible := false;
     pinching := false; dragging := false; gestureMode := pointer;
     zoomLevel := 1; scrollOffset := 0; scrollOffsetX := 0;
     dwellProgress := 0; pinchMetric := 0; velocityMetric := 0;
     swipePulse := 0; activeTile := None; status := StatusCameraReady |}.

(** ** The callback *)

Section GestureEngine.

(** [Math.hypot]. *)
Variable hypot : Q -> Q -> Q.

(** The values of [activeTile] and [tiles] in the closure of the
    callback. *)
Variable activeTileCaptured : option string.
Variable tilesCaptured : list Tile.

(** [function distance(a, b)]. *)
Definition distance (a b : CursorPoint) : Q :=
  hypot (x a - x b) (y a - y b).

(** The [if (!handLandmarks)] branch (source lines 338-362). *)
Definition handLost (s : Engine) : Engine :=
  let s := setHandVisible false s in
  let s := setPinching false s in
  let s := setDragging false s in
  let s := setGestureMode idle s in
  let s := setDwellProgress 0 s in
  let s := setVelocityMetric 0 s in
  let s := set_pinchStateRef false s in
  let s := set_pinchFramesRef 0 s in
  let s := set_scrollFramesRef 0 s in
  let s := set_zoomFramesRef 0 s in
  let s := set_scrollReleaseFramesRef 0 s in
  let s := set_zoomReleaseFramesRef 0 s in
  let s := set_scrollModeRef false s in
  let s := set_zoomModeRef false s in
  let s := set_dragFramesRef 0 s in
  let s := set_dragTargetRef None s in
  let s := set_pinchStartTimeRef 0 s in
  let s := set_zoomStateRef None s in
  let s := set_scrollAnchorRef None s in
  let s := set_previousPointRef None s in
  let s := set_dwellRef (mkDwell None 0) s in
  setStatus StatusHandNotDetected s.

(** The constants computed at the top of the hand branch (source lines
    372-399 and 403-406). *)
Record Locals : Type := mkLocals {
  indexTip : CursorPoint;
  middleTip : option CursorPoint;
  nextCursor : CursorPoint;
  pinchDistance : Q;
  middleThumbDistance : Q;
  normalizedIndexMiddle : Q;
  previousPoint : option TimedPoint;
  dt : Q;
  velocity : Q;
  smooth : Q;
  stableCursor : CursorPoint
}.

Definition locals (s : Engine) (now : Q)
    (indexTip thumbTip : CursorPoint) (middleTip : option CursorPoint)
    (wrist indexBase pinkyBase middleBase : CursorPoint) : Locals :=
  let nextCursor :=
    mkPoint (clamp (1 - x indexTip) 0 1) (clamp (y indexTip) 0 1) in
  let palmScale :=
    Qmax (Qmax (distance indexBase pinkyBase) (distance wrist middleBase))
         0.08 in
  let normalizedDistance a b := distance a b / palmScale in
  let pinchDistance := normalizedDistance indexTip thumbTip in
  let middleThumbDistance :=
    match middleTip with
    | Some m => normalizedDistance m thumbTip
    | None => 1
    end in
  let normalizedIndexMiddle :=
    match middleTip with
    | Some m => normalizedDistance indexTip m
    | None => 1
    end in
  let previousPoint := previousPointRef s in
  let dt :=
    match previousPoint with
    | Some p => now - pt p
    | None => 16
    end in
  let velocity :=
    match previousPoint with
    | Some p =>
        hypot (x nextCursor - px p) (y nextCursor - py p) / Qmax dt 1
    | None => 0
    end in
  let smooth := clamp (0.22 + velocity * 1.8) 0.22 0.56 in
  let stableCursor :=
    match previousPoint with
    | Some p =>
        mkPoint (px p * (1 - smooth) + x nextCursor * smooth)
                (py p * (1 - smooth) + y nextCursor * smooth)
    | None => nextCursor
    end in
  mkLocals indexTip middleTip nextCursor pinchDistance middleThumbDistance
           normalizedIndexMiddle previousPoint dt velocity smooth
           stableCursor.

Definition scrollStart (l : Locals) : bool :=
  Qltb (normalizedIndexMiddle l) 0.22 && Qgtb (middleThumbDistance l) 0.34.

Definition scrollHold (l : Locals) : bool :=
  Qltb (normalizedIndexMiddle l) 0.3 && Qgtb (middleThumbDistance l) 0.28.

Definition zoomStart (l : Locals) : bool :=
  Qltb (middleThumbDistance l) 0.24 && Qgtb (normalizedIndexMiddle l) 0.25.

Definition zoomHold (l : Locals) : bool :=
  Qltb (middleThumbDistance l) 0.34 && Qgtb (normalizedIndexMiddle l) 0.2.

(** Source lines 408-428: the zoom latch. *)
Definition zoomLatch (l : Locals) (s : Engine) : Engine :=
  if zoomModeRef s then
    let s :=
      if zoomHold l then set_zoomReleaseFramesRef 0 s
      else set_zoomReleaseFramesRef (zoomReleaseFramesRef s + 1) s in
    if Nat.ltb 5 (zoomReleaseFramesRef s) then
      let s := set_zoomModeRef false s in
      let s := set_zoomReleaseFramesRef 0 s in
      set_zoomStateRef None s
    else s
  else if negb (scrollModeRef s) && zoomStart l then
    let s := set_zoomFramesRef (zoomFramesRef s + 1) s in
    if Nat.leb 3 (zoomFramesRef s) then
      let s := set_zoomModeRef true s in
      set_zoomFramesRef 0 s
    else s
  else set_zoomFramesRef 0 s.

(** Source lines 430-450: the scroll latch. *)
Definition scrollLatch (l : Locals) (s : Engine) : Engine :=
  if scrollModeRef s then
    let s :=
      if scrollHold l then set_scrollReleaseFramesRef 0 s
      else set_scrollReleaseFramesRef (scrollReleaseFramesRef s + 1) s in
    if Nat.ltb 5 (scrollReleaseFramesRef s) then
      let s := set_scrollModeRef false s in
      let s := set_scrollReleaseFramesRef 0 s in
      set_scrollAnchorRef None s
    else s
  else if negb (zoomModeRef s) && scrollStart l then
    let s := set_scrollFramesRef (scrollFramesRef s + 1) s in
    if Nat.leb 3 (scrollFramesRef s) then
      let s := set_scrollModeRef true s in
      set_scrollFramesRef 0 s
    else s
  else set_scrollFramesRef 0 s.

(** The booleans fixed after the latches (source lines 452-458). *)
Record Gestures : Type := mkGestures {
  zoomGesture : bool;
  scrollGesture : bool;
  nextPinch : bool;
  wasPinching : bool
}.

Definition pinchStartThreshold : Q := 0.34.
Definition pinchHoldThreshold : Q := 0.42.

Definition gestures (l : Locals) (s : Engine) : Gestures :=
  let zoomGesture := zoomModeRef s in
  let scrollGesture := scrollModeRef s in
  let nextPinch :=
    (if pinchStateRef s then Qltb (pinchDistance l) pinchHoldThreshold
     else Qltb (pinchDistance l) pinchStartThreshold)
    && negb scrollGesture && negb zoomGesture in
  mkGestures zoomGesture scrollGesture nextPinch (pinchStateRef s).

(** Source lines 459-466. *)
Definition pinchStage (now : Q) (l : Locals) (g : Gestures) (s : Engine)
  : Engine :=
  let s :=
    set_pinchFramesRef
      (if nextPinch g then pinchFramesRef s + 1 else 0)%nat s in
  let s := setPinchMetric (clamp (1 - pinchDistance l / 0.65) 0 1) s in
  let s := setPinching (nextPinch g) s in
  if nextPinch g && negb (wasPinching g) then set_pinchStartTimeRef now s
  else s.

(** Source lines 468-490. *)
Definition zoomStage (l : Locals) (g : Gestures) (s : Engine) : Engine :=
  if zoomGesture g then
    let s := setGestureMode zoom s in
    let s :=
      match zoomStateRef s with
      | None =>
          set_zoomStateRef (Some (mkZoomAnchor (middleThumbDistance l))) s
      | Some base =>
          let delta := middleThumbDistance l - lastDistance base in
          let s :=
            if Qgtb (Qabs delta) 0.0012 then
              setZoomLevel (clamp (zoomLevel s + delta * 3.6) 0.45 2.6) s
            else s in
          set_zoomStateRef
            (Some (mkZoomAnchor (lastDistance base * 0.45
                                 + middleThumbDistance l * 0.55))) s
      end in
    let s := set_scrollAnchorRef None s in
    let s := set_scrollModeRef false s in
    let s := setDragging false s in
    let s := set_dragFramesRef 0 s in
    let s := setDwellProgress 0 s in
    setStatus StatusZoomMode s
  else set_zoomStateRef None s.

(** Source lines 492-517. *)
Definition scrollStage (l : Locals) (g : Gestures) (s : Engine) : Engine :=
  match scrollGesture g, middleTip l with
  | true, Some middleTip =>
      let s := setGestureMode scroll s in
      let midpointY := (y (indexTip l) + y middleTip) * 0.5 in
      let midpointX := (x (indexTip l) + x middleTip) * 0.5 in
      let s :=
        match scrollAnchorRef s with
        | None => set_scrollAnchorRef (Some (mkPoint midpointX midpointY)) s
        | Some anchor =>
            let deltaY := midpointY - y anchor in
            let deltaX := x anchor - midpointX in
            let easedStepY := clamp (deltaY * 180) (-22) 22 in
            let easedStepX := clamp (deltaX * 180) (-22) 22 in
            let s :=
              setScrollOffset
                (clamp (scrollOffset s + easedStepY) (-360) 360) s in
            let s :=
              setScrollOffsetX
                (clamp (scrollOffsetX s + easedStepX) (-360) 360) s in
            set_scrollAnchorRef
              (Some (mkPoint (x anchor * 0.65 + midpointX * 0.35)
                             (y anchor * 0.65 + midpointY * 0.35))) s
        end in
      let s := set_zoomModeRef false s in
      let s := setDragging false s in
      let s := set_dragFramesRef 0 s in
      let s := setDwellProgress 0 s in
      setStatus StatusScrollMode s
  | _, _ => set_scrollAnchorRef None s
  end.

(** Source lines 519-525. *)
Definition dragCountStage (g : Gestures) (s : Engine) : Engine :=
  if nextPinch g && negb (zoomGesture g) && negb (scrollGesture g) then
    set_dragFramesRef (dragFramesRef s + 1) s
  else
    let s := set_dragFramesRef 0 s in
    let s := set_dragTargetRef None s in
    setDragging false s.

(** Source lines 527-537. *)
Definition dragStage (f : Frame) (l : Locals) (s : Engine)
  : Engine * list GestureEvent :=
  match activeTileCaptured with
  | Some active =>
      if Nat.ltb 12 (dragFramesRef s) && truthy activeTileCaptured then
        let s := setDragging true s in
        let s := setGestureMode pointer s in
        let hoverTile := getTileAtCursor f (stableCursor l) in
        match hoverTile with
        | Some hover =>
            if truthy hoverTile
               && negb (opt_string_eqb hoverTile activeTileCaptured)
               && negb (opt_string_eqb hoverTile (dragTargetRef s))
               && Qgtb (now f - dragSwapCooldownRef s) 280
            then
              let s := setTiles (reorderTiles active hover (tiles s)) s in
              let s := set_dragTargetRef hoverTile s in
              let s := set_dragSwapCooldownRef (now f) s in
              let s := setStatus (StatusDragging active hover) s in
              (s, [DragReorder active hover])
            else (s, [])
        | None => (s, [])
        end
      else (s, [])
  | None => (s, [])
  end.

(** [const triggerTileClick = (nextCursor, source) => ...]. *)
Definition triggerTileClick (f : Frame) (nextCursor : CursorPoint)
    (source : ClickSource) (s : Engine) : Engine * list GestureEvent :=
  let tileId := getTileAtCursor f nextCursor in
  match tileId with
  | Some tile =>
      if truthy tileId then
        let s := setActiveTile (toggleTile tile (activeTile s)) s in
        let s := setStatus (StatusClick source tile) s in
        (s, [match source with
             | src_pinch => Click tile
             | src_dwell => DwellClick tile
             end])
      else (s, [])
  | None => (s, [])
  end.

(** Source lines 539-553. *)
Definition shouldClick (f : Frame) (g : Gestures) (s : Engine) : bool :=
  let pinchDuration := now f - pinchStartTimeRef s in
  Qltb pinchDuration 280
  && negb (scrollGesture g)
  && negb (zoomGesture g)
  && Qgtb (now f - clickCooldownRef s) 420.

Definition clickStage (f : Frame) (l : Locals) (g : Gestures) (s : Engine)
  : Engine * list GestureEvent :=
  if negb (nextPinch g) && wasPinching g then
    if shouldClick f g s then
      let s := setGestureMode click s in
      let '(s, ev) := triggerTileClick f (stableCursor l) src_pinch s in
      let s := set_clickCooldownRef (now f) s in
      let s := setDwellProgress 0 s in
      (s, ev)
    else (s, [])
  else (s, []).

(** [const triggerSwipeSelect = (direction) => ...]; the boolean tells
    whether the queued updater raises. *)
Definition triggerSwipeSelect (direction : Direction) (s : Engine)
  : Engine * bool :=
  let '(s, raised) :=
    match swipeUpdater tilesCaptured direction (activeTile s) with
    | Some next => (setActiveTile next s, false)
    | None => (s, true)
    end in
  let s := setSwipePulse (swipePulse s + 1)%nat s in
  let s := setGestureMode swipe s in
  let s := setStatus (StatusSwipe direction) s in
  (s, raised).

(** The swipe test of source line 561. *)
Definition swipeFires (f : Frame) (l : Locals) (p : TimedPoint)
    (s : Engine) : bool :=
  let dx := x (stableCursor l) - px p in
  Qltb (dt l) 135
  && Qgtb (Qabs dx) 0.22
  && Qgtb (now f - swipeCooldownRef s) 650.

Definition swipeDirection (l : Locals) (p : TimedPoint) : Direction :=
  let dx := x (stableCursor l) - px p in
  if Qgtb dx 0 then swipe_right else swipe_left.

(** Source lines 559-565. *)
Definition swipeStage (f : Frame) (l : Locals) (s : Engine)
  : Engine * list GestureEvent * bool :=
  match previousPoint l with
  | Some p =>
      if swipeFires f l p s then
        let '(s, raised) := triggerSwipeSelect (swipeDirection l p) s in
        let s := set_swipeCooldownRef (now f) s in
        (s, [SwipeSelect (swipeDirection l p)], raised)
      else (s, [], false)
  | None => (s, [], false)
  end.

(** Source lines 567-585. *)
Definition dwellStage (f : Frame) (l : Locals) (s : Engine)
  : Engine * list GestureEvent :=
  let hoveredTile := getTileAtCursor f (stableCursor l) in
  if truthy hoveredTile then
    if negb (opt_string_eqb (dwell_id (dwellRef s)) hoveredTile) then
      let s := set_dwellRef (mkDwell hoveredTile (now f)) s in
      (setDwellProgress 0 s, [])
    else
      let progress := clamp ((now f - startedAt (dwellRef s)) / 980) 0 1 in
      let s := setDwellProgress progress s in
      if Qgeb progress 1 && Qgtb (now f - clickCooldownRef s) 600 then
        let '(s, ev) := triggerTileClick f (stableCursor l) src_dwell s in
        let s := set_clickCooldownRef (now f) s in
        let s := set_dwellRef (mkDwell hoveredTile (now f)) s in
        (setDwellProgress 0 s, ev)
      else (s, [])
  else
    let s := set_dwellRef (mkDwell None 0) s in
    (setDwellProgress 0 s, []).

(** Source lines 555-586. *)
Definition pointerStage (f : Frame) (l : Locals) (g : Gestures)
    (s : Engine) : Engine * list GestureEvent * bool :=
  if negb (nextPinch g) && negb (scrollGesture g) && negb (zoomGesture g)
  then
    let s := setGestureMode pointer s in
    let s := setStatus StatusPointerMode s in
    let '(s, ev1, raised) := swipeStage f l s in
    let '(s, ev2) := dwellStage f l s in
    (s, ev1 ++ ev2, raised)
  else (s, [], false).

(** Source lines 388-589, once the landmarks have been read. *)
Definition processHand (f : Frame) (l : Locals) (s : Engine)
  : Engine * list GestureEvent * Outcome :=
  let s := setVelocityMetric (clamp (velocity l * 900) 0 1) s in
  let s := setCursor (stableCursor l) s in
  let s := zoomLatch l s in
  let s := scrollLatch l s in
  let g := gestures l s in
  let s := pinchStage (now f) l g s in
  let s := zoomStage l g s in
  let s := scrollStage l g s in
  let s := dragCountStage g s in
  let '(s, evDrag) := dragStage f l s in
  let '(s, evClick) := clickStage f l g s in
  let '(s, evPointer, raised) := pointerStage f l g s in
  let s :=
    set_previousPointRef
      (Some (mkTimed (x (stableCursor l)) (y (stableCursor l)) (now f))) s in
  let s := set_pinchStateRef (nextPinch g) s in
  (s, evDrag ++ evClick ++ evPointer,
   if raised then Threw else Completed).

(** The locals of a frame on which [drawHandGuide] returns and whose
    landmarks can all be read. *)
Definition frameLocals (s : Engine) (f : Frame) : option Locals :=
  if overlayRaises f then None else
  match handLandmarks f with
  | None => None
  | Some lm =>
      match landmark lm 8, landmark lm 4 with
      | Some indexTip, Some thumbTip =>
          match landmark lm 0, landmark lm 5, landmark lm 17,
                landmark lm 9 with
          | Some wrist, Some indexBase, Some pinkyBase, Some middleBase =>
              Some (locals s (now f) indexTip thumbTip (landmark lm 12)
                           wrist indexBase pinkyBase middleBase)
          | _, _, _, _ => None
          end
      | _, _ => None
      end
  end.

(** [hands.onResults((results) => ...)]: the new cells, the collaborator
    calls made, and how the invocation ended. *)
Definition onResults (s : Engine) (f : Frame)
  : Engine * list GestureEvent * Outcome :=
  if overlayRaises f then (s, [], Threw) else
  match handLandmarks f with
  | None => (handLost s, [], NoHand)
  | Some lm =>
      match landmark lm 8, landmark lm 4 with
      | Some indexTip, Some thumbTip =>
          let s := setHandVisible true s in
          match landmark lm 0, landmark lm 5, landmark lm 17,
                landmark lm 9 with
          | Some wrist, Some indexBase, Some pinkyBase, Some middleBase =>
              processHand f
                (locals s (now f) indexTip thumbTip (landmark lm 12)
                        wrist indexBase pinkyBase middleBase) s
          | _, _, _, _ => (s, [], Threw)
          end
      | _, _ => (s, [], Skipped)
      end
  end.

Definition engineAfter (s : Engine) (f : Frame) : Engine :=
  fst (fst (onResults s f)).

Definition eventsOf (s : Engine) (f : Frame) : list GestureEvent :=
  snd (fst (onResults s f)).

Definition outcomeOf (s : Engine) (f : Frame) : Outcome :=
  snd (onResults s f).

(** The callback applied to a sequence of frames, oldest first.  An
    invocation that raises keeps the cells it had written so far, and the
    next frame finds them. *)
Fixpoint run (s : Engine) (fs : list Frame) : Engine :=
  match fs with
  | [] => s
  | f :: rest => run (engineAfter s f) rest
  end.

(** The cells after both latches, and the booleans the callback fixes at
    that point, as functions of the cells at the start of the frame. *)
Definition latched (l : Locals) (s : Engine) : Engine :=
  scrollLatch l (zoomLatch l s).

Definition frameGestures (l : Locals) (s : Engine) : Gestures :=
  gestures l (latched l s).

(** The cells the stages after [scrollStage] leave alone. *)
Definition modeView (s : Engine) :=
  (scrollModeRef s, zoomModeRef s, scrollFramesRef s, zoomFramesRef s,
   scrollReleaseFramesRef s, zoomReleaseFramesRef s,
   zoomStateRef s, scrollAnchorRef s, zoomLevel s, cursor s).

(** The cells at the point where the callback has set the mode locks and
    run the zoom and scroll updates (source line 517). *)
Definition moded (f : Frame) (l : Locals) (s : Engine) : Engine :=
  let s := setVelocityMetric (clamp (velocity l * 900) 0 1) s in
  let s := setCursor (stableCursor l) s in
  let s := latched l s in
  let g := gestures l s in
  scrollStage l g (zoomStage l g (pinchStage (now f) l g s)).

(** *** The latch cells on their own

    The six cells the two latches work on, and the latch code restricted
    to them; [latchCells_moded] below shows that the callback changes these
    cells exactly as [modeCells] does. *)
Record LatchCells : Type := mkLatch {
  scrollOn : bool;
  zoomOn : bool;
  scrollArming : nat;
  zoomArming : nat;
  scrollReleasing : nat;
  zoomReleasing : nat
}.

Definition latchCells (s : Engine) : LatchCells :=
  mkLatch (scrollModeRef s) (zoomModeRef s) (scrollFramesRef s)
          (zoomFramesRef s) (scrollReleaseFramesRef s)
          (zoomReleaseFramesRef s).

(** The start and hold signals of a frame, and whether the middle tip was
    reported. *)
Record Signals : Type := mkSignals {
  sigScrollStart : bool;
  sigScrollHold : bool;
  sigZoomStart : bool;
  sigZoomHold : bool;
  sigMiddleTip : bool
}.

Definition signalsOf (l : Locals) : Signals :=
  mkSignals (scrollStart l) (scrollHold l) (zoomStart l) (zoomHold l)
            (match middleTip l with Some _ => true | None => false end).

Definition zoomLatchCells (g : Signals) (c : LatchCells) : LatchCells :=
  match c with
  | mkLatch so zo sa za sr zr =>
      if zo then
        let zr1 := if sigZoomHold g then O else (zr + 1)%nat in
        if Nat.ltb 5 zr1 then mkLatch so false sa za sr 0
        else mkLatch so zo sa za sr zr1
      else if negb so && sigZoomStart g then
        if Nat.leb 3 (za + 1) then mkLatch so true sa 0 sr zr
        else mkLatch so zo sa (za + 1) sr zr
      else mkLatch so zo sa 0 sr zr
  end.

Definition scrollLatchCells (g : Signals) (c : LatchCells) : LatchCells :=
  match c with
  | mkLatch so zo sa za sr zr =>
      if so then
        let sr1 := if sigScrollHold g then O else (sr + 1)%nat in
        if Nat.ltb 5 sr1 then mkLatch false zo sa za 0 zr
        else mkLatch so zo sa za sr1 zr
      else if negb zo && sigScrollStart g then
        if Nat.leb 3 (sa + 1) then mkLatch true zo 0 za sr zr
        else mkLatch so zo (sa + 1) za sr zr
      else mkLatch so zo 0 za sr zr
  end.

(** The writes to the locks in the zoom and scroll branches (source lines
    483 and 510). *)
Definition branchCells (g : Signals) (c : LatchCells) : LatchCells :=
  match c with
  | mkLatch so zo sa za sr zr =>
      let so1 := if zo then false else so in
      let zo1 := if so && sigMiddleTip g then false else zo in
      mkLatch so1 zo1 sa za sr zr
  end.

Definition modeCells (g : Signals) (c : LatchCells) : LatchCells :=
  branchCells g (scrollLatchCells g (zoomLatchCells g c)).

(** What holds of the latch cells between frames: the locks exclude each
    other, an arming counter is non-zero only while both locks are off, a
    release counter is non-zero only while its lock is on, and the
    counters stay below their thresholds. *)
Definition cellsInv (c : LatchCells) : Prop :=
  (scrollOn c = false \/ zoomOn c = false)
  /\ (zoomArming c = 0%nat \/ (scrollOn c = false /\ zoomOn c = false))
  /\ (scrollArming c = 0%nat \/ (scrollOn c = false /\ zoomOn c = false))
  /\ (zoomOn c = true \/ zoomReleasing c = 0%nat)
  /\ (scrollOn c = true \/ scrollReleasing c = 0%nat)
  /\ (zoomArming c < 3 /\ scrollArming c < 3
      /\ zoomReleasing c <= 5 /\ scrollReleasing c <= 5)%nat.

Definition latchInv (s : Engine) : Prop := cellsInv (latchCells s).

(** The latch cells after a frame without a hand. *)
Definition idleCells : LatchCells := mkLatch false false 0 0 0 0.

(** A frame whose landmarks can all be read and whose zoom (scroll) hold
    signal has the given value; the signal does not depend on the cells. *)
Definition zoomHeld (b : bool) (f : Frame) : Prop :=
  forall s, exists l, frameLocals s f = Some l /\ zoomHold l = b.

Definition scrollHeld (b : bool) (f : Frame) : Prop :=
  forall s, exists l, frameLocals s f = Some l /\ scrollHold l = b.

(** The cells that neither latch nor the pinch, zoom and scroll branches
    write. *)
Definition restView (s : Engine) :=
  (pinchStateRef s, clickCooldownRef s, dragSwapCooldownRef s,
   dragTargetRef s, previousPointRef s, swipeCooldownRef s, dwellRef s,
   tiles s, cursor s, handVisible s, velocityMetric s, swipePulse s,
   activeTile s).

End GestureEngine.

(** ** Vocabulary of the statements *)

Definition inUnitSquare (p : CursorPoint) : Prop :=
  0 <= x p <= 1 /\ 0 <= y p <= 1.

(** The previous point, when there is one, lies in the unit square. *)
Definition prevInUnit (s : Engine) : Prop :=
  match previousPointRef s with
  | Some p => 0 <= px p <= 1 /\ 0 <= py p <= 1
  | None => True
  end.

Definition isClick (e : GestureEvent) : bool :=
  match e with Click _ => true | _ => false end.

Definition isSwipe (e : GestureEvent) : bool :=
  match e with SwipeSelect _ => true | _ => false end.

Definition isTileClick (e : GestureEvent) : bool :=
  match e with Click _ | DwellClick _ => true | _ => false end.

(** What a collaborator call does to the live [activeTile] cell. *)
Definition applyEvent (tiles : list Tile) (a : option string)
    (e : GestureEvent) : option string :=
  match e with
  | Click t | DwellClick t => toggleTile t a
  | SwipeSelect d =>
      match swipeUpdater tiles d a with
      | Some next => next
      | None => a
      end
  | DragReorder _ _ => a
  end.

(** The index [triggerSwipeSelect] moves to, as a natural number. *)
Definition swipeIndex (tiles : list Tile) (direction : Direction)
    (current : option string) : nat :=
  let safeIndex :=
    match findIndexOpt current tiles with Some i => i | None => O end in
  match direction with
  | swipe_right => Nat.modulo (safeIndex + 1) (List.length tiles)
  | swipe_left =>
      Nat.modulo (safeIndex + (List.length tiles - 1)) (List.length tiles)
  end.

(** The zoom update as the specification words it: the level multiplied by
    [1 + delta * 3.6], then clamped. *)
Definition zoomLevelAsSpecified (current delta : Q) : Q :=
  clamp (current * (1 + delta * 3.6)) 0.45 2.6.

(** ** Scenarios

    Hand poses with a palm scale of [0.2] and all fingertips on the line
    [y = 0.4], so that every distance is rational. *)

Definition wristPoint : CursorPoint := mkPoint 0.5 0.8.
Definition indexBasePoint : CursorPoint := mkPoint 0.4 0.6.
Definition middleBasePoint : CursorPoint := mkPoint 0.5 0.6.
Definition pinkyBasePoint : CursorPoint := mkPoint 0.6 0.6.
Definition otherPoint : CursorPoint := mkPoint 0.5 0.7.

(** The 21 landmarks, with the given thumb, index and middle tips at
    indices 4, 8 and 12 and the wrist at index 0. *)
Definition handPose (wrist : option CursorPoint)
    (thumbTip indexTip middleTip : option CursorPoint)
  : list (option CursorPoint) :=
  let o := Some otherPoint in
  [ wrist; o; o; o; thumbTip;
    Some indexBasePoint; o; o; indexTip;
    Some middleBasePoint; o; o; middleTip;
    o; o; o; o;
    Some pinkyBasePoint; o; o; o ].

Definition tipAt (px : Q) : option CursorPoint := Some (mkPoint px 0.4).

Definition hitNothing (c : CursorPoint) : option string := None.
Definition hitMail (c : CursorPoint) : option string := Some "mail"%string.

(** The overlay while the camera runs: a 960 by 540 video and a canvas
    with a context. *)
Definition liveOverlay : option Overlay := Some (mkOverlay 960 540 true).

Definition frameOf (lm : list (option CursorPoint)) (t : Q)
    (hit : CursorPoint -> option string) : Frame :=
  mkFrame (Some lm) t hit liveOverlay.

(** No hand in view. *)
Definition noHandFrame (t : Q) : Frame :=
  mkFrame None t hitNothing liveOverlay.

(** The same frame with no overlay to draw on. *)
Definition overlayOff (f : Frame) : Frame :=
  mkFrame (handLandmarks f) (now f) (getTileAtCursor f) None.

(** Thumb, index and middle tips far apart: no gesture signal. *)
Definition openHand (t : Q) (hit : CursorPoint -> option string) : Frame :=
  frameOf (handPose (Some wristPoint) (tipAt 0.3) (tipAt 0.5) (tipAt 0.7))
          t hit.

(** Thumb and middle tips [gap] apart, index tip away from both. *)
Definition zoomPose (gap : Q) (t : Q) (hit : CursorPoint -> option string)
  : Frame :=
  frameOf (handPose (Some wristPoint) (tipAt 0.5) (tipAt 0.7)
                    (tipAt (0.5 + gap))) t hit.

(** Index and middle tips together, thumb away. *)
Definition scrollPose (t : Q) : Frame :=
  frameOf (handPose (Some wristPoint) (tipAt 0.3) (tipAt 0.5) (tipAt 0.54))
          t hitNothing.

(** Thumb and index tips together, middle tip away. *)
Definition pinchPose (t : Q) (hit : CursorPoint -> option string) : Frame :=
  frameOf (handPose (Some wristPoint) (tipAt 0.54) (tipAt 0.5) (tipAt 0.7))
          t hit.

(** An open hand whose index tip is at abscissa [ix]. *)
Definition openHandAt (ix : Q) (t : Q) : Frame :=
  frameOf (handPose (Some wristPoint) (tipAt (ix + 0.2)) (tipAt ix)
                    (tipAt (ix + 0.4))) t hitNothing.

(** An open hand whose middle tip is not reported. *)
Definition noMiddleTip (t : Q) : Frame :=
  frameOf (handPose (Some wristPoint) (tipAt 0.3) (tipAt 0.5) None)
          t hitNothing.

(** An open hand whose index tip is not reported. *)
Definition noIndexTip (t : Q) : Frame :=
  frameOf (handPose (Some wristPoint) (tipAt 0.3) None (tipAt 0.7))
          t hitNothing.

(** An open hand whose wrist is not reported. *)
Definition noWrist (t : Q) : Frame :=
  frameOf (handPose None (tipAt 0.3) (tipAt 0.5) (tipAt 0.7)) t hitNothing.

(** An open hand of which only the first [n] landmarks are reported: the
    array stops there. *)
Definition shortHand (n : nat) (t : Q) : Frame :=
  frameOf (firstn n (handPose (Some wristPoint) (tipAt 0.3) (tipAt 0.5)
                              (tipAt 0.7)))
          t hitNothing.

(** The callback as started from the page: [Math.hypot] as [hypot_floor],
    no tile selected and the initial tiles in the closure. *)
Definition pageStep : Engine -> Frame -> Engine :=
  engineAfter hypot_floor None INITIAL_TILES.

Definition pageRun : Engine -> list Frame -> Engine :=
  run hypot_floor None INITIAL_TILES.

Definition pageEvents : Engine -> Frame -> list GestureEvent :=
  eventsOf hypot_floor None INITIAL_TILES.

Definition pageOutcome : Engine -> Frame -> Outcome :=
  outcomeOf hypot_floor None INITIAL_TILES.

(** Three frames that carry the zoom start signal: the zoom lock comes on
    with the third, which also sets the anchor. *)
Definition zoomArmingFrames : list Frame :=
  [zoomPose 0.04 100 hitMail; zoomPose 0.04 116 hitMail;
   zoomPose 0.04 132 hitMail].

Definition zoomLocked : Engine := pageRun initialEngine zoomArmingFrames.

(** The same, then a frame with thumb and middle tip further apart: the
    zoom level has left 1. *)
Definition zoomedIn : Engine :=
  pageStep zoomLocked (zoomPose 0.06 148 hitMail).

(** Five frames without any signal. *)
Definition fiveOpenFrames : list Frame :=
  [openHand 148 hitNothing; openHand 164 hitNothing; openHand 180 hitNothing;
   openHand 196 hitNothing; openHand 212 hitNothing].

(** Three frames that carry the scroll start signal. *)
Definition scrollLocked : Engine :=
  pageRun initialEngine [scrollPose 100; scrollPose 116; scrollPose 132].

(** A hover over the tile [mail], then two frames with the zoom start
    signal: the dwell timer on [mail] is running, the zoom lock comes on
    with the next such frame. *)
Definition hoveringThenArming : Engine :=
  pageRun initialEngine
    [openHand 100 hitMail; zoomPose 0.04 116 hitMail;
     zoomPose 0.04 132 hitMail].

(** One frame with a pinch over the tile [mail], starting at 1000 ms. *)
Definition pinching1000 : Engine :=
  pageRun initialEngine [pinchPose 1000 hitMail].

(** One frame with the index tip at the far right of the camera image. *)
Definition cursorAtLeft : Engine :=
  pageRun initialEngine [openHandAt 0.9 1000].

Definition hitDocs (c : CursorPoint) : option string := Some "docs"%string.

(** A pinch click on the tile [docs], the hand leaving the view, and the
    hand back with the index tip at the far right of the camera image. *)
Definition docsSelected : Engine :=
  pageRun initialEngine
    [pinchPose 1000 hitDocs; openHand 1200 hitDocs; noHandFrame 1500;
     openHandAt 0.9 2000].

(** ** Further vocabulary *)

Definition inUnit (q : Q) : Prop := 0 <= q <= 1.

Definition isDragReorder (e : GestureEvent) : bool :=
  match e with DragReorder _ _ => true | _ => false end.

(** The cells that the drag, click and pointer stages and the two final
    assignments leave alone. *)
Definition meterView (s : Engine) :=
  (scrollOffset s, scrollOffsetX s, pinchMetric s, velocityMetric s,
   pinchFramesRef s, pinching s, pinchStartTimeRef s, dragFramesRef s).

(** The cells only the drag stage writes. *)
Definition dragView (s : Engine) :=
  (tiles s, dragSwapCooldownRef s).

(** ** Hit testing against the page layout *)

(** The fields of a [DOMRect] that [getTileAtCursor] reads. *)
Record DOMRect : Type := mkRect {
  rect_left : Q;
  rect_top : Q;
  rect_right : Q;
  rect_bottom : Q;
  rect_width : Q;
  rect_height : Q
}.

(** An element matched by [querySelectorAll("[data-tile-id]")]: its
    bounding rectangle and its [dataset.tileId]. *)
Record TileElement : Type := mkTileElement {
  tileRect : DOMRect;
  tileIdAttr : string
}.

(** The test of the [elements.find] callback (source line 183). *)
Definition rectContains (absoluteX absoluteY : Q) (tileRect : DOMRect)
  : bool :=
  Qle_bool (rect_left tileRect) absoluteX
  && Qle_bool absoluteX (rect_right tileRect)
  && Qle_bool (rect_top tileRect) absoluteY
  && Qle_bool absoluteY (rect_bottom tileRect).

(** [const getTileAtCursor = (nextCursor) => ...] (source lines 170-187)
    over an explicit layout: [None] for [screenRef.current === null],
    otherwise the rectangle of the screen and the tile elements in document
    order. *)
Definition getTileAtCursorIn
    (screen : option (DOMRect * list TileElement))
    (nextCursor : CursorPoint) : option string :=
  match screen with
  | None => None
  | Some (rect, elements) =>
      let absoluteX := rect_left rect + rect_width rect * x nextCursor in
      let absoluteY := rect_top rect + rect_height rect * y nextCursor in
      let target :=
        find (fun element => rectContains absoluteX absoluteY
                               (tileRect element)) elements in
      match target with
      | Some element => Some (tileIdAttr element)
      | None => None
      end
  end.

(** A layout of two tiles side by side on a 600 by 300 screen; the tiles
    share the vertical line at 400. *)
Definition pageRect : DOMRect := mkRect 100 50 700 350 600 300.

Definition mailElement : TileElement :=
  mkTileElement (mkRect 100 50 400 350 300 300) "mail"%string.

Definition mediaElement : TileElement :=
  mkTileElement (mkRect 400 50 700 350 300 300) "media"%string.

Definition twoTileScreen : option (DOMRect * list TileElement) :=
  Some (pageRect, [mailElement; mediaElement]).

(** The callback started with the tile [mail] selected. *)
Definition mailStep : Engine -> Frame -> Engine :=
  engineAfter hypot_floor (Some "mail"%string) INITIAL_TILES.

Definition mailRun : Engine -> list Frame -> Engine :=
  run hypot_floor (Some "mail"%string) INITIAL_TILES.

Definition mailEvents : Engine -> Frame -> list GestureEvent :=
  eventsOf hypot_floor (Some "mail"%string) INITIAL_TILES.

Definition hitMedia (c : CursorPoint) : option string := Some "media"%string.

(** Consecutive pinch frames, 16 ms apart from 1000 ms on, over the tile
    given by [hit]. *)
Definition pinchFrames (n : nat) (hit : CursorPoint -> option string)
  : list Frame :=
  map (fun k => pinchPose (1000 + 16 * inject_Z (Z.of_nat k)) hit)
      (seq 0 n).

(** A pinch that has lasted twelve frames, with the tile [mail] selected
    when the engine started. *)
Definition longPinch : Engine :=
  mailRun initialEngine (pinchFrames 12 hitNothing).

(** A hover over the tile [mail] that started at 100 ms. *)
Definition hoveringMail : Engine :=
  pageRun initialEngine [openHand 100 hitMail].

(** Index and middle tips together, moved down by [dy]. *)
Definition scrollPoseAt (dy : Q) (t : Q) : Frame :=
  frameOf (handPose (Some wristPoint)
                    (Some (mkPoint 0.3 (0.4 + dy)))
                    (Some (mkPoint 0.5 (0.4 + dy)))
                    (Some (mkPoint 0.54 (0.4 + dy)))) t hitNothing.

(** The other swipe direction. *)
Definition opposite (d : Direction) : Direction :=
  match d with
  | swipe_left => swipe_right
  | swipe_right => swipe_left
  end.

(** The tiles whose id is not [id]. *)
Definition otherTiles (id : string) (l : list Tile) : list Tile :=
  filter (fun t => negb (String.eqb (tile_id t) id)) l.

(** The test of [elements.find] at the page position of a cursor. *)
Definition underCursor (rect : DOMRect) (nextCursor : CursorPoint)
    (element : TileElement) : bool :=
  rectContains (rect_left rect + rect_width rect * x nextCursor)
               (rect_top rect + rect_height rect * y nextCursor)
               (tileRect element).

(** The cells the scroll branch works on. *)
Definition scrollView (s : Engine) :=
  (scrollAnchorRef s, scrollOffset s, scrollOffsetX s).

(** Whether [drawHandGuide] gets past its early returns: the canvas and
    the video are there, the video has dimensions and the canvas gives a
    context. *)
Definition overlayDraws (o : option Overlay) : bool :=
  match o with
  | Some video =>
      negb (Qeq_bool (videoWidth video) 0 || Qeq_bool (videoHeight video) 0)
      && context2d video
  | None => false
  end.

(** * Proofs *)

(** ** Comparisons and [clamp] *)

Lemma Qltb_true (a b : Q) : Qltb a b = true <-> a < b.
Proof.
  unfold Qltb. rewrite Qlt_alt. destruct (a ?= b); split; congruence.
Qed.

Lemma Qltb_false (a b : Q) : Qltb a b = false <-> b <= a.
Proof.
  split; intro H.
  - apply Qnot_lt_le. intro Hlt. apply Qltb_true in Hlt. congruence.
  - destruct (Qltb a b) eqn:E; [|reflexivity].
    apply Qltb_true in E. exfalso. apply (Qlt_not_le _ _ E H).
Qed.

Lemma Qgtb_true (a b : Q) : Qgtb a b = true <-> b < a.
Proof. apply Qltb_true. Qed.

Lemma Qgtb_false (a b : Q) : Qgtb a b = false <-> a <= b.
Proof. apply Qltb_false. Qed.

Lemma clamp_lower (v lo hi : Q) : lo <= hi -> lo <= clamp v lo hi.
Proof.
  intro H. unfold clamp. apply Q.min_glb; [exact H | apply Q.le_max_l].
Qed.

Lemma clamp_upper (v lo hi : Q) : clamp v lo hi <= hi.
Proof. unfold clamp. apply Q.le_min_l. Qed.

(** ** Tile list *)

Lemma findIndex_nth (id : string) (l : list Tile) (i : nat) :
  findIndex id l = Some i ->
  exists t, nth_error l i = Some t /\ tile_id t = id.
Proof.
  revert i. induction l as [|t r IH]; intros i H; simpl in H.
  - discriminate.
  - destruct (String.eqb (tile_id t) id) eqn:E.
    + injection H as <-. exists t. split; [reflexivity|].
      now apply String.eqb_eq.
    + destruct (findIndex id r) as [k|]; [|discriminate].
      injection H as <-. simpl. apply IH. reflexivity.
Qed.

(** [findIndex] returns the first index whose tile has the id. *)
Lemma findIndex_first (l : list Tile) (i : nat) (t : Tile) :
  nth_error l i = Some t ->
  (forall j tj, (j < i)%nat -> nth_error l j = Some tj ->
                tile_id tj <> tile_id t) ->
  findIndex (tile_id t) l = Some i.
Proof.
  revert i. induction l as [|a r IH]; intros i H First.
  - destruct i; discriminate.
  - destruct i as [|i]; cbn in H |- *.
    + injection H as ->. now rewrite String.eqb_refl.
    + assert (E : String.eqb (tile_id a) (tile_id t) = false).
      { apply String.eqb_neq. apply (First O a); [lia | reflexivity]. }
      rewrite E, (IH i H); [reflexivity|].
      intros j tj Hj Hn. apply (First (S j) tj); [lia | exact Hn].
Qed.

Lemma findIndex_absent (id : string) (l : list Tile) :
  (forall t, In t l -> tile_id t <> id) -> findIndex id l = None.
Proof.
  induction l as [|a r IH]; intro H; [reflexivity|]. cbn.
  assert (E : String.eqb (tile_id a) id = false).
  { apply String.eqb_neq. apply H. now left. }
  rewrite E, IH; [reflexivity|]. intros t Ht. apply H. now right.
Qed.

Lemma nth_error_split_at (l : list Tile) (i : nat) (t : Tile) :
  nth_error l i = Some t -> l = firstn i l ++ t :: skipn (S i) l.
Proof.
  revert i. induction l as [|a r IH]; intros [|i] H; simpl in *;
    try discriminate.
  - now injection H as ->.
  - f_equal. now apply IH.
Qed.

Lemma splice_remove_perm (l : list Tile) (i : nat) (t : Tile) :
  nth_error l i = Some t -> Permutation (t :: splice_remove i l) l.
Proof.
  intro H. unfold splice_remove.
  rewrite (nth_error_split_at l i t H) at 3.
  apply Permutation_middle.
Qed.

Lemma splice_insert_perm (l : list Tile) (j : nat) (t : Tile) :
  Permutation (splice_insert j t l) (t :: l).
Proof.
  unfold splice_insert. symmetry.
  rewrite <- (firstn_skipn j l) at 1. apply Permutation_middle.
Qed.

Lemma splice_remove_length (l : list Tile) (i : nat) (t : Tile) :
  nth_error l i = Some t -> S (List.length (splice_remove i l)) = List.length l.
Proof.
  intro H. apply (Permutation_length (splice_remove_perm l i t H)).
Qed.

Lemma splice_insert_nth (l : list Tile) (j : nat) (t : Tile) :
  (j <= List.length l)%nat -> nth_error (splice_insert j t l) j = Some t.
Proof.
  intro H. unfold splice_insert.
  rewrite nth_error_app2; rewrite firstn_length_le by exact H;
    [|apply Nat.le_refl].
  now rewrite Nat.sub_diag.
Qed.

Lemma reorderUpdater_perm (fromId toId : string) (l : list Tile) :
  Permutation (reorderUpdater fromId toId l) l.
Proof.
  unfold reorderUpdater.
  destruct (findIndex fromId l) as [i|]; [|reflexivity].
  destruct (findIndex toId l) as [j|]; [|reflexivity].
  destruct (nth_error l i) as [t|] eqn:E; [|reflexivity].
  rewrite splice_insert_perm. now apply splice_remove_perm.
Qed.

Lemma reorderTiles_perm (fromId toId : string) (l : list Tile) :
  Permutation (reorderTiles fromId toId l) l.
Proof.
  unfold reorderTiles. destruct (String.eqb fromId toId); [reflexivity|].
  apply reorderUpdater_perm.
Qed.

(** C10.  [reorderTiles] returns a permutation of the list it is given, of
    the same length; the list is returned as it is when the two ids are
    equal or one of them is absent; otherwise the tile found for [fromId]
    is taken out and put back at the index the tile for [toId] had, where
    it is then found. *)
Theorem reorderTiles_permutes (fromId toId : string) (current : list Tile) :
  Permutation (reorderTiles fromId toId current) current
  /\ List.length (reorderTiles fromId toId current) = List.length current
  /\ (fromId = toId \/ findIndex fromId current = None
      \/ findIndex toId current = None ->
      reorderTiles fromId toId current = current)
  /\ (forall fromIndex toIndex,
        fromId <> toId ->
        findIndex fromId current = Some fromIndex ->
        findIndex toId current = Some toIndex ->
        exists moved,
          nth_error current fromIndex = Some moved
          /\ tile_id moved = fromId
          /\ reorderTiles fromId toId current
             = splice_insert toIndex moved (splice_remove fromIndex current)
          /\ nth_error (reorderTiles fromId toId current) toIndex
             = Some moved).
Proof.
  split; [apply reorderTiles_perm|].
  split; [apply Permutation_length, reorderTiles_perm|].
  split.
  - intros [H|[H|H]]; unfold reorderTiles, reorderUpdater.
    + subst. now rewrite String.eqb_refl.
    + rewrite H. now destruct (String.eqb fromId toId).
    + rewrite H. destruct (String.eqb fromId toId); [reflexivity|].
      now destruct (findIndex fromId current).
  - intros i j Hne Hi Hj.
    destruct (findIndex_nth _ _ _ Hi) as [moved [Hm Hid]].
    destruct (findIndex_nth _ _ _ Hj) as [target [Ht _]].
    exists moved. split; [exact Hm|]. split; [exact Hid|].
    assert (E : reorderTiles fromId toId current
                = splice_insert j moved (splice_remove i current)).
    { unfold reorderTiles, reorderUpdater.
      apply String.eqb_neq in Hne. now rewrite Hne, Hi, Hj, Hm. }
    split; [exact E|]. rewrite E. apply splice_insert_nth.
    pose proof (splice_remove_length _ _ _ Hm) as Hl.
    assert (j < List.length current)%nat
      by (apply nth_error_Some; congruence).
    lia.
Qed.

(** ** The callback, stage by stage *)

Ltac break_branch :=
  match goal with
  | |- context [if ?b then _ else _] => destruct b eqn:?
  | |- context [match ?o with Some _ => _ | None => _ end] =>
      destruct o eqn:?
  | |- context [let '(_, _) := ?p in _] => destruct p eqn:?
  end.

Ltac stage_cases := intros; repeat (cbn; break_branch); cbn.

Ltac bool_vars :=
  repeat match goal with
  | |- context [if ?b then _ else _] => is_var b; destruct b
  | |- context [negb ?b] => is_var b; destruct b
  end.

Ltac nat_tests :=
  repeat match goal with
  | |- context [Nat.ltb ?a ?b] => destruct (Nat.ltb_spec a b)
  | |- context [Nat.leb ?a ?b] => destruct (Nat.leb_spec a b)
  end.

Section EngineProperties.

Variable hypot : Q -> Q -> Q.
Variable activeTileCaptured : option string.
Variable tilesCaptured : list Tile.

Local Abbreviation dragStage' := (dragStage activeTileCaptured).
Local Abbreviation processHand' :=
  (processHand activeTileCaptured tilesCaptured).
Local Abbreviation step :=
  (engineAfter hypot activeTileCaptured tilesCaptured).
Local Abbreviation emitted :=
  (eventsOf hypot activeTileCaptured tilesCaptured).
Local Abbreviation ending :=
  (outcomeOf hypot activeTileCaptured tilesCaptured).
Local Abbreviation runFrames :=
  (run hypot activeTileCaptured tilesCaptured).
Local Abbreviation localsOf := (frameLocals hypot).

Lemma dragCountStage_view g s : modeView (dragCountStage g s) = modeView s.
Proof. unfold dragCountStage. stage_cases; reflexivity. Qed.

Lemma dragStage_view f l s : modeView (fst (dragStage' f l s)) = modeView s.
Proof. unfold dragStage. stage_cases; reflexivity. Qed.

Lemma triggerTileClick_view f c src s :
  modeView (fst (triggerTileClick f c src s)) = modeView s.
Proof. unfold triggerTileClick. stage_cases; reflexivity. Qed.

Lemma clickStage_view f l g s :
  modeView (fst (clickStage f l g s)) = modeView s.
Proof.
  unfold clickStage.
  destruct (negb (nextPinch g) && wasPinching g); [|reflexivity].
  destruct (shouldClick f g s); [|reflexivity].
  pose proof (triggerTileClick_view f (stableCursor l) src_pinch
                (setGestureMode click s)) as H.
  destruct (triggerTileClick _ _ _ _) as [s1 ev]. exact H.
Qed.

Lemma swipeStage_view f l s :
  modeView (fst (fst (swipeStage tilesCaptured f l s))) = modeView s.
Proof. unfold swipeStage, triggerSwipeSelect. stage_cases; reflexivity. Qed.

Lemma dwellStage_view f l s : modeView (fst (dwellStage f l s)) = modeView s.
Proof.
  unfold dwellStage.
  destruct (truthy _); [|reflexivity].
  destruct (negb _); [reflexivity|].
  destruct (_ && _); [|reflexivity].
  match goal with
  | |- context [triggerTileClick ?f ?c ?src ?s0] =>
      pose proof (triggerTileClick_view f c src s0) as H;
      destruct (triggerTileClick f c src s0) as [s1 ev]
  end.
  exact H.
Qed.

Lemma pointerStage_view f l g s :
  modeView (fst (fst (pointerStage tilesCaptured f l g s))) = modeView s.
Proof.
  unfold pointerStage.
  destruct (_ && _); [|reflexivity].
  match goal with
  | |- context [swipeStage ?t ?f ?l ?s0] =>
      pose proof (swipeStage_view f l s0) as H1;
      destruct (swipeStage t f l s0) as [[s1 ev1] r]
  end.
  pose proof (dwellStage_view f l s1) as H2.
  destruct (dwellStage f l s1) as [s2 ev2].
  cbn [fst snd] in *. rewrite H2, H1. reflexivity.
Qed.

Lemma processHand_view f l s :
  modeView (fst (fst (processHand' f l s))) = modeView (moded f l s).
Proof.
  unfold processHand, moded, latched. cbv zeta.
  match goal with
  | |- context [dragStage' ?f ?l ?s0] =>
      pose proof (dragStage_view f l s0) as H1;
      pose proof (dragCountStage_view
                    (gestures l (scrollLatch l (zoomLatch l
                       (setCursor (stableCursor l)
                          (setVelocityMetric (clamp (velocity l * 900) 0 1)
                             s)))))) as H0;
      destruct (dragStage' f l s0) as [s1 ev1]
  end.
  match goal with
  | |- context [clickStage ?f ?l ?g ?s0] =>
      pose proof (clickStage_view f l g s0) as H2;
      destruct (clickStage f l g s0) as [s2 ev2]
  end.
  match goal with
  | |- context [pointerStage ?t ?f ?l ?g ?s0] =>
      pose proof (pointerStage_view f l g s0) as H3;
      destruct (pointerStage t f l g s0) as [[s3 ev3] r]
  end.
  cbn [fst snd] in *. rewrite H0 in H1.
  transitivity (modeView s3); [reflexivity|]. now rewrite H3, H2, H1.
Qed.

(** ** The four ways an invocation ends *)

Lemma drawHandGuide_no_hand (o : option Overlay) :
  snd (drawHandGuide o None) = false.
Proof.
  unfold drawHandGuide. destruct o as [v|]; [|reflexivity].
  destruct (_ || _); [reflexivity|]. now destruct (context2d v).
Qed.

Lemma overlayRaises_no_hand f :
  handLandmarks f = None -> overlayRaises f = false.
Proof.
  intro H. unfold overlayRaises. rewrite H. apply drawHandGuide_no_hand.
Qed.

Lemma onResults_no_hand s f :
  handLandmarks f = None ->
  onResults hypot activeTileCaptured tilesCaptured s f
  = (handLost s, [], NoHand).
Proof.
  intro H. unfold onResults.
  now rewrite (overlayRaises_no_hand f H), H.
Qed.

Lemma onResults_processed s f l :
  localsOf s f = Some l ->
  onResults hypot activeTileCaptured tilesCaptured s f
  = processHand' f l (setHandVisible true s).
Proof.
  unfold frameLocals, onResults.
  destruct (overlayRaises f); [discriminate|].
  destruct (handLandmarks f) as [lm|]; [|discriminate].
  destruct (landmark lm 8); [|discriminate].
  destruct (landmark lm 4); [|discriminate].
  destruct (landmark lm 0); [|discriminate].
  destruct (landmark lm 5); [|discriminate].
  destruct (landmark lm 17); [|discriminate].
  destruct (landmark lm 9); [|discriminate].
  intro H. injection H as <-. reflexivity.
Qed.

Lemma onResults_unprocessed s f :
  localsOf s f = None ->
  onResults hypot activeTileCaptured tilesCaptured s f
  = (handLost s, [], NoHand)
  \/ onResults hypot activeTileCaptured tilesCaptured s f = (s, [], Skipped)
  \/ onResults hypot activeTileCaptured tilesCaptured s f
     = (setHandVisible true s, [], Threw)
  \/ onResults hypot activeTileCaptured tilesCaptured s f = (s, [], Threw).
Proof.
  unfold frameLocals, onResults.
  destruct (overlayRaises f); [now right; right; right|].
  destruct (handLandmarks f) as [lm|]; [|now left].
  destruct (landmark lm 8); [|now right; left].
  destruct (landmark lm 4); [|now right; left].
  destruct (landmark lm 0); [|now right; right; left].
  destruct (landmark lm 5); [|now right; right; left].
  destruct (landmark lm 17); [|now right; right; left].
  destruct (landmark lm 9); [|now right; right; left].
  discriminate.
Qed.

Lemma step_view s f l :
  localsOf s f = Some l ->
  modeView (step s f) = modeView (moded f l (setHandVisible true s)).
Proof.
  intro H. unfold engineAfter. rewrite (onResults_processed s f l H).
  apply processHand_view.
Qed.

(** ** The latches *)

Lemma zoomLatch_cells l s :
  latchCells (zoomLatch l s) = zoomLatchCells (signalsOf l) (latchCells s).
Proof.
  unfold zoomLatch, zoomLatchCells, latchCells, signalsOf.
  destruct s. cbn -[Nat.ltb Nat.leb]. bool_vars.
  all: destruct (zoomHold l), (zoomStart l); cbn -[Nat.ltb Nat.leb].
  all: nat_tests; cbn; try reflexivity; exfalso; lia.
Qed.

Lemma scrollLatch_cells l s :
  latchCells (scrollLatch l s) = scrollLatchCells (signalsOf l) (latchCells s).
Proof.
  unfold scrollLatch, scrollLatchCells, latchCells, signalsOf.
  destruct s. cbn -[Nat.ltb Nat.leb]. bool_vars.
  all: destruct (scrollHold l), (scrollStart l); cbn -[Nat.ltb Nat.leb].
  all: nat_tests; cbn; try reflexivity; exfalso; lia.
Qed.

Lemma pinchStage_cells t l g s :
  latchCells (pinchStage t l g s) = latchCells s.
Proof. unfold pinchStage. stage_cases; reflexivity. Qed.

Lemma zoomStage_cells l g s :
  latchCells (zoomStage l g s)
  = mkLatch (if zoomGesture g then false else scrollModeRef s)
            (zoomModeRef s) (scrollFramesRef s) (zoomFramesRef s)
            (scrollReleaseFramesRef s) (zoomReleaseFramesRef s).
Proof. unfold zoomStage. stage_cases; reflexivity. Qed.

Lemma scrollStage_cells l g s :
  latchCells (scrollStage l g s)
  = mkLatch (scrollModeRef s)
            (if scrollGesture g && sigMiddleTip (signalsOf l) then false
             else zoomModeRef s)
            (scrollFramesRef s) (zoomFramesRef s)
            (scrollReleaseFramesRef s) (zoomReleaseFramesRef s).
Proof.
  unfold scrollStage, signalsOf. cbn.
  destruct (scrollGesture g), (middleTip l); cbn; try reflexivity.
  destruct (scrollAnchorRef s); reflexivity.
Qed.

Lemma latchCells_setters c v s :
  latchCells (setCursor c (setVelocityMetric v (setHandVisible true s)))
  = latchCells s.
Proof. reflexivity. Qed.

Lemma latchCells_moded f l s :
  latchCells (moded f l s) = modeCells (signalsOf l) (latchCells s).
Proof.
  unfold moded, latched, modeCells. cbv zeta.
  set (s0 := setCursor _ _).
  assert (E0 : latchCells s0 = latchCells s) by reflexivity.
  pose proof (zoomLatch_cells l s0) as E1.
  pose proof (scrollLatch_cells l (zoomLatch l s0)) as E2.
  rewrite E1, E0 in E2. clear E1 E0.
  generalize dependent (scrollLatch l (zoomLatch l s0)). intros s2 E2.
  rewrite scrollStage_cells.
  pose proof (zoomStage_cells l (gestures l s2)
                (pinchStage (now f) l (gestures l s2) s2)) as E3.
  pose proof (pinchStage_cells (now f) l (gestures l s2) s2) as E4.
  unfold latchCells in E3, E4.
  injection E4 as e1 e2 e3 e4 e5 e6.
  rewrite e1, e2, e3, e4, e5, e6 in E3.
  injection E3 as -> -> -> -> -> ->.
  rewrite <- E2. unfold gestures, branchCells, latchCells. cbn.
  reflexivity.
Qed.

Lemma start_signals_exclusive l :
  zoomStart l = true -> scrollStart l = false.
Proof.
  unfold zoomStart, scrollStart. intro H.
  apply andb_true_iff in H as [H _]. apply Qltb_true in H.
  apply andb_false_iff. right. apply Qgtb_false. lra.
Qed.

Lemma latchCells_step s f l :
  localsOf s f = Some l ->
  latchCells (step s f) = modeCells (signalsOf l) (latchCells s).
Proof.
  intro E. pose proof (step_view s f l E) as V.
  transitivity (latchCells (moded f l (setHandVisible true s))).
  - unfold modeView in V. unfold latchCells.
    injection V as -> -> -> -> -> -> _ _ _ _. reflexivity.
  - exact (latchCells_moded f l (setHandVisible true s)).
Qed.

Lemma latchCells_step_unprocessed s f :
  localsOf s f = None ->
  latchCells (step s f) = latchCells s \/ latchCells (step s f) = idleCells.
Proof.
  intro E. unfold engineAfter.
  destruct (onResults_unprocessed s f E) as [-> | [-> | [-> | ->]]];
    cbn [fst].
  - right. reflexivity.
  - left. reflexivity.
  - left. reflexivity.
  - left. reflexivity.
Qed.

Ltac cells_intro c g :=
  destruct c as [so zo sa za sr zr]; destruct g as [ss sh zs zh mt];
  unfold cellsInv; cbn -[Nat.ltb Nat.leb]; intros; subst.

Ltac cells_finish :=
  cbn -[Nat.ltb Nat.leb]; nat_tests; cbn; intuition (congruence || lia).

Lemma zoomLatchCells_mid g c :
  cellsInv c ->
  let c1 := zoomLatchCells g c in
  (scrollOn c1 = false \/ zoomOn c1 = false)
  /\ (zoomArming c1 = 0%nat
      \/ (scrollOn c1 = false /\ zoomOn c1 = false
          /\ sigZoomStart g = true))
  /\ (scrollArming c1 = 0%nat \/ scrollOn c1 = false)
  /\ (zoomOn c1 = true \/ zoomReleasing c1 = 0%nat)
  /\ (scrollOn c1 = true \/ scrollReleasing c1 = 0%nat)
  /\ (zoomArming c1 < 3 /\ scrollArming c1 < 3
      /\ zoomReleasing c1 <= 5 /\ scrollReleasing c1 <= 5)%nat.
Proof.
  cells_intro c g. unfold zoomLatchCells.
  destruct zo; [destruct zh | destruct so, zs]; cells_finish.
Qed.

Lemma scrollLatchCells_inv g c :
  (sigZoomStart g = true -> sigScrollStart g = false) ->
  (scrollOn c = false \/ zoomOn c = false) ->
  (zoomArming c = 0%nat
   \/ (scrollOn c = false /\ zoomOn c = false /\ sigZoomStart g = true)) ->
  (scrollArming c = 0%nat \/ scrollOn c = false) ->
  (zoomOn c = true \/ zoomReleasing c = 0%nat) ->
  (scrollOn c = true \/ scrollReleasing c = 0%nat) ->
  (zoomArming c < 3 /\ scrollArming c < 3
   /\ zoomReleasing c <= 5 /\ scrollReleasing c <= 5)%nat ->
  cellsInv (scrollLatchCells g c).
Proof.
  cells_intro c g. unfold scrollLatchCells.
  destruct so; [destruct sh | destruct zo, ss]; cells_finish.
Qed.

Lemma branchCells_inv g c : cellsInv c -> cellsInv (branchCells g c).
Proof.
  cells_intro c g. unfold branchCells. destruct so, zo, mt; cells_finish.
Qed.

Lemma modeCells_inv g c :
  (sigZoomStart g = true -> sigScrollStart g = false) ->
  cellsInv c -> cellsInv (modeCells g c).
Proof.
  intros Hx H. unfold modeCells. apply branchCells_inv.
  pose proof (zoomLatchCells_mid g c H) as M. cbv zeta in M.
  destruct M as (M1 & M2 & M3 & M4 & M5 & M6).
  now apply scrollLatchCells_inv.
Qed.

Lemma idleCells_inv : cellsInv idleCells.
Proof. unfold cellsInv. cbn. intuition lia. Qed.

Lemma step_latchInv s f : latchInv s -> latchInv (step s f).
Proof.
  unfold latchInv. intro H. destruct (localsOf s f) as [l|] eqn:E.
  - rewrite (latchCells_step s f l E). apply modeCells_inv; [|exact H].
    apply start_signals_exclusive.
  - destruct (latchCells_step_unprocessed s f E) as [-> | ->];
      [exact H | apply idleCells_inv].
Qed.

Lemma run_latchInv fs : forall s, latchInv s -> latchInv (runFrames s fs).
Proof.
  induction fs as [|f rest IH]; intros s H; cbn.
  - exact H.
  - apply IH, step_latchInv, H.
Qed.

Lemma initialEngine_latchInv : latchInv initialEngine.
Proof. apply idleCells_inv. Qed.

(** C1.  After any sequence of frames fed to the callback from the initial
    cells, the scroll lock and the zoom lock are not both on; moreover a
    lock is arming (its frame counter is non-zero) only while the other
    lock is off. *)
Theorem mode_locks_exclusive (fs : list Frame) :
  let s := runFrames initialEngine fs in
  scrollModeRef s && zoomModeRef s = false
  /\ (zoomFramesRef s = 0%nat \/ scrollModeRef s = false)
  /\ (scrollFramesRef s = 0%nat \/ zoomModeRef s = false).
Proof.
  intro s.
  destruct (run_latchInv fs _ initialEngine_latchInv)
    as (H1 & H2 & H3 & _).
  fold s in H1, H2, H3. cbn in H1, H2, H3.
  repeat split.
  - destruct H1 as [-> | ->]; [reflexivity | apply andb_false_r].
  - tauto.
  - tauto.
Qed.

(** ** Arming *)

Lemma modeCells_arming g c n :
  scrollOn c = false -> zoomOn c = false ->
  (zoomArming c <= n)%nat -> (scrollArming c <= n)%nat -> (n < 2)%nat ->
  let c1 := modeCells g c in
  scrollOn c1 = false /\ zoomOn c1 = false
  /\ (zoomArming c1 <= S n)%nat /\ (scrollArming c1 <= S n)%nat.
Proof.
  cells_intro c g.
  unfold modeCells, branchCells, scrollLatchCells, zoomLatchCells.
  destruct zs, ss; cells_finish.
Qed.

Lemma modeCells_scroll_arms g c :
  (sigZoomStart g = true -> sigScrollStart g = false) ->
  scrollOn c = false -> zoomOn c = false -> zoomArming c = 0%nat ->
  sigScrollStart g = true ->
  let c1 := modeCells g c in
  zoomArming c1 = 0%nat
  /\ if Nat.leb 3 (scrollArming c + 1)
     then scrollOn c1 = true /\ zoomOn c1 = false
     else scrollOn c1 = false /\ zoomOn c1 = false
          /\ scrollArming c1 = (scrollArming c + 1)%nat.
Proof.
  cells_intro c g.
  unfold modeCells, branchCells, scrollLatchCells, zoomLatchCells.
  destruct zs, mt; cells_finish.
Qed.

Lemma modeCells_zoom_arms g c :
  (sigZoomStart g = true -> sigScrollStart g = false) ->
  scrollOn c = false -> zoomOn c = false -> scrollArming c = 0%nat ->
  sigZoomStart g = true ->
  let c1 := modeCells g c in
  scrollArming c1 = 0%nat
  /\ if Nat.leb 3 (zoomArming c + 1)
     then zoomOn c1 = true /\ scrollOn c1 = false
     else scrollOn c1 = false /\ zoomOn c1 = false
          /\ zoomArming c1 = (zoomArming c + 1)%nat.
Proof.
  cells_intro c g.
  unfold modeCells, branchCells, scrollLatchCells, zoomLatchCells.
  destruct ss, mt; cells_finish.
Qed.

Lemma step_arming s f n :
  scrollModeRef s = false -> zoomModeRef s = false ->
  (zoomFramesRef s <= n)%nat -> (scrollFramesRef s <= n)%nat -> (n < 2)%nat ->
  scrollModeRef (step s f) = false /\ zoomModeRef (step s f) = false
  /\ (zoomFramesRef (step s f) <= S n)%nat
  /\ (scrollFramesRef (step s f) <= S n)%nat.
Proof.
  intros Hs Hz Hzf Hsf Hn.
  change (let c1 := latchCells (step s f) in
          scrollOn c1 = false /\ zoomOn c1 = false
          /\ (zoomArming c1 <= S n)%nat /\ (scrollArming c1 <= S n)%nat).
  destruct (localsOf s f) as [l|] eqn:E.
  - rewrite (latchCells_step s f l E). now apply modeCells_arming.
  - destruct (latchCells_step_unprocessed s f E) as [-> | ->]; cbn;
      intuition lia.
Qed.

Lemma step_scroll_arms s f l k :
  localsOf s f = Some l ->
  scrollModeRef s = false -> zoomModeRef s = false ->
  zoomFramesRef s = 0%nat -> scrollFramesRef s = k ->
  scrollStart l = true ->
  zoomFramesRef (step s f) = 0%nat
  /\ if Nat.leb 3 (k + 1)
     then scrollModeRef (step s f) = true /\ zoomModeRef (step s f) = false
     else scrollModeRef (step s f) = false /\ zoomModeRef (step s f) = false
          /\ scrollFramesRef (step s f) = (k + 1)%nat.
Proof.
  intros E Hs Hz Hzf Hsf Hst. subst k.
  pose proof (modeCells_scroll_arms (signalsOf l) (latchCells s)
                (start_signals_exclusive l) Hs Hz Hzf Hst) as M.
  cbv zeta in M. rewrite <- (latchCells_step s f l E) in M. exact M.
Qed.

Lemma step_zoom_arms s f l k :
  localsOf s f = Some l ->
  scrollModeRef s = false -> zoomModeRef s = false ->
  scrollFramesRef s = 0%nat -> zoomFramesRef s = k ->
  zoomStart l = true ->
  scrollFramesRef (step s f) = 0%nat
  /\ if Nat.leb 3 (k + 1)
     then zoomModeRef (step s f) = true /\ scrollModeRef (step s f) = false
     else scrollModeRef (step s f) = false /\ zoomModeRef (step s f) = false
          /\ zoomFramesRef (step s f) = (k + 1)%nat.
Proof.
  intros E Hs Hz Hsf Hzf Hst. subst k.
  pose proof (modeCells_zoom_arms (signalsOf l) (latchCells s)
                (start_signals_exclusive l) Hs Hz Hsf Hst) as M.
  cbv zeta in M. rewrite <- (latchCells_step s f l E) in M. exact M.
Qed.

(** C2.  A frame without a hand clears both locks, the pinch flag, every
    frame counter, the drag target, both anchors, the dwell target and the
    previous point, shows the mode [idle] and calls no collaborator.  From
    the cells it leaves, no lock is on after one or two further frames
    whatever they hold, and a lock is on after three consecutive frames
    that carry its start signal: the mode re-arms from its count of three
    and does not resume. *)
Theorem no_hand_resets (s : Engine) (f : Frame) :
  handLandmarks f = None ->
  let s' := step s f in
  (scrollModeRef s' = false /\ zoomModeRef s' = false
   /\ pinchStateRef s' = false /\ pinchFramesRef s' = 0%nat
   /\ scrollFramesRef s' = 0%nat /\ zoomFramesRef s' = 0%nat
   /\ scrollReleaseFramesRef s' = 0%nat /\ zoomReleaseFramesRef s' = 0%nat
   /\ dragFramesRef s' = 0%nat /\ dragTargetRef s' = None
   /\ scrollAnchorRef s' = None /\ zoomStateRef s' = None
   /\ dwellRef s' = mkDwell None 0 /\ previousPointRef s' = None
   /\ gestureMode s' = idle /\ dwellProgress s' = 0
   /\ emitted s f = [] /\ ending s f = NoHand)
  /\ (forall f1 f2,
        scrollModeRef (runFrames s' [f1]) = false
        /\ zoomModeRef (runFrames s' [f1]) = false
        /\ scrollModeRef (runFrames s' [f1; f2]) = false
        /\ zoomModeRef (runFrames s' [f1; f2]) = false)
  /\ (forall f1 f2 f3 l1 l2 l3,
        localsOf s' f1 = Some l1 ->
        localsOf (runFrames s' [f1]) f2 = Some l2 ->
        localsOf (runFrames s' [f1; f2]) f3 = Some l3 ->
        (scrollStart l1 = true -> scrollStart l2 = true ->
         scrollStart l3 = true ->
         scrollModeRef (runFrames s' [f1; f2; f3]) = true)
        /\ (zoomStart l1 = true -> zoomStart l2 = true ->
            zoomStart l3 = true ->
            zoomModeRef (runFrames s' [f1; f2; f3]) = true)).
Proof.
  intros H s'.
  assert (E : s' = handLost s).
  { unfold s', engineAfter. now rewrite (onResults_no_hand s f H). }
  split; [|split].
  - unfold eventsOf, outcomeOf. rewrite (onResults_no_hand s f H), E. cbn.
    repeat split.
  - intros f1 f2. cbn [run].
    assert (A0 : scrollModeRef s' = false /\ zoomModeRef s' = false
                 /\ (zoomFramesRef s' <= 0)%nat
                 /\ (scrollFramesRef s' <= 0)%nat)
      by (rewrite E; cbn; auto).
    destruct A0 as (a & b & c & d).
    destruct (step_arming s' f1 0 a b c d) as (a1 & b1 & c1 & d1); [lia|].
    destruct (step_arming (step s' f1) f2 1 a1 b1 c1 d1) as (a2 & b2 & _);
      [lia|].
    auto.
  - intros f1 f2 f3 l1 l2 l3 E1 E2 E3. cbn [run] in *.
    assert (A0 : scrollModeRef s' = false /\ zoomModeRef s' = false
                 /\ zoomFramesRef s' = 0%nat /\ scrollFramesRef s' = 0%nat)
      by (rewrite E; cbn; auto).
    destruct A0 as (a & b & c & d).
    split; intros S1 S2 S3.
    + destruct (step_scroll_arms s' f1 l1 0 E1 a b c d S1)
        as (c1 & a1 & b1 & d1).
      destruct (step_scroll_arms _ f2 l2 1 E2 a1 b1 c1 d1 S2)
        as (c2 & a2 & b2 & d2).
      destruct (step_scroll_arms _ f3 l3 2 E3 a2 b2 c2 d2 S3)
        as (_ & a3 & _).
      exact a3.
    + destruct (step_zoom_arms s' f1 l1 0 E1 a b d c S1)
        as (d1 & a1 & b1 & c1).
      destruct (step_zoom_arms _ f2 l2 1 E2 a1 b1 d1 c1 S2)
        as (d2 & a2 & b2 & c2).
      destruct (step_zoom_arms _ f3 l3 2 E3 a2 b2 d2 c2 S3)
        as (_ & a3 & _).
      exact a3.
Qed.


(** ** Releasing *)

Lemma modeCells_zoom_release g c :
  zoomOn c = true -> scrollOn c = false ->
  let c1 := modeCells g c in
  if sigZoomHold g then zoomOn c1 = true /\ zoomReleasing c1 = 0%nat
  else if Nat.ltb 5 (zoomReleasing c + 1)
       then zoomOn c1 = false /\ zoomReleasing c1 = 0%nat
       else zoomOn c1 = true
            /\ zoomReleasing c1 = (zoomReleasing c + 1)%nat.
Proof.
  cells_intro c g.
  unfold modeCells, branchCells, scrollLatchCells, zoomLatchCells.
  destruct zh, ss, mt; cells_finish.
Qed.

Lemma modeCells_scroll_release g c :
  scrollOn c = true -> zoomOn c = false ->
  let c1 := modeCells g c in
  if sigScrollHold g then scrollOn c1 = true /\ scrollReleasing c1 = 0%nat
  else if Nat.ltb 5 (scrollReleasing c + 1)
       then scrollOn c1 = false /\ scrollReleasing c1 = 0%nat
       else scrollOn c1 = true
            /\ scrollReleasing c1 = (scrollReleasing c + 1)%nat.
Proof.
  cells_intro c g.
  unfold modeCells, branchCells, scrollLatchCells, zoomLatchCells.
  destruct sh, zs, mt; cells_finish.
Qed.

Lemma latchInv_scroll_off s :
  latchInv s -> zoomModeRef s = true -> scrollModeRef s = false.
Proof.
  intros (H & _) Hz. cbn in H. destruct H as [H | H]; congruence.
Qed.

Lemma latchInv_zoom_off s :
  latchInv s -> scrollModeRef s = true -> zoomModeRef s = false.
Proof.
  intros (H & _) Hs. cbn in H. destruct H as [H | H]; congruence.
Qed.

Lemma step_zoom_release s f l :
  localsOf s f = Some l -> latchInv s -> zoomModeRef s = true ->
  if zoomHold l
  then zoomModeRef (step s f) = true
       /\ zoomReleaseFramesRef (step s f) = 0%nat
  else if Nat.ltb 5 (zoomReleaseFramesRef s + 1)
       then zoomModeRef (step s f) = false
            /\ zoomReleaseFramesRef (step s f) = 0%nat
       else zoomModeRef (step s f) = true
            /\ zoomReleaseFramesRef (step s f)
               = (zoomReleaseFramesRef s + 1)%nat.
Proof.
  intros E I Hz.
  pose proof (modeCells_zoom_release (signalsOf l) (latchCells s) Hz
                (latchInv_scroll_off s I Hz)) as M.
  cbv zeta in M. rewrite <- (latchCells_step s f l E) in M. exact M.
Qed.

Lemma step_scroll_release s f l :
  localsOf s f = Some l -> latchInv s -> scrollModeRef s = true ->
  if scrollHold l
  then scrollModeRef (step s f) = true
       /\ scrollReleaseFramesRef (step s f) = 0%nat
  else if Nat.ltb 5 (scrollReleaseFramesRef s + 1)
       then scrollModeRef (step s f) = false
            /\ scrollReleaseFramesRef (step s f) = 0%nat
       else scrollModeRef (step s f) = true
            /\ scrollReleaseFramesRef (step s f)
               = (scrollReleaseFramesRef s + 1)%nat.
Proof.
  intros E I Hs.
  pose proof (modeCells_scroll_release (signalsOf l) (latchCells s) Hs
                (latchInv_zoom_off s I Hs)) as M.
  cbv zeta in M. rewrite <- (latchCells_step s f l E) in M. exact M.
Qed.

(** A lock that is on stays on through hold-false frames as long as the
    release counter does not pass 5. *)
Lemma zoom_survives fs : forall s,
  latchInv s -> zoomModeRef s = true ->
  Forall (zoomHeld hypot false) fs ->
  (zoomReleaseFramesRef s + List.length fs <= 5)%nat ->
  latchInv (runFrames s fs) /\ zoomModeRef (runFrames s fs) = true
  /\ zoomReleaseFramesRef (runFrames s fs)
     = (zoomReleaseFramesRef s + List.length fs)%nat.
Proof.
  induction fs as [|f rest IH]; intros s I Hz Hall Hlen; cbn [run].
  - cbn [List.length]. rewrite Nat.add_0_r. auto.
  - inversion Hall as [|? ? Hf Hrest]; subst. cbn [List.length] in *.
    destruct (Hf s) as (l & E & Hh).
    pose proof (step_zoom_release s f l E I Hz) as R. rewrite Hh in R.
    destruct (Nat.ltb_spec 5 (zoomReleaseFramesRef s + 1)); [lia|].
    destruct R as (R1 & R2).
    destruct (IH (step s f) (step_latchInv s f I) R1 Hrest) as (A & B & C);
      [lia|].
    split; [exact A | split; [exact B | lia]].
Qed.

Lemma scroll_survives fs : forall s,
  latchInv s -> scrollModeRef s = true ->
  Forall (scrollHeld hypot false) fs ->
  (scrollReleaseFramesRef s + List.length fs <= 5)%nat ->
  latchInv (runFrames s fs) /\ scrollModeRef (runFrames s fs) = true
  /\ scrollReleaseFramesRef (runFrames s fs)
     = (scrollReleaseFramesRef s + List.length fs)%nat.
Proof.
  induction fs as [|f rest IH]; intros s I Hz Hall Hlen; cbn [run].
  - cbn [List.length]. rewrite Nat.add_0_r. auto.
  - inversion Hall as [|? ? Hf Hrest]; subst. cbn [List.length] in *.
    destruct (Hf s) as (l & E & Hh).
    pose proof (step_scroll_release s f l E I Hz) as R. rewrite Hh in R.
    destruct (Nat.ltb_spec 5 (scrollReleaseFramesRef s + 1)); [lia|].
    destruct R as (R1 & R2).
    destruct (IH (step s f) (step_latchInv s f I) R1 Hrest) as (A & B & C);
      [lia|].
    split; [exact A | split; [exact B | lia]].
Qed.

Lemma run_app fs1 : forall s fs2,
  runFrames s (fs1 ++ fs2) = runFrames (runFrames s fs1) fs2.
Proof.
  induction fs1 as [|f rest IH]; intros s fs2; cbn; [reflexivity|].
  apply IH.
Qed.

(** C4 (as amended).  In any cells reached from the initial ones in which
    the zoom lock (resp. the scroll lock) is on: a frame whose hold signal
    is true keeps the lock on and sets the release counter to 0; a frame
    whose hold signal is false turns the lock off exactly when the counter
    already stands at 5, and otherwise adds one to it; hence from a counter
    of 0 the lock is still on after each of five consecutive hold-false
    frames and goes off on the sixth. *)
Theorem lock_releases_on_sixth_frame (fs0 : list Frame) :
  let s := runFrames initialEngine fs0 in
  (zoomModeRef s = true ->
   (forall f l, localsOf s f = Some l -> zoomHold l = true ->
      zoomModeRef (step s f) = true
      /\ zoomReleaseFramesRef (step s f) = 0%nat)
   /\ (forall f l, localsOf s f = Some l -> zoomHold l = false ->
       (zoomModeRef (step s f) = false <-> zoomReleaseFramesRef s = 5%nat)
       /\ (zoomModeRef (step s f) = true ->
           zoomReleaseFramesRef (step s f)
           = (zoomReleaseFramesRef s + 1)%nat))
   /\ (zoomReleaseFramesRef s = 0%nat ->
       forall fs f6,
         Forall (zoomHeld hypot false) fs -> List.length fs = 5%nat ->
         zoomHeld hypot false f6 ->
         (forall k, zoomModeRef (runFrames s (firstn k fs)) = true)
         /\ zoomModeRef (runFrames s (fs ++ [f6])) = false))
  /\ (scrollModeRef s = true ->
      (forall f l, localsOf s f = Some l -> scrollHold l = true ->
         scrollModeRef (step s f) = true
         /\ scrollReleaseFramesRef (step s f) = 0%nat)
      /\ (forall f l, localsOf s f = Some l -> scrollHold l = false ->
          (scrollModeRef (step s f) = false
           <-> scrollReleaseFramesRef s = 5%nat)
          /\ (scrollModeRef (step s f) = true ->
              scrollReleaseFramesRef (step s f)
              = (scrollReleaseFramesRef s + 1)%nat))
      /\ (scrollReleaseFramesRef s = 0%nat ->
          forall fs f6,
            Forall (scrollHeld hypot false) fs -> List.length fs = 5%nat ->
            scrollHeld hypot false f6 ->
            (forall k, scrollModeRef (runFrames s (firstn k fs)) = true)
            /\ scrollModeRef (runFrames s (fs ++ [f6])) = false)).
Proof.
  intro s.
  assert (I : latchInv s) by apply run_latchInv, initialEngine_latchInv.
  assert (B : (zoomReleaseFramesRef s <= 5
               /\ scrollReleaseFramesRef s <= 5)%nat).
  { destruct I as (_ & _ & _ & _ & _ & _ & _ & b1 & b2). cbn in b1, b2.
    split; assumption. }
  destruct B as (Bz & Bs).
  split; intro On; (split; [|split]).
  - intros f l E Hh.
    pose proof (step_zoom_release s f l E I On) as R. now rewrite Hh in R.
  - intros f l E Hh.
    pose proof (step_zoom_release s f l E I On) as R. rewrite Hh in R.
    destruct (Nat.ltb_spec 5 (zoomReleaseFramesRef s + 1));
      destruct R as (R1 & R2); rewrite R1; split;
      try split; intros; try congruence; lia.
  - intros Z fs f6 Hall Hlen H6. split.
    + intro k.
      apply (zoom_survives (firstn k fs) s I On).
      * rewrite <- (firstn_skipn k fs) in Hall.
        apply Forall_app in Hall. apply Hall.
      * rewrite Z, length_firstn. lia.
    + rewrite run_app. cbn [run].
      destruct (zoom_survives fs s I On Hall) as (I5 & On5 & C5); [lia|].
      destruct (H6 (runFrames s fs)) as (l & E & Hh).
      pose proof (step_zoom_release _ f6 l E I5 On5) as R.
      rewrite Hh, C5, Z, Hlen in R. cbn in R. tauto.
  - intros f l E Hh.
    pose proof (step_scroll_release s f l E I On) as R. now rewrite Hh in R.
  - intros f l E Hh.
    pose proof (step_scroll_release s f l E I On) as R. rewrite Hh in R.
    destruct (Nat.ltb_spec 5 (scrollReleaseFramesRef s + 1));
      destruct R as (R1 & R2); rewrite R1; split;
      try split; intros; try congruence; lia.
  - intros Z fs f6 Hall Hlen H6. split.
    + intro k.
      apply (scroll_survives (firstn k fs) s I On).
      * rewrite <- (firstn_skipn k fs) in Hall.
        apply Forall_app in Hall. apply Hall.
      * rewrite Z, length_firstn. lia.
    + rewrite run_app. cbn [run].
      destruct (scroll_survives fs s I On Hall) as (I5 & On5 & C5); [lia|].
      destruct (H6 (runFrames s fs)) as (l & E & Hh).
      pose proof (step_scroll_release _ f6 l E I5 On5) as R.
      rewrite Hh, C5, Z, Hlen in R. cbn in R. tauto.
Qed.

(** ** Frames with missing landmarks *)

Lemma frameLocals_inv s f l :
  localsOf s f = Some l ->
  exists lm i t w ib pb mb,
    handLandmarks f = Some lm
    /\ landmark lm 8 = Some i /\ landmark lm 4 = Some t
    /\ landmark lm 0 = Some w /\ landmark lm 5 = Some ib
    /\ landmark lm 17 = Some pb /\ landmark lm 9 = Some mb
    /\ l = locals hypot s (now f) i t (landmark lm 12) w ib pb mb.
Proof.
  unfold frameLocals.
  destruct (overlayRaises f); [discriminate|].
  destruct (handLandmarks f) as [lm|]; [|discriminate].
  destruct (landmark lm 8) as [i|] eqn:E8; [|discriminate].
  destruct (landmark lm 4) as [t|] eqn:E4; [|discriminate].
  destruct (landmark lm 0) as [w|] eqn:E0; [|discriminate].
  destruct (landmark lm 5) as [ib|] eqn:E5; [|discriminate].
  destruct (landmark lm 17) as [pb|] eqn:E17; [|discriminate].
  destruct (landmark lm 9) as [mb|] eqn:E9; [|discriminate].
  intro H. injection H as <-.
  exists lm, i, t, w, ib, pb, mb. repeat split; assumption.
Qed.

(** C9 (as amended).  On a frame that reports a hand and on which
    [drawHandGuide] returns: without its index tip or without its thumb
    tip the frame is skipped, the callback returns at once, the cells are
    the ones it found and no collaborator is called; a frame that lacks
    only its middle tip is processed, with both distances to the middle
    tip taken as 1. *)
Theorem missing_tip_frames (s : Engine) (f : Frame)
    (lm : list (option CursorPoint)) :
  handLandmarks f = Some lm ->
  overlayRaises f = false ->
  (landmark lm 8 = None \/ landmark lm 4 = None ->
   onResults hypot activeTileCaptured tilesCaptured s f = (s, [], Skipped))
  /\ (landmark lm 12 = None ->
      forall l, localsOf s f = Some l ->
        middleTip l = None
        /\ middleThumbDistance l = 1 /\ normalizedIndexMiddle l = 1
        /\ onResults hypot activeTileCaptured tilesCaptured s f
           = processHand' f l (setHandVisible true s)
        /\ previousPointRef (step s f)
           = Some (mkTimed (x (stableCursor l)) (y (stableCursor l)) (now f))).
Proof.
  intros H R. split.
  - intros [E | E]; unfold onResults; rewrite R, H, ?E;
      [reflexivity | now destruct (landmark lm 8)].
  - intros E12 l El.
    destruct (frameLocals_inv s f l El)
      as (lm' & i & t & w & ib & pb & mb & H' & _ & _ & _ & _ & _ & _ & ->).
    assert (lm' = lm) by congruence. subst lm'. rewrite E12 in El |- *.
    cbn [middleTip middleThumbDistance normalizedIndexMiddle locals].
    repeat split.
    + exact (onResults_processed s f _ El).
    + unfold engineAfter. rewrite (onResults_processed s f _ El).
      unfold processHand. cbv zeta.
      repeat match goal with
      | |- context [let '(_, _) := ?p in _] => destruct p
      end.
      reflexivity.
Qed.

(** ** Cells the mode stages leave alone *)

Lemma zoomLatch_rest l s : restView (zoomLatch l s) = restView s.
Proof. unfold zoomLatch. stage_cases; reflexivity. Qed.

Lemma scrollLatch_rest l s : restView (scrollLatch l s) = restView s.
Proof. unfold scrollLatch. stage_cases; reflexivity. Qed.

Lemma pinchStage_rest t l g s : restView (pinchStage t l g s) = restView s.
Proof. unfold pinchStage. stage_cases; reflexivity. Qed.

Lemma zoomStage_rest l g s : restView (zoomStage l g s) = restView s.
Proof. unfold zoomStage. stage_cases; reflexivity. Qed.

Lemma scrollStage_rest l g s : restView (scrollStage l g s) = restView s.
Proof.
  unfold scrollStage.
  destruct (scrollGesture g), (middleTip l); try reflexivity.
  cbn. destruct (scrollAnchorRef s); reflexivity.
Qed.

Lemma moded_rest f l s :
  restView (moded f l s)
  = restView (setCursor (stableCursor l)
                (setVelocityMetric (clamp (velocity l * 900) 0 1) s)).
Proof.
  unfold moded, latched. cbv zeta.
  now rewrite scrollStage_rest, zoomStage_rest, pinchStage_rest,
    scrollLatch_rest, zoomLatch_rest.
Qed.

Lemma moded_cursor f l s : cursor (moded f l s) = stableCursor l.
Proof.
  pose proof (moded_rest f l s) as R. unfold restView in R.
  injection R as _ _ _ _ _ _ _ _ R _ _ _ _. exact R.
Qed.

Lemma step_cursor s f l :
  localsOf s f = Some l -> cursor (step s f) = stableCursor l.
Proof.
  intro E. pose proof (step_view s f l E) as V. unfold modeView in V.
  injection V as _ _ _ _ _ _ _ _ _ V. rewrite V. apply moded_cursor.
Qed.

Lemma processHand_previousPoint f l s :
  previousPointRef (fst (fst (processHand' f l s)))
  = Some (mkTimed (x (stableCursor l)) (y (stableCursor l)) (now f)).
Proof.
  unfold processHand. cbv zeta.
  repeat match goal with
  | |- context [let '(_, _) := ?p in _] => destruct p
  end.
  reflexivity.
Qed.

Lemma step_previousPoint s f l :
  localsOf s f = Some l ->
  previousPointRef (step s f)
  = Some (mkTimed (x (stableCursor l)) (y (stableCursor l)) (now f)).
Proof.
  intro E. unfold engineAfter. rewrite (onResults_processed s f l E).
  apply processHand_previousPoint.
Qed.

(** ** The cursor *)

Lemma clamp_unit v : 0 <= clamp v 0 1 <= 1.
Proof. split; [apply clamp_lower; lra | apply clamp_upper]. Qed.

Lemma smooth_bounds v : 0.22 <= clamp (0.22 + v * 1.8) 0.22 0.56 <= 0.56.
Proof. split; [apply clamp_lower; lra | apply clamp_upper]. Qed.

Lemma blend_unit p n a :
  0 <= p <= 1 -> 0 <= n <= 1 -> 0.22 <= a <= 0.56 ->
  0 <= p * (1 - a) + n * a <= 1.
Proof. intros. split; nra. Qed.

Lemma locals_cursor s f l :
  localsOf s f = Some l ->
  nextCursor l
  = mkPoint (clamp (1 - x (indexTip l)) 0 1) (clamp (y (indexTip l)) 0 1)
  /\ inUnitSquare (nextCursor l)
  /\ smooth l = clamp (0.22 + velocity l * 1.8) 0.22 0.56
  /\ 0.22 <= smooth l <= 0.56
  /\ previousPoint l = previousPointRef s
  /\ stableCursor l
     = match previousPointRef s with
       | Some p =>
           mkPoint (px p * (1 - smooth l) + x (nextCursor l) * smooth l)
                   (py p * (1 - smooth l) + y (nextCursor l) * smooth l)
       | None => nextCursor l
       end
  /\ (prevInUnit s -> inUnitSquare (stableCursor l)).
Proof.
  intro E.
  destruct (frameLocals_inv s f l E)
    as (lm & i & t & w & ib & pb & mb & _ & _ & _ & _ & _ & _ & _ & ->).
  unfold inUnitSquare, prevInUnit. cbn.
  split; [reflexivity|].
  split; [split; apply clamp_unit|].
  split; [reflexivity|]. split; [apply smooth_bounds|].
  split; [reflexivity|]. split; [reflexivity|].
  destruct (previousPointRef s) as [p|]; cbn.
  - intros [Hx Hy].
    split; apply blend_unit; auto using clamp_unit, smooth_bounds.
  - intros _. split; apply clamp_unit.
Qed.

Lemma step_cursorInv s f :
  inUnitSquare (cursor s) /\ prevInUnit s ->
  inUnitSquare (cursor (step s f)) /\ prevInUnit (step s f).
Proof.
  intros [Hc Hp]. destruct (localsOf s f) as [l|] eqn:E.
  - destruct (locals_cursor s f l E) as (_ & _ & _ & _ & _ & _ & Hs).
    specialize (Hs Hp). unfold prevInUnit.
    rewrite (step_cursor s f l E), (step_previousPoint s f l E).
    split; [exact Hs | exact Hs].
  - unfold engineAfter.
    destruct (onResults_unprocessed s f E) as [-> | [-> | [-> | ->]]];
      cbn [fst].
    + split; [exact Hc | exact I].
    + split; assumption.
    + split; assumption.
    + split; assumption.
Qed.

Lemma run_cursorInv fs : forall s,
  inUnitSquare (cursor s) /\ prevInUnit s ->
  inUnitSquare (cursor (runFrames s fs)) /\ prevInUnit (runFrames s fs).
Proof.
  induction fs as [|f rest IH]; intros s H; cbn [run].
  - exact H.
  - apply IH, step_cursorInv, H.
Qed.

(** C7.  In any cells reached from the initial ones the cursor lies in the
    unit square, and a further frame whose landmarks can be read emits a
    cursor in the unit square: the mirrored index tip clamped to [0,1] in
    each coordinate when there is no previous point, and otherwise
    [previous * (1 - smooth) + raw * smooth] with
    [smooth = clamp(0.22 + velocity * 1.8, 0.22, 0.56)]. *)
Theorem cursor_in_unit_square (fs : list Frame) :
  let s := runFrames initialEngine fs in
  inUnitSquare (cursor s)
  /\ forall f l,
       localsOf s f = Some l ->
       cursor (step s f) = stableCursor l
       /\ nextCursor l
          = mkPoint (clamp (1 - x (indexTip l)) 0 1)
                    (clamp (y (indexTip l)) 0 1)
       /\ inUnitSquare (nextCursor l)
       /\ smooth l = clamp (0.22 + velocity l * 1.8) 0.22 0.56
       /\ stableCursor l
          = match previousPointRef s with
            | Some p =>
                mkPoint (px p * (1 - smooth l) + x (nextCursor l) * smooth l)
                        (py p * (1 - smooth l) + y (nextCursor l) * smooth l)
            | None => nextCursor l
            end
       /\ inUnitSquare (stableCursor l).
Proof.
  intro s.
  assert (H : inUnitSquare (cursor s) /\ prevInUnit s).
  { apply run_cursorInv. unfold inUnitSquare, prevInUnit. cbn.
    repeat split; lra. }
  destruct H as [Hc Hp]. split; [exact Hc|].
  intros f l E.
  destruct (locals_cursor s f l E) as (N & U & S & _ & _ & B & A).
  split; [exact (step_cursor s f l E)|].
  repeat (split; [assumption|]). exact (A Hp).
Qed.

(** ** Zoom level *)

Lemma latched_cells l s :
  latchCells (latched l s)
  = scrollLatchCells (signalsOf l) (zoomLatchCells (signalsOf l)
                                                   (latchCells s)).
Proof. unfold latched. now rewrite scrollLatch_cells, zoomLatch_cells. Qed.

Lemma latched_pinchState l s : pinchStateRef (latched l s) = pinchStateRef s.
Proof.
  unfold latched.
  pose proof (scrollLatch_rest l (zoomLatch l s)) as R.
  rewrite zoomLatch_rest in R. unfold restView in R.
  injection R as R _ _ _ _ _ _ _ _ _ _ _ _. exact R.
Qed.

Lemma gestures_same l a b :
  latchCells a = latchCells b -> pinchStateRef a = pinchStateRef b ->
  gestures l a = gestures l b.
Proof.
  unfold latchCells, gestures. intros H P.
  injection H as -> -> _ _ _ _. now rewrite P.
Qed.

Lemma frameGestures_same l a b :
  latchCells a = latchCells b -> pinchStateRef a = pinchStateRef b ->
  frameGestures l a = frameGestures l b.
Proof.
  intros H P. unfold frameGestures. apply gestures_same.
  - now rewrite !latched_cells, H.
  - now rewrite !latched_pinchState.
Qed.

Lemma zoomLatch_anchor l s :
  zoomLevel (zoomLatch l s) = zoomLevel s
  /\ (zoomModeRef (zoomLatch l s) = true ->
      zoomStateRef (zoomLatch l s) = zoomStateRef s).
Proof.
  unfold zoomLatch. destruct s. stage_cases; split; try reflexivity;
    intro; discriminate.
Qed.

Lemma scrollLatch_anchor l s :
  zoomLevel (scrollLatch l s) = zoomLevel s
  /\ zoomStateRef (scrollLatch l s) = zoomStateRef s
  /\ zoomModeRef (scrollLatch l s) = zoomModeRef s.
Proof. unfold scrollLatch. destruct s. stage_cases; repeat split. Qed.

Lemma pinchStage_anchor t l g s :
  zoomLevel (pinchStage t l g s) = zoomLevel s
  /\ zoomStateRef (pinchStage t l g s) = zoomStateRef s.
Proof. unfold pinchStage. destruct s. stage_cases; repeat split. Qed.

Lemma scrollStage_zoomLevel l g s :
  zoomLevel (scrollStage l g s) = zoomLevel s.
Proof. unfold scrollStage. destruct s. stage_cases; reflexivity. Qed.

Lemma zoomStage_zoomLevel l g s base :
  zoomGesture g = true -> zoomStateRef s = Some base ->
  zoomLevel (zoomStage l g s)
  = if Qgtb (Qabs (middleThumbDistance l - lastDistance base)) 0.0012
    then clamp (zoomLevel s
                + (middleThumbDistance l - lastDistance base) * 3.6)
               0.45 2.6
    else zoomLevel s.
Proof.
  intros Hg Hb. unfold zoomStage. rewrite Hg. destruct s. cbn in *.
  rewrite Hb. destruct (Qgtb _ _); reflexivity.
Qed.

Lemma moded_zoomLevel f l s base :
  zoomGesture (frameGestures l s) = true -> zoomStateRef s = Some base ->
  zoomLevel (moded f l s)
  = if Qgtb (Qabs (middleThumbDistance l - lastDistance base)) 0.0012
    then clamp (zoomLevel s
                + (middleThumbDistance l - lastDistance base) * 3.6)
               0.45 2.6
    else zoomLevel s.
Proof.
  intros Hg Hb. unfold moded, latched. cbv zeta.
  set (s0 := setCursor _ _).
  assert (G : zoomGesture (gestures l (scrollLatch l (zoomLatch l s0)))
              = true).
  { rewrite <- Hg. f_equal.
    apply (frameGestures_same l s0 s); reflexivity. }
  destruct (zoomLatch_anchor l s0) as (A1 & A2).
  destruct (scrollLatch_anchor l (zoomLatch l s0)) as (B1 & B2 & B3).
  assert (Z : zoomModeRef (scrollLatch l (zoomLatch l s0)) = true)
    by exact G.
  rewrite B3 in Z. specialize (A2 Z).
  set (s2 := scrollLatch l (zoomLatch l s0)) in *. clearbody s2.
  rewrite scrollStage_zoomLevel.
  destruct (pinchStage_anchor (now f) l (gestures l s2) s2) as (C1 & C2).
  assert (Hb0 : zoomStateRef s0 = Some base) by exact Hb.
  rewrite (zoomStage_zoomLevel l _ _ base G); [|congruence].
  rewrite C1, B1, A1. reflexivity.
Qed.

(** C3 (as amended).  On a frame on which the zoom lock is on and an
    anchor exists, with [delta] the middle-thumb distance minus the
    anchor: when [|delta| > 0.0012] the zoom level becomes
    [clamp(level + delta * 3.6, 0.45, 2.6)] (the product [delta * 3.6] is
    added to the level, the level is not multiplied), and when
    [|delta| <= 0.0012] the level is unchanged. *)
Theorem zoom_level_update (s : Engine) (f : Frame) (l : Locals)
    (base : ZoomAnchor) :
  localsOf s f = Some l ->
  zoomGesture (frameGestures l s) = true ->
  zoomStateRef s = Some base ->
  let delta := middleThumbDistance l - lastDistance base in
  (0.0012 < Qabs delta ->
   zoomLevel (step s f) = clamp (zoomLevel s + delta * 3.6) 0.45 2.6
   /\ 0.45 <= zoomLevel (step s f) <= 2.6)
  /\ (Qabs delta <= 0.0012 -> zoomLevel (step s f) = zoomLevel s).
Proof.
  intros E Hg Hb delta.
  pose proof (step_view s f l E) as V. unfold modeView in V.
  injection V as _ _ _ _ _ _ _ _ V _.
  rewrite V.
  rewrite (frameGestures_same l s (setHandVisible true s)) in Hg
    by reflexivity.
  rewrite (moded_zoomLevel f l (setHandVisible true s) base Hg Hb).
  fold delta. change (zoomLevel (setHandVisible true s)) with (zoomLevel s).
  split; intro H.
  - apply Qgtb_true in H. rewrite H. split; [reflexivity|].
    split; [apply clamp_lower; lra | apply clamp_upper].
  - apply Qgtb_false in H. now rewrite H.
Qed.

(** ** The stages after the mode branches *)

Lemma processHand_stages f l s :
  processHand' f l s
  = let g := frameGestures l s in
    let s2 := dragCountStage g (moded f l s) in
    let '(s3, evDrag) := dragStage' f l s2 in
    let '(s4, evClick) := clickStage f l g s3 in
    let '(s5, evPointer, raised) := pointerStage tilesCaptured f l g s4 in
    (set_pinchStateRef (nextPinch g)
       (set_previousPointRef
          (Some (mkTimed (x (stableCursor l)) (y (stableCursor l)) (now f)))
          s5),
     evDrag ++ evClick ++ evPointer,
     if raised then Threw else Completed).
Proof.
  unfold processHand, moded. cbv zeta.
  set (s0 := setCursor _ _).
  assert (Eg : gestures l (latched l s0) = frameGestures l s).
  { apply (frameGestures_same l s0 s); reflexivity. }
  unfold latched in *. rewrite Eg. reflexivity.
Qed.

Lemma nextPinch_locked l s :
  zoomGesture (frameGestures l s) || scrollGesture (frameGestures l s) = true ->
  nextPinch (frameGestures l s) = false.
Proof.
  unfold frameGestures, gestures. cbn.
  destruct (zoomModeRef _), (scrollModeRef _); cbn; intro H;
    try discriminate; now rewrite ?andb_false_r.
Qed.

Lemma dragStage_idle f l s :
  (dragFramesRef s <= 12)%nat -> dragStage' f l s = (s, []).
Proof.
  intro H. unfold dragStage.
  destruct activeTileCaptured; [|reflexivity].
  destruct (Nat.ltb_spec 12 (dragFramesRef s)); [lia|reflexivity].
Qed.

Lemma dragCountStage_released g s :
  nextPinch g = false ->
  dragCountStage g s
  = setDragging false (set_dragTargetRef None (set_dragFramesRef 0 s)).
Proof. intro H. unfold dragCountStage. now rewrite H. Qed.

Lemma clickStage_locked f l g s :
  zoomGesture g || scrollGesture g = true -> clickStage f l g s = (s, []).
Proof.
  intro H. unfold clickStage, shouldClick.
  destruct (negb (nextPinch g) && wasPinching g); [|reflexivity].
  destruct (zoomGesture g), (scrollGesture g); try discriminate;
    now rewrite ?andb_false_r.
Qed.

Lemma pointerStage_skipped f l g s :
  nextPinch g = true \/ zoomGesture g || scrollGesture g = true ->
  pointerStage tilesCaptured f l g s = (s, [], false).
Proof.
  unfold pointerStage.
  destruct (nextPinch g), (zoomGesture g), (scrollGesture g); cbn;
    intros [H | H]; try discriminate; reflexivity.
Qed.

Lemma processHand_locked f l s :
  zoomGesture (frameGestures l s) || scrollGesture (frameGestures l s) = true ->
  processHand' f l s
  = (set_pinchStateRef false
       (set_previousPointRef
          (Some (mkTimed (x (stableCursor l)) (y (stableCursor l)) (now f)))
          (setDragging false
             (set_dragTargetRef None
                (set_dragFramesRef 0 (moded f l s))))),
     [], Completed).
Proof.
  intro H. rewrite processHand_stages. cbv zeta.
  pose proof (nextPinch_locked l s H) as N.
  rewrite (dragCountStage_released _ _ N).
  rewrite dragStage_idle by (cbn; lia).
  rewrite (clickStage_locked _ _ _ _ H).
  rewrite pointerStage_skipped by (right; exact H).
  now rewrite N.
Qed.

(** ** Pinch and dwell cells through the mode branches *)

Lemma zoomLatch_pinch l s :
  pinchStartTimeRef (zoomLatch l s) = pinchStartTimeRef s
  /\ pinchFramesRef (zoomLatch l s) = pinchFramesRef s
  /\ pinching (zoomLatch l s) = pinching s
  /\ dwellProgress (zoomLatch l s) = dwellProgress s.
Proof. unfold zoomLatch. destruct s. stage_cases; repeat split. Qed.

Lemma scrollLatch_pinch l s :
  pinchStartTimeRef (scrollLatch l s) = pinchStartTimeRef s
  /\ pinchFramesRef (scrollLatch l s) = pinchFramesRef s
  /\ pinching (scrollLatch l s) = pinching s
  /\ dwellProgress (scrollLatch l s) = dwellProgress s.
Proof. unfold scrollLatch. destruct s. stage_cases; repeat split. Qed.

Lemma pinchStage_pinch t l g s :
  pinchStartTimeRef (pinchStage t l g s)
  = (if nextPinch g && negb (wasPinching g) then t
     else pinchStartTimeRef s)
  /\ pinchFramesRef (pinchStage t l g s)
     = (if nextPinch g then pinchFramesRef s + 1 else 0)%nat
  /\ pinching (pinchStage t l g s) = nextPinch g
  /\ dwellProgress (pinchStage t l g s) = dwellProgress s.
Proof.
  unfold pinchStage. destruct s.
  destruct (nextPinch g), (wasPinching g); cbn; repeat split.
Qed.

Lemma zoomStage_pinch l g s :
  pinchStartTimeRef (zoomStage l g s) = pinchStartTimeRef s
  /\ pinchFramesRef (zoomStage l g s) = pinchFramesRef s
  /\ pinching (zoomStage l g s) = pinching s
  /\ dwellProgress (zoomStage l g s)
     = (if zoomGesture g then 0 else dwellProgress s).
Proof. unfold zoomStage. destruct s. stage_cases; repeat split. Qed.

Lemma scrollStage_pinch l g s :
  pinchStartTimeRef (scrollStage l g s) = pinchStartTimeRef s
  /\ pinchFramesRef (scrollStage l g s) = pinchFramesRef s
  /\ pinching (scrollStage l g s) = pinching s
  /\ dwellProgress (scrollStage l g s)
     = (if scrollGesture g && sigMiddleTip (signalsOf l) then 0
        else dwellProgress s).
Proof.
  unfold scrollStage, signalsOf. destruct s.
  destruct (scrollGesture g), (middleTip l); cbn; try (repeat split; fail).
  destruct scrollAnchorRef0; repeat split.
Qed.

Lemma moded_pinch f l s :
  let g := frameGestures l s in
  pinchStartTimeRef (moded f l s)
  = (if nextPinch g && negb (wasPinching g) then now f
     else pinchStartTimeRef s)
  /\ pinchFramesRef (moded f l s)
     = (if nextPinch g then pinchFramesRef s + 1 else 0)%nat
  /\ pinching (moded f l s) = nextPinch g
  /\ dwellProgress (moded f l s)
     = (if scrollGesture g && sigMiddleTip (signalsOf l) then 0
        else if zoomGesture g then 0 else dwellProgress s).
Proof.
  intro g. unfold moded. cbv zeta.
  set (s0 := setCursor _ _).
  assert (Eg : gestures l (latched l s0) = g).
  { apply (frameGestures_same l s0 s); reflexivity. }
  rewrite Eg. unfold latched.
  destruct (zoomLatch_pinch l s0) as (a1 & a2 & a3 & a4).
  destruct (scrollLatch_pinch l (zoomLatch l s0)) as (b1 & b2 & b3 & b4).
  set (s2 := scrollLatch l (zoomLatch l s0)) in *. clearbody s2.
  destruct (pinchStage_pinch (now f) l g s2) as (c1 & c2 & c3 & c4).
  set (s3 := pinchStage (now f) l g s2) in *. clearbody s3.
  destruct (zoomStage_pinch l g s3) as (d1 & d2 & d3 & d4).
  set (s4 := zoomStage l g s3) in *. clearbody s4.
  destruct (scrollStage_pinch l g s4) as (e1 & e2 & e3 & e4).
  rewrite e1, e2, e3, e4, d1, d2, d3, d4, c1, c2, c3, c4,
    b1, b2, b4, a1, a2, a4.
  repeat split.
Qed.

Lemma moded_dwellRef f l s : dwellRef (moded f l s) = dwellRef s.
Proof.
  pose proof (moded_rest f l s) as R. unfold restView in R.
  injection R as _ _ _ _ _ _ R _ _ _ _ _ _. exact R.
Qed.

Lemma locked_cells m p :
  let r :=
    set_pinchStateRef false
      (set_previousPointRef p
         (setDragging false
            (set_dragTargetRef None (set_dragFramesRef 0 m)))) in
  pinchStateRef r = false /\ pinching r = pinching m
  /\ pinchFramesRef r = pinchFramesRef m /\ dragFramesRef r = 0%nat
  /\ dragTargetRef r = None /\ dragging r = false
  /\ dwellProgress r = dwellProgress m /\ dwellRef r = dwellRef m.
Proof. repeat split. Qed.

Lemma moded_locked f l s :
  zoomGesture (frameGestures l s) || scrollGesture (frameGestures l s) = true ->
  pinching (moded f l s) = false
  /\ pinchFramesRef (moded f l s) = 0%nat
  /\ (zoomGesture (frameGestures l s) = true \/ middleTip l <> None ->
      dwellProgress (moded f l s) = 0).
Proof.
  intro H.
  destruct (moded_pinch f l s) as (_ & P2 & P3 & P4). cbv zeta in *.
  rewrite (nextPinch_locked l s H) in P2, P3.
  split; [exact P3|]. split; [exact P2|].
  rewrite P4. clear P2 P3 P4.
  set (g := frameGestures l s) in *. clearbody g.
  intros [Z | M].
  - rewrite Z. now destruct (_ && _).
  - destruct (zoomGesture g); [now destruct (_ && _)|].
    cbn in H. rewrite H. unfold signalsOf. cbn.
    destruct (middleTip l); [reflexivity | contradiction].
Qed.

(** C6 (as amended).  On a frame on which the zoom lock or the scroll lock
    is on, the pinch flag and the pinch frame counter are cleared, the drag
    frame counter and the drag target are cleared, no collaborator is
    called, and the reported dwell progress is set to 0 (under the scroll
    lock, when the middle tip is reported); the dwell target and its start
    time are left as they were. *)
Theorem locked_frame_clears_pinch_and_drag (s : Engine) (f : Frame)
    (l : Locals) :
  localsOf s f = Some l ->
  zoomGesture (frameGestures l s) || scrollGesture (frameGestures l s) = true ->
  pinchStateRef (step s f) = false
  /\ pinching (step s f) = false
  /\ pinchFramesRef (step s f) = 0%nat
  /\ dragFramesRef (step s f) = 0%nat
  /\ dragTargetRef (step s f) = None
  /\ dragging (step s f) = false
  /\ (zoomGesture (frameGestures l s) = true \/ middleTip l <> None ->
      dwellProgress (step s f) = 0)
  /\ dwellRef (step s f) = dwellRef s
  /\ emitted s f = [].
Proof.
  intros E H.
  assert (Eg : frameGestures l (setHandVisible true s) = frameGestures l s)
    by (apply frameGestures_same; reflexivity).
  assert (H' := H). rewrite <- Eg in H'.
  unfold engineAfter, eventsOf.
  rewrite (onResults_processed s f l E).
  rewrite (processHand_locked f l _ H').
  cbn [fst snd].
  destruct (moded_locked f l _ H') as (M1 & M2 & M3).
  rewrite Eg in M3.
  pose proof (moded_dwellRef f l (setHandVisible true s)) as D.
  match goal with
  | |- context [set_previousPointRef ?p _] =>
      destruct (locked_cells (moded f l (setHandVisible true s)) p)
        as (c1 & c2 & c3 & c4 & c5 & c6 & c7 & c8)
  end.
  rewrite c1, c2, c3, c4, c5, c6, c7, c8, M1, M2, D.
  repeat (split; [reflexivity|]). split; [exact M3|]. split; reflexivity.
Qed.

(** ** Click on pinch release *)

Lemma triggerTileClick_events f c src s tid :
  getTileAtCursor f c = Some tid -> tid <> EmptyString ->
  snd (triggerTileClick f c src s)
  = [match src with src_pinch => Click tid | src_dwell => DwellClick tid end].
Proof.
  intros H Hne. unfold triggerTileClick. rewrite H.
  destruct tid; [contradiction | reflexivity].
Qed.

Lemma triggerTileClick_dwell_no_click f c s :
  filter isClick (snd (triggerTileClick f c src_dwell s)) = [].
Proof. unfold triggerTileClick. stage_cases; reflexivity. Qed.

Lemma swipeStage_no_click f l s :
  filter isClick (snd (fst (swipeStage tilesCaptured f l s))) = [].
Proof. unfold swipeStage, triggerSwipeSelect. stage_cases; reflexivity. Qed.

Lemma dwellStage_no_click f l s :
  filter isClick (snd (dwellStage f l s)) = [].
Proof.
  unfold dwellStage.
  destruct (truthy _); [|reflexivity].
  destruct (negb _); [reflexivity|].
  destruct (_ && _); [|reflexivity].
  match goal with
  | |- context [triggerTileClick ?f ?c ?src ?s0] =>
      pose proof (triggerTileClick_dwell_no_click f c s0) as H;
      destruct (triggerTileClick f c src s0) as [s1 ev]
  end.
  exact H.
Qed.

Lemma pointerStage_no_click f l g s :
  filter isClick (snd (fst (pointerStage tilesCaptured f l g s))) = [].
Proof.
  unfold pointerStage.
  destruct (_ && _); [|reflexivity].
  match goal with
  | |- context [swipeStage ?t ?f ?l ?s0] =>
      pose proof (swipeStage_no_click f l s0) as H1;
      destruct (swipeStage t f l s0) as [[s1 ev1] r]
  end.
  pose proof (dwellStage_no_click f l s1) as H2.
  destruct (dwellStage f l s1) as [s2 ev2].
  cbn [fst snd] in *. now rewrite filter_app, H1, H2.
Qed.

Lemma clickStage_events f l g s tid :
  nextPinch g = false -> wasPinching g = true ->
  getTileAtCursor f (stableCursor l) = Some tid -> tid <> EmptyString ->
  snd (clickStage f l g s)
  = if shouldClick f g s then [Click tid] else [].
Proof.
  intros N W H Hne. unfold clickStage. rewrite N, W. cbn [negb andb].
  destruct (shouldClick f g s); [|reflexivity].
  pose proof (triggerTileClick_events f (stableCursor l) src_pinch
                (setGestureMode click s) tid H Hne) as T.
  destruct (triggerTileClick _ _ _ _) as [s1 ev]. exact T.
Qed.

Lemma shouldClick_pointer f g s :
  scrollGesture g = false -> zoomGesture g = false ->
  shouldClick f g s
  = Qltb (now f - pinchStartTimeRef s) 280
    && Qgtb (now f - clickCooldownRef s) 420.
Proof.
  intros S Z. unfold shouldClick. rewrite S, Z. cbn [negb].
  now rewrite !andb_true_r.
Qed.

Lemma released_cells m :
  let r := setDragging false (set_dragTargetRef None (set_dragFramesRef 0 m))
  in
  pinchStartTimeRef r = pinchStartTimeRef m
  /\ clickCooldownRef r = clickCooldownRef m
  /\ swipeCooldownRef r = swipeCooldownRef m
  /\ activeTile r = activeTile m
  /\ dragFramesRef r = 0%nat.
Proof. repeat split. Qed.

Lemma moded_clickCooldown f l s :
  clickCooldownRef (moded f l s) = clickCooldownRef s.
Proof.
  pose proof (moded_rest f l s) as R. unfold restView in R.
  injection R as _ R _ _ _ _ _ _ _ _ _ _ _. exact R.
Qed.

(** The events of a frame on which no pinch is held. *)
Lemma processHand_released_events f l s :
  nextPinch (frameGestures l s) = false ->
  snd (fst (processHand' f l s))
  = snd (clickStage f l (frameGestures l s)
           (dragCountStage (frameGestures l s) (moded f l s)))
    ++ snd (fst (pointerStage tilesCaptured f l (frameGestures l s)
                   (fst (clickStage f l (frameGestures l s)
                           (dragCountStage (frameGestures l s)
                              (moded f l s)))))).
Proof.
  intro N. rewrite processHand_stages. cbv zeta.
  rewrite (dragStage_idle f l (dragCountStage _ _)).
  2:{ rewrite (dragCountStage_released _ _ N).
      destruct (released_cells (moded f l s)) as (_ & _ & _ & _ & ->). lia. }
  destruct (clickStage _ _ _ _) as [s4 ev2].
  destruct (pointerStage _ _ _ _ _) as [[s5 ev3] r].
  reflexivity.
Qed.

Lemma wasPinching_frame l s :
  wasPinching (frameGestures l s) = pinchStateRef s.
Proof. unfold frameGestures, gestures. cbn. apply latched_pinchState. Qed.

Lemma released_shouldClick f l s :
  nextPinch (frameGestures l s) = false ->
  scrollGesture (frameGestures l s) = false ->
  zoomGesture (frameGestures l s) = false ->
  shouldClick f (frameGestures l s)
              (dragCountStage (frameGestures l s) (moded f l s))
  = Qltb (now f - pinchStartTimeRef s) 280
    && Qgtb (now f - clickCooldownRef s) 420.
Proof.
  intros N S Z. rewrite (shouldClick_pointer _ _ _ S Z).
  rewrite (dragCountStage_released _ _ N).
  destruct (released_cells (moded f l s)) as (-> & -> & _).
  destruct (moded_pinch f l s) as (P & _). cbv zeta in P.
  rewrite N in P. cbn [andb] in P.
  now rewrite P, moded_clickCooldown.
Qed.

Lemma released_click_events f l s tid :
  pinchStateRef s = true ->
  nextPinch (frameGestures l s) = false ->
  scrollGesture (frameGestures l s) = false ->
  zoomGesture (frameGestures l s) = false ->
  getTileAtCursor f (stableCursor l) = Some tid -> tid <> EmptyString ->
  filter isClick (snd (fst (processHand' f l s)))
  = if Qltb (now f - pinchStartTimeRef s) 280
       && Qgtb (now f - clickCooldownRef s) 420
    then [Click tid] else [].
Proof.
  intros W N S Z H Hne.
  rewrite (processHand_released_events f l s N).
  rewrite filter_app, pointerStage_no_click, app_nil_r.
  rewrite (clickStage_events f l _ _ tid N); auto.
  - rewrite (released_shouldClick f l s N S Z).
    now destruct (_ && _).
  - now rewrite wasPinching_frame.
Qed.

(** C5.  On a frame that ends a pinch (the pinch flag was set, this frame
    sets none) with neither lock on and a tile under the cursor: the
    [Click] calls of the frame are exactly one call on that tile when the
    pinch lasted less than 280 ms and the last click is more than 420 ms
    old, and none otherwise; so a 200 ms pinch with no click in the last
    420 ms gives exactly one [Click] and a 300 ms pinch gives none. *)
Theorem pinch_release_clicks (s : Engine) (f : Frame) (l : Locals)
    (tid : string) :
  localsOf s f = Some l ->
  pinchStateRef s = true ->
  nextPinch (frameGestures l s) = false ->
  scrollGesture (frameGestures l s) = false ->
  zoomGesture (frameGestures l s) = false ->
  getTileAtCursor f (stableCursor l) = Some tid -> tid <> EmptyString ->
  let quick := now f - pinchStartTimeRef s < 280 in
  let rested := 420 < now f - clickCooldownRef s in
  (In (Click tid) (emitted s f) <-> quick /\ rested)
  /\ (quick /\ rested -> filter isClick (emitted s f) = [Click tid])
  /\ (~ (quick /\ rested) -> filter isClick (emitted s f) = [])
  /\ (now f - pinchStartTimeRef s == 200 -> rested ->
      filter isClick (emitted s f) = [Click tid])
  /\ (now f - pinchStartTimeRef s == 300 ->
      filter isClick (emitted s f) = []).
Proof.
  intros E W N S Z H Hne quick rested.
  assert (Eg : frameGestures l (setHandVisible true s) = frameGestures l s)
    by (apply frameGestures_same; reflexivity).
  rewrite <- Eg in N, S, Z.
  pose proof (released_click_events f l (setHandVisible true s) tid
                W N S Z H Hne) as C.
  change (pinchStartTimeRef (setHandVisible true s))
    with (pinchStartTimeRef s) in C.
  change (clickCooldownRef (setHandVisible true s))
    with (clickCooldownRef s) in C.
  unfold eventsOf. rewrite (onResults_processed s f l E).
  set (evs := snd (fst (processHand' f l (setHandVisible true s)))) in *.
  clearbody evs. clear N S Z Eg.
  assert (D : Qltb (now f - pinchStartTimeRef s) 280
              && Qgtb (now f - clickCooldownRef s) 420 = true
              <-> quick /\ rested).
  { rewrite andb_true_iff, Qltb_true, Qgtb_true. reflexivity. }
  assert (Yes : quick /\ rested -> filter isClick evs = [Click tid]).
  { intro Q. apply D in Q. now rewrite Q in C. }
  assert (No : ~ (quick /\ rested) -> filter isClick evs = []).
  { intro Q. destruct (_ && _); [|exact C]. exfalso. now apply Q, D. }
  split; [|split; [exact Yes | split; [exact No | split]]].
  - split.
    + intro I.
      assert (I' : In (Click tid) (filter isClick evs))
        by (apply filter_In; split; [exact I | reflexivity]).
      destruct (Qltb _ _ && Qgtb _ _) eqn:B; [now apply D|].
      rewrite C in I'. contradiction.
    + intro Q. specialize (Yes Q).
      assert (I' : In (Click tid) (filter isClick evs))
        by (rewrite Yes; now left).
      now apply filter_In in I'.
  - intros D200 R. apply Yes. split; [|exact R].
    unfold quick. rewrite D200. reflexivity.
  - intros D300. apply No. intros [Q _]. unfold quick in Q.
    rewrite D300 in Q. discriminate.
Qed.

(** ** Swipe *)

Lemma swipeUpdater_index tiles d cur :
  tiles <> [] ->
  exists t,
    nth_error tiles (swipeIndex tiles d cur) = Some t
    /\ swipeUpdater tiles d cur = Some (Some (tile_id t)).
Proof.
  intro Hne. unfold swipeUpdater, swipeIndex.
  set (i := match findIndexOpt cur tiles with Some i => i | None => O end).
  assert (Ei : match findIndexOpt cur tiles with
               | Some i => Z.of_nat i
               | None => 0%Z
               end = Z.of_nat i)
    by (unfold i; now destruct (findIndexOpt cur tiles)).
  rewrite Ei. clearbody i. clear Ei.
  destruct tiles as [|t0 rest]; [contradiction|].
  set (tl := t0 :: rest) in *.
  assert (Hn : (0 < List.length tl)%nat) by (cbn; lia).
  set (n := List.length tl) in *.
  assert (Ek : Z.to_nat
                 (Z.rem (Z.of_nat i
                         + match d with
                           | swipe_right => 1
                           | swipe_left => -1
                           end + Z.of_nat n) (Z.of_nat n))
               = match d with
                 | swipe_right => Nat.modulo (i + 1) n
                 | swipe_left => Nat.modulo (i + (n - 1)) n
                 end).
  { rewrite Z.rem_mod_nonneg by (destruct d; lia).
    destruct d.
    - replace (Z.of_nat i + -1 + Z.of_nat n)%Z
        with (Z.of_nat (i + (n - 1))) by lia.
      now rewrite <- Nat2Z.inj_mod, Nat2Z.id.
    - replace (Z.of_nat i + 1 + Z.of_nat n)%Z
        with (Z.of_nat (i + 1) + 1 * Z.of_nat n)%Z by lia.
      rewrite Z.mod_add by lia.
      now rewrite <- Nat2Z.inj_mod, Nat2Z.id. }
  rewrite Ek.
  assert (Hk : (match d with
                | swipe_right => Nat.modulo (i + 1) n
                | swipe_left => Nat.modulo (i + (n - 1)) n
                end < n)%nat)
    by (destruct d; apply Nat.mod_upper_bound; lia).
  destruct (nth_error tl _) as [t|] eqn:Et.
  - exists t. split; reflexivity.
  - apply nth_error_None in Et. fold n in Et. lia.
Qed.

Lemma swipeFires_spec f l p s :
  swipeFires f l p s = true
  <-> dt l < 135 /\ 0.22 < Qabs (x (stableCursor l) - px p)
      /\ 650 < now f - swipeCooldownRef s.
Proof.
  unfold swipeFires. cbv zeta.
  rewrite !andb_true_iff, Qltb_true, !Qgtb_true. tauto.
Qed.

Lemma swipeStage_spec f l p s :
  previousPoint l = Some p ->
  filter isSwipe (snd (fst (swipeStage tilesCaptured f l s)))
  = (if swipeFires f l p s then [SwipeSelect (swipeDirection l p)] else [])
  /\ swipeCooldownRef (fst (fst (swipeStage tilesCaptured f l s)))
     = (if swipeFires f l p s then now f else swipeCooldownRef s).
Proof.
  intro H. unfold swipeStage, triggerSwipeSelect. rewrite H.
  destruct (swipeFires f l p s); [|split; reflexivity].
  destruct (swipeUpdater _ _ _); split; reflexivity.
Qed.

Lemma triggerTileClick_keeps f c src s :
  swipeCooldownRef (fst (triggerTileClick f c src s)) = swipeCooldownRef s
  /\ filter isSwipe (snd (triggerTileClick f c src s)) = [].
Proof.
  unfold triggerTileClick. stage_cases; destruct src; split; reflexivity.
Qed.

Lemma clickStage_keeps f l g s :
  swipeCooldownRef (fst (clickStage f l g s)) = swipeCooldownRef s
  /\ filter isSwipe (snd (clickStage f l g s)) = [].
Proof.
  unfold clickStage.
  destruct (_ && _); [|split; reflexivity].
  destruct (shouldClick f g s); [|split; reflexivity].
  match goal with
  | |- context [triggerTileClick ?f ?c ?src ?s0] =>
      pose proof (triggerTileClick_keeps f c src s0) as H;
      destruct (triggerTileClick f c src s0) as [s1 ev]
  end.
  exact H.
Qed.

Lemma dwellStage_keeps f l s :
  swipeCooldownRef (fst (dwellStage f l s)) = swipeCooldownRef s
  /\ filter isSwipe (snd (dwellStage f l s)) = [].
Proof.
  unfold dwellStage.
  destruct (truthy _); [|split; reflexivity].
  destruct (negb _); [split; reflexivity|].
  destruct (_ && _); [|split; reflexivity].
  match goal with
  | |- context [triggerTileClick ?f ?c ?src ?s0] =>
      pose proof (triggerTileClick_keeps f c src s0) as H;
      destruct (triggerTileClick f c src s0) as [s1 ev]
  end.
  exact H.
Qed.

Lemma swipeFires_same f l p a b :
  swipeCooldownRef a = swipeCooldownRef b ->
  swipeFires f l p a = swipeFires f l p b.
Proof. intro H. unfold swipeFires. now rewrite H. Qed.

Lemma pointerStage_swipe f l g s p :
  nextPinch g = false -> scrollGesture g = false -> zoomGesture g = false ->
  previousPoint l = Some p ->
  filter isSwipe (snd (fst (pointerStage tilesCaptured f l g s)))
  = (if swipeFires f l p s then [SwipeSelect (swipeDirection l p)] else [])
  /\ swipeCooldownRef (fst (fst (pointerStage tilesCaptured f l g s)))
     = (if swipeFires f l p s then now f else swipeCooldownRef s).
Proof.
  intros N S Z H. unfold pointerStage. rewrite N, S, Z. cbn [negb andb].
  set (s0 := setStatus StatusPointerMode (setGestureMode pointer s)).
  destruct (swipeStage_spec f l p s0 H) as (A1 & A2).
  rewrite (swipeFires_same f l p s0 s eq_refl) in A1, A2.
  change (swipeCooldownRef s0) with (swipeCooldownRef s) in A2.
  clearbody s0.
  destruct (swipeStage tilesCaptured f l s0) as [[s1 ev1] r].
  destruct (dwellStage_keeps f l s1) as (B1 & B2).
  destruct (dwellStage f l s1) as [s2 ev2].
  cbn [fst snd] in *. rewrite filter_app, B2, app_nil_r, B1.
  split; assumption.
Qed.

(** The live [activeTile] cell follows the collaborator calls. *)

Local Abbreviation replay := (fold_left (applyEvent tilesCaptured)).

Lemma triggerTileClick_active f c src s :
  activeTile (fst (triggerTileClick f c src s))
  = replay (snd (triggerTileClick f c src s)) (activeTile s).
Proof.
  unfold triggerTileClick. stage_cases; destruct src; reflexivity.
Qed.

Lemma dragStage_active f l s :
  activeTile (fst (dragStage' f l s))
  = replay (snd (dragStage' f l s)) (activeTile s).
Proof. unfold dragStage. stage_cases; reflexivity. Qed.

Lemma clickStage_active f l g s :
  activeTile (fst (clickStage f l g s))
  = replay (snd (clickStage f l g s)) (activeTile s).
Proof.
  unfold clickStage.
  destruct (_ && _); [|reflexivity].
  destruct (shouldClick f g s); [|reflexivity].
  match goal with
  | |- context [triggerTileClick ?f ?c ?src ?s0] =>
      pose proof (triggerTileClick_active f c src s0) as H;
      destruct (triggerTileClick f c src s0) as [s1 ev]
  end.
  exact H.
Qed.

Lemma swipeStage_active f l s :
  activeTile (fst (fst (swipeStage tilesCaptured f l s)))
  = replay (snd (fst (swipeStage tilesCaptured f l s))) (activeTile s).
Proof.
  unfold swipeStage, triggerSwipeSelect.
  destruct (previousPoint l) as [p|]; [|reflexivity].
  destruct (swipeFires f l p s); [|reflexivity].
  destruct (swipeUpdater tilesCaptured (swipeDirection l p) (activeTile s))
    eqn:U; cbn; rewrite U; reflexivity.
Qed.

Lemma dwellStage_active f l s :
  activeTile (fst (dwellStage f l s))
  = replay (snd (dwellStage f l s)) (activeTile s).
Proof.
  unfold dwellStage.
  destruct (truthy _); [|reflexivity].
  destruct (negb _); [reflexivity|].
  destruct (_ && _); [|reflexivity].
  match goal with
  | |- context [triggerTileClick ?f ?c ?src ?s0] =>
      pose proof (triggerTileClick_active f c src s0) as H;
      destruct (triggerTileClick f c src s0) as [s1 ev]
  end.
  exact H.
Qed.

Lemma pointerStage_active f l g s :
  activeTile (fst (fst (pointerStage tilesCaptured f l g s)))
  = replay (snd (fst (pointerStage tilesCaptured f l g s))) (activeTile s).
Proof.
  unfold pointerStage.
  destruct (_ && _); [|reflexivity].
  set (s0 := setStatus StatusPointerMode (setGestureMode pointer s)).
  pose proof (swipeStage_active f l s0) as H1.
  change (activeTile s0) with (activeTile s) in H1. clearbody s0.
  destruct (swipeStage tilesCaptured f l s0) as [[s1 ev1] r].
  pose proof (dwellStage_active f l s1) as H2.
  destruct (dwellStage f l s1) as [s2 ev2].
  cbn [fst snd] in *. now rewrite fold_left_app, <- H1.
Qed.

Lemma dragCountStage_keeps g s :
  activeTile (dragCountStage g s) = activeTile s
  /\ swipeCooldownRef (dragCountStage g s) = swipeCooldownRef s.
Proof. unfold dragCountStage. destruct (_ && _); split; reflexivity. Qed.

Lemma moded_keeps f l s :
  activeTile (moded f l s) = activeTile s
  /\ swipeCooldownRef (moded f l s) = swipeCooldownRef s.
Proof.
  pose proof (moded_rest f l s) as R. unfold restView in R.
  injection R as _ _ _ _ _ R1 _ _ _ _ _ _ R2. split; assumption.
Qed.

Lemma processHand_active f l s :
  activeTile (fst (fst (processHand' f l s)))
  = replay (snd (fst (processHand' f l s))) (activeTile s).
Proof.
  rewrite processHand_stages. cbv zeta.
  destruct (moded_keeps f l s) as (M & _).
  destruct (dragCountStage_keeps (frameGestures l s) (moded f l s))
    as (D & _).
  rewrite M in D.
  set (s2 := dragCountStage _ _) in *. clearbody s2.
  pose proof (dragStage_active f l s2) as H1.
  destruct (dragStage' f l s2) as [s3 ev1].
  pose proof (clickStage_active f l (frameGestures l s) s3) as H2.
  destruct (clickStage _ _ _ s3) as [s4 ev2].
  pose proof (pointerStage_active f l (frameGestures l s) s4) as H3.
  destruct (pointerStage _ _ _ _ s4) as [[s5 ev3] r].
  cbn [fst snd] in *.
  rewrite !fold_left_app, <- D, <- H1, <- H2, <- H3. reflexivity.
Qed.

Lemma replay_swipes_only evs : forall a,
  filter isTileClick evs = [] ->
  replay evs a = replay (filter isSwipe evs) a.
Proof.
  induction evs as [|e rest IH]; intros a H; [reflexivity|].
  destruct e; cbn in H |- *; try discriminate; now apply IH.
Qed.

Lemma processHand_released_engine f l s :
  nextPinch (frameGestures l s) = false ->
  fst (fst (processHand' f l s))
  = set_pinchStateRef false
      (set_previousPointRef
         (Some (mkTimed (x (stableCursor l)) (y (stableCursor l)) (now f)))
         (fst (fst (pointerStage tilesCaptured f l (frameGestures l s)
                      (fst (clickStage f l (frameGestures l s)
                              (dragCountStage (frameGestures l s)
                                 (moded f l s)))))))).
Proof.
  intro N. rewrite processHand_stages. cbv zeta.
  rewrite (dragStage_idle f l (dragCountStage _ _)).
  2:{ rewrite (dragCountStage_released _ _ N).
      destruct (released_cells (moded f l s)) as (_ & _ & _ & _ & ->). lia. }
  destruct (clickStage _ _ _ _) as [s4 ev2].
  destruct (pointerStage _ _ _ _ _) as [[s5 ev3] r].
  cbn [fst snd]. now rewrite N.
Qed.

Lemma locals_elapsed s f l p :
  localsOf s f = Some l -> previousPointRef s = Some p ->
  previousPoint l = Some p /\ dt l = now f - pt p.
Proof.
  intros E P.
  destruct (frameLocals_inv s f l E)
    as (lm & i & t & w & ib & pb & mb & _ & _ & _ & _ & _ & _ & _ & ->).
  cbn. rewrite P. split; reflexivity.
Qed.

Lemma released_swipe f l s p :
  nextPinch (frameGestures l s) = false ->
  scrollGesture (frameGestures l s) = false ->
  zoomGesture (frameGestures l s) = false ->
  previousPoint l = Some p ->
  filter isSwipe (snd (fst (processHand' f l s)))
  = (if swipeFires f l p s then [SwipeSelect (swipeDirection l p)] else [])
  /\ swipeCooldownRef (fst (fst (processHand' f l s)))
     = (if swipeFires f l p s then now f else swipeCooldownRef s).
Proof.
  intros N S Z H.
  rewrite (processHand_released_events f l s N),
    (processHand_released_engine f l s N).
  destruct (moded_keeps f l s) as (_ & M).
  destruct (dragCountStage_keeps (frameGestures l s) (moded f l s))
    as (_ & D).
  rewrite M in D.
  set (s2 := dragCountStage _ _) in *. clearbody s2.
  destruct (clickStage_keeps f l (frameGestures l s) s2) as (C1 & C2).
  rewrite D in C1.
  set (s4 := fst (clickStage f l (frameGestures l s) s2)) in *.
  set (ev := snd (clickStage f l (frameGestures l s) s2)) in *.
  clearbody s4 ev.
  destruct (pointerStage_swipe f l (frameGestures l s) s4 p N S Z H)
    as (P1 & P2).
  rewrite (swipeFires_same f l p s4 s C1), C1 in *.
  rewrite filter_app, C2, P1. cbn [app].
  split; [reflexivity|]. exact P2.
Qed.

Lemma swipeIndex_found (tiles : list Tile) (d : Direction) (i : nat)
    (t : Tile) :
  nth_error tiles i = Some t ->
  (forall j tj, (j < i)%nat -> nth_error tiles j = Some tj ->
                tile_id tj <> tile_id t) ->
  swipeIndex tiles d (Some (tile_id t))
  = match d with
    | swipe_right => Nat.modulo (i + 1) (List.length tiles)
    | swipe_left =>
        Nat.modulo (i + List.length tiles - 1) (List.length tiles)
    end.
Proof.
  intros H First. unfold swipeIndex. cbn [findIndexOpt].
  rewrite (findIndex_first tiles i t H First).
  assert (Hn : (i < List.length tiles)%nat)
    by (apply nth_error_Some; congruence).
  destruct d; [|reflexivity].
  f_equal. lia.
Qed.

Lemma swipeIndex_not_found (tiles : list Tile) (d : Direction)
    (current : option string) :
  (forall t, In t tiles -> current <> Some (tile_id t)) ->
  swipeIndex tiles d current
  = match d with
    | swipe_right => Nat.modulo 1 (List.length tiles)
    | swipe_left => Nat.modulo (List.length tiles - 1) (List.length tiles)
    end.
Proof.
  intro H. unfold swipeIndex.
  assert (E : findIndexOpt current tiles = None).
  { destruct current as [id|]; [|reflexivity]. cbn.
    apply findIndex_absent. intros t Ht Hid. apply (H t Ht). now rewrite Hid. }
  rewrite E. now destruct d.
Qed.

(** C8.  On a frame in the pointer sub-mode (no pinch, neither lock on)
    with a previous point, let [dx] be the horizontal move of the smoothed
    cursor.  When less than 135 ms have passed since the previous frame,
    [|dx| > 0.22] and more than 650 ms have passed since the last swipe,
    the frame calls [SwipeSelect] once, to the right when [dx > 0] and to
    the left otherwise, and sets the swipe cooldown to now; otherwise it
    calls no [SwipeSelect] and leaves the cooldown.  The active tile after
    the frame is the one before it with the calls of the frame applied in
    order.  When the swipe is the only call that changes the active tile
    and the active tile is the tile at index [i] of the [n] tiles (the
    first with its id), the active tile becomes the tile at index
    [(i + 1) mod n] for a swipe to the right and [(i + n - 1) mod n] for a
    swipe to the left; when the active tile is no tile of the list, [i] is
    taken as 0. *)
Theorem swipe_select_in_pointer_mode (s : Engine) (f : Frame) (l : Locals)
    (p : TimedPoint) :
  localsOf s f = Some l ->
  previousPointRef s = Some p ->
  nextPinch (frameGestures l s) = false ->
  scrollGesture (frameGestures l s) = false ->
  zoomGesture (frameGestures l s) = false ->
  tilesCaptured <> [] ->
  let dx := x (stableCursor l) - px p in
  let fires :=
    now f - pt p < 135 /\ 0.22 < Qabs dx
    /\ 650 < now f - swipeCooldownRef s in
  let direction := swipeDirection l p in
  let n := List.length tilesCaptured in
  (0 < dx -> direction = swipe_right)
  /\ (dx <= 0 -> direction = swipe_left)
  /\ (fires ->
      filter isSwipe (emitted s f) = [SwipeSelect direction]
      /\ swipeCooldownRef (step s f) = now f)
  /\ (~ fires ->
      filter isSwipe (emitted s f) = []
      /\ swipeCooldownRef (step s f) = swipeCooldownRef s)
  /\ activeTile (step s f)
     = fold_left (applyEvent tilesCaptured) (emitted s f) (activeTile s)
  /\ (forall d current,
        exists t,
          nth_error tilesCaptured (swipeIndex tilesCaptured d current)
          = Some t
          /\ applyEvent tilesCaptured current (SwipeSelect d)
             = Some (tile_id t))
  /\ (fires -> filter isTileClick (emitted s f) = [] ->
      exists t,
        nth_error tilesCaptured
                  (swipeIndex tilesCaptured direction (activeTile s))
        = Some t
        /\ activeTile (step s f) = Some (tile_id t))
  /\ (fires -> filter isTileClick (emitted s f) = [] ->
      forall i active,
        nth_error tilesCaptured i = Some active ->
        activeTile s = Some (tile_id active) ->
        (forall j tj, (j < i)%nat -> nth_error tilesCaptured j = Some tj ->
                      tile_id tj <> tile_id active) ->
        exists t,
          nth_error tilesCaptured
            (match direction with
             | swipe_right => Nat.modulo (i + 1) n
             | swipe_left => Nat.modulo (i + n - 1) n
             end) = Some t
          /\ activeTile (step s f) = Some (tile_id t))
  /\ (fires -> filter isTileClick (emitted s f) = [] ->
      (forall t, In t tilesCaptured -> activeTile s <> Some (tile_id t)) ->
      exists t,
        nth_error tilesCaptured
          (match direction with
           | swipe_right => Nat.modulo 1 n
           | swipe_left => Nat.modulo (n - 1) n
           end) = Some t
        /\ activeTile (step s f) = Some (tile_id t)).
Proof.
  intros E P N S Z Hne dx fires direction n.
  assert (Eg : frameGestures l (setHandVisible true s) = frameGestures l s)
    by (apply frameGestures_same; reflexivity).
  rewrite <- Eg in N, S, Z.
  destruct (locals_elapsed s f l p E P) as (Hp & Hdt).
  destruct (released_swipe f l (setHandVisible true s) p N S Z Hp)
    as (R1 & R2).
  pose proof (processHand_active f l (setHandVisible true s)) as A.
  rewrite (swipeFires_same f l p (setHandVisible true s) s eq_refl)
    in R1, R2.
  change (swipeCooldownRef (setHandVisible true s))
    with (swipeCooldownRef s) in R2.
  change (activeTile (setHandVisible true s)) with (activeTile s) in A.
  unfold engineAfter, eventsOf. rewrite (onResults_processed s f l E).
  set (r := processHand' f l (setHandVisible true s)) in *. clearbody r.
  clear N S Z Eg.
  assert (F : swipeFires f l p s = true <-> fires).
  { rewrite swipeFires_spec, Hdt. reflexivity. }
  assert (Upd : forall d current,
             exists t,
               nth_error tilesCaptured (swipeIndex tilesCaptured d current)
               = Some t
               /\ applyEvent tilesCaptured current (SwipeSelect d)
                  = Some (tile_id t)).
  { intros d current.
    destruct (swipeUpdater_index tilesCaptured d current Hne)
      as (t & T1 & T2).
    exists t. split; [exact T1|]. cbn. now rewrite T2. }
  assert (Moved : fires -> filter isTileClick (snd (fst r)) = [] ->
            exists t,
              nth_error tilesCaptured
                        (swipeIndex tilesCaptured direction (activeTile s))
              = Some t
              /\ activeTile (fst (fst r)) = Some (tile_id t)).
  { intros H NoClick. apply F in H. rewrite H in R1.
    rewrite A, (replay_swipes_only _ _ NoClick), R1. cbn [fold_left].
    apply Upd. }
  split; [|split; [|split; [|split; [|split; [exact A | split;
    [|split; [|split]]]]]]].
  - intro H. unfold direction, swipeDirection. fold dx.
    apply Qgtb_true in H. now rewrite H.
  - intro H. unfold direction, swipeDirection. fold dx.
    apply Qgtb_false in H. now rewrite H.
  - intro H. apply F in H. rewrite H in R1, R2. split; assumption.
  - intro H. destruct (swipeFires f l p s).
    + exfalso. now apply H, F.
    + split; assumption.
  - exact Upd.
  - exact Moved.
  - intros H NoClick i active Hi Ha First.
    destruct (Moved H NoClick) as (t & T1 & T2).
    rewrite Ha, (swipeIndex_found _ _ i active Hi First) in T1.
    exists t. split; assumption.
  - intros H NoClick Absent.
    destruct (Moved H NoClick) as (t & T1 & T2).
    rewrite (swipeIndex_not_found _ _ _ Absent) in T1.
    exists t. split; assumption.
Qed.

(** * Further properties of the callback *)

(** ** One frame, stage by stage *)

Lemma step_unfold s f l :
  localsOf s f = Some l ->
  let g := frameGestures l s in
  let s' := setHandVisible true s in
  exists s3 s4 s5 ev1 ev2 ev3 r,
    dragStage' f l (dragCountStage g (moded f l s')) = (s3, ev1)
    /\ clickStage f l g s3 = (s4, ev2)
    /\ pointerStage tilesCaptured f l g s4 = (s5, ev3, r)
    /\ step s f
       = set_pinchStateRef (nextPinch g)
           (set_previousPointRef
              (Some (mkTimed (x (stableCursor l)) (y (stableCursor l))
                             (now f))) s5)
    /\ emitted s f = ev1 ++ ev2 ++ ev3.
Proof.
  intros E g s'.
  assert (Eg : frameGestures l s' = g)
    by (apply frameGestures_same; reflexivity).
  unfold engineAfter, eventsOf. rewrite (onResults_processed s f l E).
  fold s'. rewrite processHand_stages. cbv zeta. rewrite Eg.
  destruct (dragStage' f l _) as [s3 ev1] eqn:E1.
  destruct (clickStage f l g s3) as [s4 ev2] eqn:E2.
  destruct (pointerStage tilesCaptured f l g s4) as [[s5 ev3] r] eqn:E3.
  exists s3, s4, s5, ev1, ev2, ev3, r. repeat split; assumption.
Qed.

Lemma step_unprocessed s f :
  localsOf s f = None ->
  emitted s f = []
  /\ (step s f = handLost s \/ step s f = s
      \/ step s f = setHandVisible true s).
Proof.
  intro E. unfold engineAfter, eventsOf.
  destruct (onResults_unprocessed s f E) as [-> | [-> | [-> | ->]]];
    cbn; auto.
Qed.

Lemma dragCountStage_meter g s :
  (scrollOffset (dragCountStage g s), scrollOffsetX (dragCountStage g s),
   pinchMetric (dragCountStage g s), velocityMetric (dragCountStage g s),
   pinchFramesRef (dragCountStage g s), pinching (dragCountStage g s),
   pinchStartTimeRef (dragCountStage g s))
  = (scrollOffset s, scrollOffsetX s, pinchMetric s, velocityMetric s,
     pinchFramesRef s, pinching s, pinchStartTimeRef s)
  /\ dragView (dragCountStage g s) = dragView s
  /\ dwellRef (dragCountStage g s) = dwellRef s
  /\ dwellProgress (dragCountStage g s) = dwellProgress s
  /\ clickCooldownRef (dragCountStage g s) = clickCooldownRef s.
Proof. unfold dragCountStage. destruct (_ && _); repeat split. Qed.

Lemma dragStage_meter f l s :
  meterView (fst (dragStage' f l s)) = meterView s
  /\ dwellRef (fst (dragStage' f l s)) = dwellRef s
  /\ dwellProgress (fst (dragStage' f l s)) = dwellProgress s
  /\ clickCooldownRef (fst (dragStage' f l s)) = clickCooldownRef s
  /\ swipeCooldownRef (fst (dragStage' f l s)) = swipeCooldownRef s.
Proof. unfold dragStage. stage_cases; repeat split. Qed.

Lemma triggerTileClick_meter f c src s :
  meterView (fst (triggerTileClick f c src s)) = meterView s
  /\ dragView (fst (triggerTileClick f c src s)) = dragView s
  /\ dwellRef (fst (triggerTileClick f c src s)) = dwellRef s
  /\ dwellProgress (fst (triggerTileClick f c src s)) = dwellProgress s
  /\ clickCooldownRef (fst (triggerTileClick f c src s))
     = clickCooldownRef s.
Proof. unfold triggerTileClick. stage_cases; repeat split. Qed.

Lemma clickStage_meter f l g s :
  meterView (fst (clickStage f l g s)) = meterView s
  /\ dragView (fst (clickStage f l g s)) = dragView s
  /\ dwellRef (fst (clickStage f l g s)) = dwellRef s.
Proof.
  unfold clickStage.
  destruct (_ && _); [|repeat split].
  destruct (shouldClick f g s); [|repeat split].
  match goal with
  | |- context [triggerTileClick ?f ?c ?src ?s0] =>
      destruct (triggerTileClick_meter f c src s0) as (H1 & H2 & H3 & _);
      destruct (triggerTileClick f c src s0) as [s1 ev]
  end.
  cbn [fst] in *. repeat split; assumption.
Qed.

Lemma swipeStage_meter f l s :
  meterView (fst (fst (swipeStage tilesCaptured f l s))) = meterView s
  /\ dragView (fst (fst (swipeStage tilesCaptured f l s))) = dragView s
  /\ dwellRef (fst (fst (swipeStage tilesCaptured f l s))) = dwellRef s
  /\ dwellProgress (fst (fst (swipeStage tilesCaptured f l s)))
     = dwellProgress s
  /\ clickCooldownRef (fst (fst (swipeStage tilesCaptured f l s)))
     = clickCooldownRef s.
Proof. unfold swipeStage, triggerSwipeSelect. stage_cases; repeat split. Qed.

Lemma dwellStage_meter f l s :
  meterView (fst (dwellStage f l s)) = meterView s
  /\ dragView (fst (dwellStage f l s)) = dragView s.
Proof.
  unfold dwellStage.
  destruct (truthy _); [|repeat split].
  destruct (negb _); [repeat split|].
  destruct (_ && _); [|repeat split].
  match goal with
  | |- context [triggerTileClick ?f ?c ?src ?s0] =>
      destruct (triggerTileClick_meter f c src s0) as (H1 & H2 & _);
      destruct (triggerTileClick f c src s0) as [s1 ev]
  end.
  cbn [fst] in *. split; assumption.
Qed.

Lemma pointerStage_meter f l g s :
  meterView (fst (fst (pointerStage tilesCaptured f l g s))) = meterView s
  /\ dragView (fst (fst (pointerStage tilesCaptured f l g s))) = dragView s.
Proof.
  unfold pointerStage.
  destruct (_ && _); [|repeat split].
  set (s0 := setStatus StatusPointerMode (setGestureMode pointer s)).
  destruct (swipeStage_meter f l s0) as (A1 & A2 & _).
  change (meterView s0) with (meterView s) in A1.
  change (dragView s0) with (dragView s) in A2. clearbody s0.
  destruct (swipeStage tilesCaptured f l s0) as [[s1 ev1] r].
  destruct (dwellStage_meter f l s1) as (B1 & B2).
  destruct (dwellStage f l s1) as [s2 ev2].
  cbn [fst snd] in *. split; congruence.
Qed.

(** The meter cells after a processed frame are those the mode branches
    left, with the drag counter as the drag count stage set it. *)
Lemma step_meter s f l :
  localsOf s f = Some l ->
  let m := moded f l (setHandVisible true s) in
  scrollOffset (step s f) = scrollOffset m
  /\ scrollOffsetX (step s f) = scrollOffsetX m
  /\ pinchMetric (step s f) = pinchMetric m
  /\ velocityMetric (step s f) = velocityMetric m
  /\ pinchFramesRef (step s f) = pinchFramesRef m
  /\ pinchStartTimeRef (step s f) = pinchStartTimeRef m
  /\ dragFramesRef (step s f)
     = dragFramesRef (dragCountStage (frameGestures l s) m)
  /\ pinchStateRef (step s f) = nextPinch (frameGestures l s).
Proof.
  intros E m.
  destruct (step_unfold s f l E)
    as (s3 & s4 & s5 & ev1 & ev2 & ev3 & r & E1 & E2 & E3 & -> & _).
  fold m in E1.
  destruct (dragCountStage_meter (frameGestures l s) m) as (C & _).
  set (s2 := dragCountStage (frameGestures l s) m) in *. clearbody s2.
  destruct (dragStage_meter f l s2) as (D & _). rewrite E1 in D.
  destruct (clickStage_meter f l (frameGestures l s) s3) as (K & _).
  rewrite E2 in K.
  destruct (pointerStage_meter f l (frameGestures l s) s4) as (P & _).
  rewrite E3 in P. cbn [fst] in *.
  assert (M : meterView s5 = meterView s2) by congruence.
  unfold meterView in M.
  injection M as M1 M2 M3 M4 M5 M6 M7 M8.
  injection C as C1 C2 C3 C4 C5 C6 C7.
  clearbody m.
  change (scrollOffset s5 = scrollOffset m
          /\ scrollOffsetX s5 = scrollOffsetX m
          /\ pinchMetric s5 = pinchMetric m
          /\ velocityMetric s5 = velocityMetric m
          /\ pinchFramesRef s5 = pinchFramesRef m
          /\ pinchStartTimeRef s5 = pinchStartTimeRef m
          /\ dragFramesRef s5 = dragFramesRef s2
          /\ nextPinch (frameGestures l s) = nextPinch (frameGestures l s)).
  repeat split; congruence.
Qed.

(** ** Meter cells through the mode branches *)

Lemma zoomLatch_meter l s :
  scrollOffset (zoomLatch l s) = scrollOffset s
  /\ scrollOffsetX (zoomLatch l s) = scrollOffsetX s
  /\ velocityMetric (zoomLatch l s) = velocityMetric s
  /\ dragFramesRef (zoomLatch l s) = dragFramesRef s.
Proof. unfold zoomLatch. destruct s. stage_cases; repeat split. Qed.

Lemma scrollLatch_meter l s :
  scrollOffset (scrollLatch l s) = scrollOffset s
  /\ scrollOffsetX (scrollLatch l s) = scrollOffsetX s
  /\ velocityMetric (scrollLatch l s) = velocityMetric s
  /\ dragFramesRef (scrollLatch l s) = dragFramesRef s.
Proof. unfold scrollLatch. destruct s. stage_cases; repeat split. Qed.

Lemma pinchStage_meter t l g s :
  scrollOffset (pinchStage t l g s) = scrollOffset s
  /\ scrollOffsetX (pinchStage t l g s) = scrollOffsetX s
  /\ velocityMetric (pinchStage t l g s) = velocityMetric s
  /\ dragFramesRef (pinchStage t l g s) = dragFramesRef s
  /\ pinchMetric (pinchStage t l g s)
     = clamp (1 - pinchDistance l / 0.65) 0 1.
Proof.
  unfold pinchStage. destruct s.
  destruct (nextPinch g), (wasPinching g); repeat split.
Qed.

Lemma zoomStage_meter l g s :
  scrollOffset (zoomStage l g s) = scrollOffset s
  /\ scrollOffsetX (zoomStage l g s) = scrollOffsetX s
  /\ velocityMetric (zoomStage l g s) = velocityMetric s
  /\ pinchMetric (zoomStage l g s) = pinchMetric s
  /\ dragFramesRef (zoomStage l g s)
     = (if zoomGesture g then O else dragFramesRef s)
  /\ (zoomLevel (zoomStage l g s) = zoomLevel s
      \/ exists v, zoomLevel (zoomStage l g s) = clamp v 0.45 2.6).
Proof.
  unfold zoomStage. destruct s. stage_cases; repeat split; eauto.
Qed.

Lemma scrollStage_meter l g s :
  velocityMetric (scrollStage l g s) = velocityMetric s
  /\ pinchMetric (scrollStage l g s) = pinchMetric s
  /\ dragFramesRef (scrollStage l g s)
     = (if scrollGesture g && sigMiddleTip (signalsOf l) then O
        else dragFramesRef s)
  /\ (scrollOffset (scrollStage l g s) = scrollOffset s
      \/ exists d,
           scrollOffset (scrollStage l g s)
           = clamp (scrollOffset s + clamp d (-22) 22) (-360) 360)
  /\ (scrollOffsetX (scrollStage l g s) = scrollOffsetX s
      \/ exists d,
           scrollOffsetX (scrollStage l g s)
           = clamp (scrollOffsetX s + clamp d (-22) 22) (-360) 360).
Proof.
  unfold scrollStage, signalsOf. destruct s.
  destruct (scrollGesture g), (middleTip l); cbn;
    try (repeat split; auto; fail).
  destruct scrollAnchorRef0; cbn; repeat split; eauto.
Qed.

Lemma moded_meter f l s :
  let g := frameGestures l s in
  velocityMetric (moded f l s) = clamp (velocity l * 900) 0 1
  /\ pinchMetric (moded f l s) = clamp (1 - pinchDistance l / 0.65) 0 1
  /\ dragFramesRef (moded f l s)
     = (if scrollGesture g && sigMiddleTip (signalsOf l) then O
        else if zoomGesture g then O else dragFramesRef s)
  /\ (zoomLevel (moded f l s) = zoomLevel s
      \/ exists v, zoomLevel (moded f l s) = clamp v 0.45 2.6)
  /\ (scrollOffset (moded f l s) = scrollOffset s
      \/ exists d,
           scrollOffset (moded f l s)
           = clamp (scrollOffset s + clamp d (-22) 22) (-360) 360)
  /\ (scrollOffsetX (moded f l s) = scrollOffsetX s
      \/ exists d,
           scrollOffsetX (moded f l s)
           = clamp (scrollOffsetX s + clamp d (-22) 22) (-360) 360).
Proof.
  intro g. unfold moded. cbv zeta.
  set (s0 := setCursor _ _).
  assert (Eg : gestures l (latched l s0) = g)
    by (apply (frameGestures_same l s0 s); reflexivity).
  rewrite Eg. unfold latched.
  assert (V0 : velocityMetric s0 = clamp (velocity l * 900) 0 1)
    by reflexivity.
  assert (Z0 : zoomLevel s0 = zoomLevel s) by reflexivity.
  assert (O0 : scrollOffset s0 = scrollOffset s) by reflexivity.
  assert (X0 : scrollOffsetX s0 = scrollOffsetX s) by reflexivity.
  assert (D0 : dragFramesRef s0 = dragFramesRef s) by reflexivity.
  clearbody s0.
  destruct (zoomLatch_meter l s0) as (a1 & a2 & a3 & a4).
  destruct (zoomLatch_anchor l s0) as (a5 & _).
  set (s1 := zoomLatch l s0) in *. clearbody s1.
  destruct (scrollLatch_meter l s1) as (b1 & b2 & b3 & b4).
  destruct (scrollLatch_anchor l s1) as (b5 & _).
  set (s2 := scrollLatch l s1) in *. clearbody s2.
  destruct (pinchStage_meter (now f) l g s2) as (c1 & c2 & c3 & c4 & c5).
  destruct (pinchStage_anchor (now f) l g s2) as (c6 & _).
  set (s3 := pinchStage (now f) l g s2) in *. clearbody s3.
  destruct (zoomStage_meter l g s3) as (d1 & d2 & d3 & d4 & d5 & d6).
  set (s4 := zoomStage l g s3) in *. clearbody s4.
  destruct (scrollStage_meter l g s4) as (e1 & e2 & e3 & e4 & e5).
  pose proof (scrollStage_zoomLevel l g s4) as e6.
  set (s5 := scrollStage l g s4) in *. clearbody s5.
  assert (Z3 : zoomLevel s3 = zoomLevel s) by congruence.
  assert (O4 : scrollOffset s4 = scrollOffset s) by congruence.
  assert (X4 : scrollOffsetX s4 = scrollOffsetX s) by congruence.
  rewrite O4 in e4. rewrite X4 in e5. rewrite Z3 in d6.
  rewrite <- e6 in d6.
  repeat split; try assumption; try congruence.
  rewrite e3, d5. destruct (_ && _); [reflexivity|].
  destruct (zoomGesture g); congruence.
Qed.

(** ** Invariants over any sequence of frames *)

Lemma run_invariant (P : Engine -> Prop) :
  (forall s f, P s -> P (step s f)) ->
  forall fs s, P s -> P (runFrames s fs).
Proof.
  intros Hstep fs. induction fs as [|f rest IH]; intros s H; cbn [run].
  - exact H.
  - apply IH, Hstep, H.
Qed.

Lemma clamp_between (v lo hi : Q) : lo <= hi -> lo <= clamp v lo hi <= hi.
Proof. intro H. split; [now apply clamp_lower | apply clamp_upper]. Qed.

Lemma step_zoomLevel_range s f :
  0.45 <= zoomLevel s <= 2.6 -> 0.45 <= zoomLevel (step s f) <= 2.6.
Proof.
  intro H. destruct (localsOf s f) as [l|] eqn:E.
  - pose proof (step_view s f l E) as V. unfold modeView in V.
    injection V as _ _ _ _ _ _ _ _ V _. rewrite V.
    destruct (moded_meter f l (setHandVisible true s))
      as (_ & _ & _ & [Z | [v Z]] & _); rewrite Z.
    + exact H.
    + apply clamp_between. lra.
  - destruct (step_unprocessed s f E) as (_ & [-> | [-> | ->]]); exact H.
Qed.

(** X1.  Whatever frames arrive, the zoom level stays within
    [0.45, 2.6]. *)
Theorem zoom_level_stays_in_range (fs : list Frame) :
  0.45 <= zoomLevel (runFrames initialEngine fs) <= 2.6.
Proof.
  apply (run_invariant (fun s => 0.45 <= zoomLevel s <= 2.6)).
  - apply step_zoomLevel_range.
  - cbn. lra.
Qed.

Lemma scroll_step_bounded (o d : Q) :
  -360 <= o <= 360 ->
  -360 <= clamp (o + clamp d (-22) 22) (-360) 360 <= 360
  /\ Qabs (clamp (o + clamp d (-22) 22) (-360) 360 - o) <= 22.
Proof.
  intro H. split; [apply clamp_between; lra|].
  pose proof (clamp_between d (-22) 22 ltac:(lra)) as Hd.
  set (e := clamp d (-22) 22) in *. clearbody e.
  apply Qabs_Qle_condition. unfold clamp.
  destruct (Q.max_spec (-360) (o + e)) as [[M0 M] | [M0 M]];
    destruct (Q.min_spec 360 (Qmax (-360) (o + e))) as [[N0 N] | [N0 N]];
    rewrite N; rewrite M in *; lra.
Qed.

Lemma step_scroll_range s f :
  -360 <= scrollOffset s <= 360 -> -360 <= scrollOffsetX s <= 360 ->
  (-360 <= scrollOffset (step s f) <= 360
   /\ Qabs (scrollOffset (step s f) - scrollOffset s) <= 22)
  /\ (-360 <= scrollOffsetX (step s f) <= 360
      /\ Qabs (scrollOffsetX (step s f) - scrollOffsetX s) <= 22).
Proof.
  intros H HX.
  assert (Same : forall o, -360 <= o <= 360 ->
                   -360 <= o <= 360 /\ Qabs (o - o) <= 22).
  { intros o Ho. split; [exact Ho|]. apply Qabs_Qle_condition. lra. }
  destruct (localsOf s f) as [l|] eqn:E.
  - destruct (step_meter s f l E) as (-> & -> & _).
    destruct (moded_meter f l (setHandVisible true s))
      as (_ & _ & _ & _ & [O | [d O]] & [X | [dx X]]);
      rewrite O, X; split;
      first [apply scroll_step_bounded; assumption
            | apply Same; assumption].
  - destruct (step_unprocessed s f E) as (_ & [-> | [-> | ->]]);
      split; apply Same; assumption.
Qed.

(** X2.  After any frames both scroll offsets lie within [-360, 360], and
    one more frame moves each of them by at most 22. *)
Theorem scroll_offsets_stay_bounded (fs : list Frame) (f : Frame) :
  let s := runFrames initialEngine fs in
  -360 <= scrollOffset s <= 360
  /\ -360 <= scrollOffsetX s <= 360
  /\ Qabs (scrollOffset (step s f) - scrollOffset s) <= 22
  /\ Qabs (scrollOffsetX (step s f) - scrollOffsetX s) <= 22.
Proof.
  intro s.
  assert (R : -360 <= scrollOffset s <= 360
              /\ -360 <= scrollOffsetX s <= 360).
  { apply (run_invariant
             (fun s => -360 <= scrollOffset s <= 360
                       /\ -360 <= scrollOffsetX s <= 360)).
    - intros s0 f0 [A B].
      destruct (step_scroll_range s0 f0 A B) as ((a & _) & (b & _)).
      split; assumption.
    - cbn. split; lra. }
  destruct R as [A B].
  destruct (step_scroll_range s f A B) as ((_ & a) & (_ & b)).
  repeat split; try apply A; try apply B; assumption.
Qed.

Lemma clickStage_dwellProgress f l g s :
  inUnit (dwellProgress s) ->
  inUnit (dwellProgress (fst (clickStage f l g s))).
Proof.
  intro H. unfold clickStage.
  destruct (_ && _); [|exact H].
  destruct (shouldClick f g s); [|exact H].
  destruct (triggerTileClick _ _ _ _) as [s1 ev]. cbn. unfold inUnit. lra.
Qed.

Lemma dwellStage_dwellProgress f l s :
  inUnit (dwellProgress (fst (dwellStage f l s))).
Proof.
  unfold dwellStage, inUnit.
  destruct (truthy _); [|cbn; lra].
  destruct (negb _); [cbn; lra|].
  destruct (_ && _).
  - destruct (triggerTileClick _ _ _ _) as [s1 ev]. cbn. lra.
  - cbn. apply clamp_between. lra.
Qed.

Lemma pointerStage_dwellProgress f l g s :
  inUnit (dwellProgress s) ->
  inUnit (dwellProgress (fst (fst (pointerStage tilesCaptured f l g s)))).
Proof.
  intro H. unfold pointerStage.
  destruct (_ && _); [|exact H].
  destruct (swipeStage _ _ _ _) as [[s1 ev1] r].
  pose proof (dwellStage_dwellProgress f l s1) as D.
  destruct (dwellStage f l s1) as [s2 ev2]. exact D.
Qed.

Lemma step_metrics s f :
  inUnit (dwellProgress s) /\ inUnit (pinchMetric s)
  /\ inUnit (velocityMetric s) ->
  inUnit (dwellProgress (step s f)) /\ inUnit (pinchMetric (step s f))
  /\ inUnit (velocityMetric (step s f)).
Proof.
  intros (Hd & Hp & Hv). destruct (localsOf s f) as [l|] eqn:E.
  - destruct (step_meter s f l E) as (_ & _ & -> & -> & _).
    destruct (moded_meter f l (setHandVisible true s)) as (-> & -> & _).
    split; [|split; apply clamp_between; lra].
    destruct (step_unfold s f l E)
      as (s3 & s4 & s5 & ev1 & ev2 & ev3 & r & E1 & E2 & E3 & -> & _).
    destruct (moded_pinch f l (setHandVisible true s)) as (_ & _ & _ & M).
    cbv zeta in M.
    change (dwellProgress (setHandVisible true s))
      with (dwellProgress s) in M.
    set (m := moded f l (setHandVisible true s)) in *. clearbody m.
    assert (Hm : inUnit (dwellProgress m)).
    { rewrite M. destruct (_ && _); [unfold inUnit; lra|].
      destruct (zoomGesture _); [unfold inUnit; lra | exact Hd]. }
    destruct (dragCountStage_meter (frameGestures l s) m)
      as (_ & _ & _ & C & _).
    set (s2 := dragCountStage (frameGestures l s) m) in *. clearbody s2.
    destruct (dragStage_meter f l s2) as (_ & _ & D & _).
    rewrite E1 in D. cbn [fst] in D.
    pose proof (clickStage_dwellProgress f l (frameGestures l s) s3) as K.
    rewrite E2 in K. cbn [fst] in K.
    pose proof (pointerStage_dwellProgress f l (frameGestures l s) s4) as P.
    rewrite E3 in P. cbn [fst] in P.
    change (inUnit (dwellProgress s5)).
    apply P, K. rewrite D, C. exact Hm.
  - destruct (step_unprocessed s f E) as (_ & [-> | [-> | ->]]); cbn;
      repeat split; try apply Hd; try apply Hp; try apply Hv; lra.
Qed.

(** X3.  After any frames the three meters shown on the page (dwell
    progress, pinch power, speed) lie within [0, 1]. *)
Theorem meters_stay_in_unit_interval (fs : list Frame) :
  let s := runFrames initialEngine fs in
  inUnit (dwellProgress s) /\ inUnit (pinchMetric s)
  /\ inUnit (velocityMetric s).
Proof.
  apply (run_invariant
           (fun s => inUnit (dwellProgress s) /\ inUnit (pinchMetric s)
                     /\ inUnit (velocityMetric s))).
  - apply step_metrics.
  - unfold inUnit. cbn. repeat split; lra.
Qed.

(** ** Pinch state *)

Lemma frameGestures_cells l s :
  zoomGesture (frameGestures l s)
  = zoomOn (scrollLatchCells (signalsOf l)
              (zoomLatchCells (signalsOf l) (latchCells s)))
  /\ scrollGesture (frameGestures l s)
     = scrollOn (scrollLatchCells (signalsOf l)
                   (zoomLatchCells (signalsOf l) (latchCells s)))
  /\ nextPinch (frameGestures l s)
     = (if pinchStateRef s then Qltb (pinchDistance l) pinchHoldThreshold
        else Qltb (pinchDistance l) pinchStartThreshold)
       && negb (scrollGesture (frameGestures l s))
       && negb (zoomGesture (frameGestures l s)).
Proof.
  pose proof (latched_cells l s) as C.
  pose proof (latched_pinchState l s) as P.
  unfold frameGestures, gestures. cbn [zoomGesture scrollGesture nextPinch].
  rewrite P, <- C. repeat split.
Qed.

Lemma branchCells_off g c :
  zoomOn c = false -> scrollOn c = false ->
  zoomOn (branchCells g c) = false /\ scrollOn (branchCells g c) = false.
Proof.
  destruct c as [so zo sa za sr zr]. cbn. intros -> ->. split; reflexivity.
Qed.

Lemma step_pinch_excludes_locks s f :
  (pinchStateRef s = true ->
   scrollModeRef s = false /\ zoomModeRef s = false) ->
  pinchStateRef (step s f) = true ->
  scrollModeRef (step s f) = false /\ zoomModeRef (step s f) = false.
Proof.
  intros H. destruct (localsOf s f) as [l|] eqn:E.
  - destruct (step_meter s f l E) as (_ & _ & _ & _ & _ & _ & _ & ->).
    pose proof (latchCells_step s f l E) as C.
    destruct (frameGestures_cells l s) as (Z & S & N).
    intro P. rewrite N in P.
    apply andb_true_iff in P as [P Pz]. apply andb_true_iff in P as [_ Ps].
    apply negb_true_iff in Pz, Ps. rewrite Z in Pz. rewrite S in Ps.
    destruct (branchCells_off (signalsOf l) _ Pz Ps) as (B1 & B2).
    unfold modeCells in C. rewrite <- C in B1, B2. auto.
  - destruct (step_unprocessed s f E) as (_ & [-> | [-> | ->]]); cbn; auto;
      discriminate.
Qed.

(** X4.  After any frames the pinch flag is set only while both mode locks
    are off. *)
Theorem pinch_only_without_lock (fs : list Frame) :
  let s := runFrames initialEngine fs in
  pinchStateRef s = true ->
  scrollModeRef s = false /\ zoomModeRef s = false.
Proof.
  apply (run_invariant
           (fun s => pinchStateRef s = true ->
                     scrollModeRef s = false /\ zoomModeRef s = false)).
  - apply step_pinch_excludes_locks.
  - cbn. discriminate.
Qed.

(** X5.  On a processed frame with neither lock on, the pinch flag follows
    the thumb-index distance with hysteresis: below 0.34 it is set, from
    0.42 on it is cleared, and in between it keeps its value.  The pinch
    start time becomes the time of the frame exactly when the flag goes
    from clear to set. *)
Theorem pinch_hysteresis (s : Engine) (f : Frame) (l : Locals) :
  localsOf s f = Some l ->
  zoomGesture (frameGestures l s) = false ->
  scrollGesture (frameGestures l s) = false ->
  (pinchDistance l < 0.34 -> pinchStateRef (step s f) = true)
  /\ (0.42 <= pinchDistance l -> pinchStateRef (step s f) = false)
  /\ (0.34 <= pinchDistance l -> pinchDistance l < 0.42 ->
      pinchStateRef (step s f) = pinchStateRef s)
  /\ pinchStartTimeRef (step s f)
     = (if pinchStateRef (step s f) && negb (pinchStateRef s) then now f
        else pinchStartTimeRef s).
Proof.
  intros E Z S.
  destruct (step_meter s f l E) as (_ & _ & _ & _ & _ & -> & _ & ->).
  destruct (moded_pinch f l (setHandVisible true s)) as (M & _).
  cbv zeta in M.
  rewrite (frameGestures_same l (setHandVisible true s) s) in M
    by reflexivity.
  rewrite wasPinching_frame in M.
  change (pinchStartTimeRef (setHandVisible true s))
    with (pinchStartTimeRef s) in M.
  rewrite M. clear M.
  destruct (frameGestures_cells l s) as (_ & _ & N).
  rewrite Z, S in N. cbn [negb] in N. rewrite !andb_true_r in N.
  rewrite N. unfold pinchHoldThreshold, pinchStartThreshold.
  repeat split.
  - intro H. assert (H' : pinchDistance l < 0.42) by lra.
    apply Qltb_true in H, H'. rewrite H, H'. now destruct (pinchStateRef s).
  - intro H. assert (H' : 0.34 <= pinchDistance l) by lra.
    apply Qltb_false in H, H'. rewrite H, H'. now destruct (pinchStateRef s).
  - intros H H'. apply Qltb_false in H. apply Qltb_true in H'.
    rewrite H, H'. now destruct (pinchStateRef s).
Qed.

(** ** Drag counter *)

Lemma step_drag_counter s f :
  dragFramesRef s = pinchFramesRef s ->
  dragFramesRef (step s f) = pinchFramesRef (step s f).
Proof.
  intro H. destruct (localsOf s f) as [l|] eqn:E.
  - destruct (step_meter s f l E) as (_ & _ & _ & _ & -> & _ & -> & _).
    destruct (moded_pinch f l (setHandVisible true s)) as (_ & P & _).
    destruct (moded_meter f l (setHandVisible true s)) as (_ & _ & D & _).
    cbv zeta in P, D.
    rewrite (frameGestures_same l (setHandVisible true s) s) in P, D
      by reflexivity.
    change (pinchFramesRef (setHandVisible true s))
      with (pinchFramesRef s) in P.
    change (dragFramesRef (setHandVisible true s))
      with (dragFramesRef s) in D.
    destruct (frameGestures_cells l s) as (_ & _ & N).
    set (g := frameGestures l s) in *. clearbody g.
    set (m := moded f l (setHandVisible true s)) in *. clearbody m.
    rewrite P. unfold dragCountStage.
    destruct (nextPinch g) eqn:Np.
    + symmetry in N. apply andb_true_iff in N as [N Nz].
      apply andb_true_iff in N as [_ Ns].
      rewrite Nz, Ns. cbn [andb].
      apply negb_true_iff in Nz, Ns. rewrite Nz, Ns in D. cbn [andb] in D.
      cbn. rewrite D, H. reflexivity.
    + reflexivity.
  - destruct (step_unprocessed s f E) as (_ & [-> | [-> | ->]]); cbn; auto.
Qed.

(** X6.  After any frames the drag frame counter equals the pinch frame
    counter: both count the consecutive frames of the current pinch. *)
Theorem drag_counter_is_pinch_counter (fs : list Frame) :
  dragFramesRef (runFrames initialEngine fs)
  = pinchFramesRef (runFrames initialEngine fs).
Proof.
  apply (run_invariant (fun s => dragFramesRef s = pinchFramesRef s)).
  - apply step_drag_counter.
  - reflexivity.
Qed.

(** ** What each stage may call *)

Lemma opt_string_eqb_eq a b : opt_string_eqb a b = true <-> a = b.
Proof.
  destruct a as [a|], b as [b|]; cbn; try (split; congruence).
  rewrite String.eqb_eq. split; congruence.
Qed.

Lemma truthy_some o : truthy o = true -> exists t, o = Some t /\ t <> EmptyString.
Proof.
  destruct o as [[|c t]|]; cbn; try discriminate.
  intros _. eexists. split; [reflexivity | discriminate].
Qed.

Lemma dragStage_cases f l s :
  dragStage' f l s = (s, [])
  \/ dragStage' f l s
     = (setGestureMode pointer (setDragging true s), [])
  \/ exists a h,
       activeTileCaptured = Some a /\ a <> EmptyString
       /\ (12 < dragFramesRef s)%nat
       /\ getTileAtCursor f (stableCursor l) = Some h
       /\ h <> a /\ dragTargetRef s <> Some h
       /\ 280 < now f - dragSwapCooldownRef s
       /\ snd (dragStage' f l s) = [DragReorder a h]
       /\ tiles (fst (dragStage' f l s)) = reorderTiles a h (tiles s)
       /\ dragSwapCooldownRef (fst (dragStage' f l s)) = now f.
Proof.
  unfold dragStage.
  destruct activeTileCaptured as [a|] eqn:Ea; [|now left].
  destruct (Nat.ltb_spec 12 (dragFramesRef s)) as [Hd|]; [|now left].
  destruct (truthy (Some a)) eqn:Ta; [|now left]. cbn [andb].
  destruct (getTileAtCursor f (stableCursor l)) as [h|] eqn:Eh;
    [|now right; left].
  match goal with
  | |- context [if ?c then _ else _] => destruct c eqn:C
  end; [|now right; left].
  right. right. exists a, h.
  apply andb_true_iff in C as [C C4]. apply andb_true_iff in C as [C C3].
  apply andb_true_iff in C as [C1 C2].
  apply negb_true_iff in C2, C3.
  destruct (truthy_some _ Ta) as (a' & Ha & Hne). injection Ha as <-.
  repeat split; auto.
  - intros ->. cbn in C2. now rewrite String.eqb_refl in C2.
  - intro T. cbn [dragTargetRef setGestureMode setDragging] in C3.
    assert (X : opt_string_eqb (Some h) (dragTargetRef s) = true)
      by (apply opt_string_eqb_eq; congruence).
    destruct s; cbn in *. congruence.
  - apply Qgtb_true in C4. destruct s; exact C4.
Qed.

Lemma dragStage_kind f l s e :
  In e (snd (dragStage' f l s)) -> isDragReorder e = true.
Proof.
  destruct (dragStage_cases f l s) as [-> | [-> | (a & h & H)]];
    try contradiction.
  destruct H as (_ & _ & _ & _ & _ & _ & _ & -> & _).
  intros [<- | []]. reflexivity.
Qed.

Lemma triggerTileClick_cases f c src s :
  triggerTileClick f c src s = (s, [])
  \/ exists t,
       getTileAtCursor f c = Some t /\ t <> EmptyString
       /\ snd (triggerTileClick f c src s)
          = [match src with
             | src_pinch => Click t
             | src_dwell => DwellClick t
             end].
Proof.
  unfold triggerTileClick.
  destruct (getTileAtCursor f c) as [t|]; [|now left].
  destruct (truthy (Some t)) eqn:T; [|now left].
  right. exists t. destruct (truthy_some _ T) as (t' & Ht & Hne).
  injection Ht as <-. repeat split; auto.
Qed.

Lemma clickStage_cases f l g s :
  (snd (clickStage f l g s) = []
   /\ (clickCooldownRef (fst (clickStage f l g s)) = clickCooldownRef s
       \/ clickCooldownRef (fst (clickStage f l g s)) = now f))
  \/ exists t,
       snd (clickStage f l g s) = [Click t]
       /\ nextPinch g = false /\ wasPinching g = true
       /\ shouldClick f g s = true
       /\ getTileAtCursor f (stableCursor l) = Some t
       /\ clickCooldownRef (fst (clickStage f l g s)) = now f.
Proof.
  unfold clickStage.
  destruct (nextPinch g) eqn:N; cbn [negb andb]; [left; auto|].
  destruct (wasPinching g) eqn:W; [|left; auto].
  destruct (shouldClick f g s) eqn:C; [|left; auto].
  destruct (triggerTileClick_cases f (stableCursor l) src_pinch
              (setGestureMode click s)) as [T | (t & H1 & H2 & T)].
  - rewrite T. left. split; [reflexivity | right; reflexivity].
  - right. exists t.
    destruct (triggerTileClick _ _ _ _) as [s1 ev]. cbn [snd] in T.
    subst ev. repeat split; auto.
Qed.

Lemma clickStage_kind f l g s e :
  In e (snd (clickStage f l g s)) -> isClick e = true.
Proof.
  destruct (clickStage_cases f l g s) as [(-> & _) | (t & -> & _)].
  - contradiction.
  - intros [<- | []]. reflexivity.
Qed.

Lemma progress_full (d : Q) :
  Qgeb (clamp (d / 980) 0 1) 1 = true <-> 980 <= d.
Proof.
  unfold Qgeb. rewrite negb_true_iff, Qltb_false.
  change (d / 980) with (d * (1 # 980)). unfold clamp.
  destruct (Q.max_spec 0 (d * (1 # 980))) as [[A M] | [A M]];
    destruct (Q.min_spec 1 (Qmax 0 (d * (1 # 980)))) as [[B N] | [B N]];
    rewrite N; rewrite M in *; split; intro; lra.
Qed.

Lemma dwellStage_cases f l s :
  (snd (dwellStage f l s) = []
   /\ clickCooldownRef (fst (dwellStage f l s)) = clickCooldownRef s)
  \/ exists t,
       snd (dwellStage f l s) = [DwellClick t]
       /\ getTileAtCursor f (stableCursor l) = Some t
       /\ dwell_id (dwellRef s) = Some t
       /\ 980 <= now f - startedAt (dwellRef s)
       /\ 600 < now f - clickCooldownRef s
       /\ clickCooldownRef (fst (dwellStage f l s)) = now f
       /\ dwellRef (fst (dwellStage f l s)) = mkDwell (Some t) (now f)
       /\ dwellProgress (fst (dwellStage f l s)) = 0.
Proof.
  unfold dwellStage.
  destruct (truthy (getTileAtCursor f (stableCursor l))) eqn:T;
    [|left; split; reflexivity].
  destruct (opt_string_eqb _ _) eqn:D; cbn [negb];
    [|left; split; reflexivity].
  match goal with
  | |- context [if ?c then _ else _] => destruct c eqn:C
  end; [|left; split; reflexivity].
  right. destruct (truthy_some _ T) as (t & Ht & Hne).
  apply opt_string_eqb_eq in D.
  apply andb_true_iff in C as [C1 C2].
  apply progress_full in C1. apply Qgtb_true in C2.
  exists t.
  destruct (triggerTileClick_cases f (stableCursor l) src_dwell
              (setDwellProgress
                 (clamp ((now f - startedAt (dwellRef s)) / 980) 0 1) s))
    as [X | (t' & H1 & H2 & X)].
  - exfalso. unfold triggerTileClick in X. rewrite Ht in X.
    rewrite Ht in T. rewrite T in X. discriminate.
  - assert (t' = t) by congruence. subst t'.
    destruct (triggerTileClick _ _ _ _) as [s1 ev]. cbn [snd] in X.
    subst ev. rewrite Ht. cbn [fst snd].
    repeat split; auto; congruence.
Qed.

Lemma swipeStage_kind f l s e :
  In e (snd (fst (swipeStage tilesCaptured f l s))) -> isSwipe e = true.
Proof.
  unfold swipeStage, triggerSwipeSelect.
  destruct (previousPoint l) as [p|]; [|contradiction].
  destruct (swipeFires f l p s); [|contradiction].
  destruct (swipeUpdater _ _ _); intros [<- | []]; reflexivity.
Qed.

(** The pointer stage: its tile clicks and the click cooldown. *)
Lemma pointerStage_cases f l g s :
  (filter isTileClick (snd (fst (pointerStage tilesCaptured f l g s))) = []
   /\ filter isDragReorder
        (snd (fst (pointerStage tilesCaptured f l g s))) = []
   /\ clickCooldownRef (fst (fst (pointerStage tilesCaptured f l g s)))
      = clickCooldownRef s)
  \/ exists t,
       filter isTileClick (snd (fst (pointerStage tilesCaptured f l g s)))
       = [DwellClick t]
       /\ filter isDragReorder
            (snd (fst (pointerStage tilesCaptured f l g s))) = []
       /\ nextPinch g = false /\ scrollGesture g = false
       /\ zoomGesture g = false
       /\ getTileAtCursor f (stableCursor l) = Some t
       /\ dwell_id (dwellRef s) = Some t
       /\ 980 <= now f - startedAt (dwellRef s)
       /\ 600 < now f - clickCooldownRef s
       /\ clickCooldownRef (fst (fst (pointerStage tilesCaptured f l g s)))
          = now f
       /\ dwellRef (fst (fst (pointerStage tilesCaptured f l g s)))
          = mkDwell (Some t) (now f).
Proof.
  unfold pointerStage.
  destruct (nextPinch g) eqn:N; cbn [negb andb]; [left; auto|].
  destruct (scrollGesture g) eqn:S; cbn [negb andb]; [left; auto|].
  destruct (zoomGesture g) eqn:Z; cbn [negb andb]; [left; auto|].
  set (s0 := setStatus StatusPointerMode (setGestureMode pointer s)).
  destruct (swipeStage_meter f l s0) as (_ & _ & A3 & _ & A5).
  change (dwellRef s0) with (dwellRef s) in A3.
  change (clickCooldownRef s0) with (clickCooldownRef s) in A5.
  pose proof (swipeStage_kind f l s0) as K. clearbody s0.
  destruct (swipeStage tilesCaptured f l s0) as [[s1 ev1] r].
  cbn [fst snd] in *.
  assert (F1 : filter isTileClick ev1 = [] /\ filter isDragReorder ev1 = []).
  { clear -K. induction ev1 as [|e rest IH]; [split; reflexivity|].
    assert (Ke : isSwipe e = true) by (apply K; now left).
    destruct e; try discriminate. cbn. apply IH.
    intros e' He'. apply K. now right. }
  destruct F1 as (F1 & F2).
  destruct (dwellStage_cases f l s1) as [(D1 & D2) | (t & D)].
  - left. destruct (dwellStage f l s1) as [s2 ev2]. cbn [fst snd] in *.
    subst ev2. rewrite app_nil_r. repeat split; congruence.
  - right. exists t. destruct D as (D1 & D2 & D3 & D4 & D5 & D6 & D7 & _).
    destruct (dwellStage f l s1) as [s2 ev2]. cbn [fst snd] in *.
    subst ev2. rewrite !filter_app, F1, F2. cbn.
    rewrite A3 in D3, D4. rewrite A5 in D5.
    repeat split; auto.
Qed.

(** ** The collaborator calls of one frame *)

Lemma kind_filter (keep other : GestureEvent -> bool) evs :
  (forall e, In e evs -> other e = true) ->
  (forall e, other e = true -> keep e = false) ->
  filter keep evs = [].
Proof.
  intros K D. induction evs as [|e rest IH]; [reflexivity|].
  cbn. rewrite (D e (K e (or_introl eq_refl))). apply IH.
  intros e' He'. apply K. now right.
Qed.

Lemma moded_rest_cells f l s :
  clickCooldownRef (moded f l s) = clickCooldownRef s
  /\ dragSwapCooldownRef (moded f l s) = dragSwapCooldownRef s
  /\ dragTargetRef (moded f l s) = dragTargetRef s
  /\ dwellRef (moded f l s) = dwellRef s
  /\ tiles (moded f l s) = tiles s.
Proof.
  pose proof (moded_rest f l s) as R. unfold restView in R.
  injection R as _ R1 R2 R3 _ _ R4 R5 _ _ _ _ _. repeat split; assumption.
Qed.

Lemma step_drag s f l :
  localsOf s f = Some l ->
  (filter isDragReorder (emitted s f) = []
   /\ tiles (step s f) = tiles s
   /\ dragSwapCooldownRef (step s f) = dragSwapCooldownRef s)
  \/ exists a h,
       activeTileCaptured = Some a /\ a <> EmptyString
       /\ nextPinch (frameGestures l s) = true
       /\ (12 <= dragFramesRef s)%nat
       /\ getTileAtCursor f (stableCursor l) = Some h
       /\ h <> a /\ dragTargetRef s <> Some h
       /\ 280 < now f - dragSwapCooldownRef s
       /\ filter isDragReorder (emitted s f) = [DragReorder a h]
       /\ tiles (step s f) = reorderTiles a h (tiles s)
       /\ dragSwapCooldownRef (step s f) = now f.
Proof.
  intro E.
  destruct (step_unfold s f l E)
    as (s3 & s4 & s5 & ev1 & ev2 & ev3 & r & E1 & E2 & E3 & -> & ->).
  cbv zeta in E1.
  destruct (moded_rest_cells f l (setHandVisible true s))
    as (_ & R2 & R3 & _ & R5).
  destruct (moded_meter f l (setHandVisible true s)) as (_ & _ & MD & _).
  cbv zeta in MD.
  rewrite (frameGestures_same l (setHandVisible true s) s) in MD
    by reflexivity.
  change (dragFramesRef (setHandVisible true s)) with (dragFramesRef s) in MD.
  change (dragSwapCooldownRef (setHandVisible true s))
    with (dragSwapCooldownRef s) in R2.
  change (dragTargetRef (setHandVisible true s)) with (dragTargetRef s) in R3.
  change (tiles (setHandVisible true s)) with (tiles s) in R5.
  destruct (frameGestures_cells l s) as (_ & _ & N).
  set (g := frameGestures l s) in *. clearbody g.
  set (m := moded f l (setHandVisible true s)) in *. clearbody m.
  destruct (dragCountStage_meter g m) as (_ & C2 & _).
  assert (C3 : nextPinch g && negb (zoomGesture g) && negb (scrollGesture g)
               = true ->
               dragFramesRef (dragCountStage g m) = (dragFramesRef m + 1)%nat
               /\ dragTargetRef (dragCountStage g m) = dragTargetRef m).
  { intro H. unfold dragCountStage. rewrite H. split; reflexivity. }
  assert (C4 : nextPinch g && negb (zoomGesture g) && negb (scrollGesture g)
               = false ->
               dragFramesRef (dragCountStage g m) = O).
  { intro H. unfold dragCountStage. now rewrite H. }
  set (s2 := dragCountStage g m) in *. clearbody s2.
  destruct (clickStage_meter f l g s3) as (_ & K2 & _). rewrite E2 in K2.
  destruct (pointerStage_meter f l g s4) as (_ & P2). rewrite E3 in P2.
  cbn [fst] in K2, P2.
  assert (V5 : dragView s5 = dragView s3) by congruence.
  unfold dragView in V5, C2. injection V5 as V5a V5b.
  injection C2 as C2a C2b.
  assert (F2 : filter isDragReorder ev2 = []).
  { apply (kind_filter _ isClick).
    - intros e He. apply (clickStage_kind f l g s3). now rewrite E2.
    - now intros []. }
  assert (F3 : filter isDragReorder ev3 = []).
  { destruct (pointerStage_cases f l g s4) as [(_ & F & _) | (t & _ & F & _)];
      rewrite E3 in F; exact F. }
  rewrite !filter_app, F2, F3, !app_nil_r.
  change (tiles (set_pinchStateRef (nextPinch g)
                   (set_previousPointRef
                      (Some (mkTimed (x (stableCursor l))
                                     (y (stableCursor l)) (now f))) s5)))
    with (tiles s5).
  change (dragSwapCooldownRef
            (set_pinchStateRef (nextPinch g)
               (set_previousPointRef
                  (Some (mkTimed (x (stableCursor l))
                                 (y (stableCursor l)) (now f))) s5)))
    with (dragSwapCooldownRef s5).
  rewrite V5a, V5b.
  destruct (dragStage_cases f l s2) as [D | [D | (a & h & D)]].
  - rewrite E1 in D. injection D as -> ->. left. repeat split; congruence.
  - rewrite E1 in D. injection D as -> ->. left. cbn.
    repeat split; congruence.
  - right. exists a, h. rewrite E1 in D. cbn [fst snd] in D.
    destruct D as (D1 & D2 & D3 & D4 & D5 & D6 & D7 & -> & D9 & D10).
    destruct (nextPinch g && negb (zoomGesture g) && negb (scrollGesture g))
      eqn:Cnd.
    + destruct (C3 eq_refl) as (C3a & C3b).
      apply andb_true_iff in Cnd as [Cnd Cs].
      apply andb_true_iff in Cnd as [Cn Cz].
      apply negb_true_iff in Cs, Cz.
      rewrite Cs, Cz in MD. cbn [andb] in MD.
      repeat split; auto; try congruence.
      rewrite C3a, MD in D3. lia.
    + rewrite (C4 eq_refl) in D3. lia.
Qed.

Lemma step_tiles s f :
  tiles (step s f) = tiles s
  \/ exists a h, tiles (step s f) = reorderTiles a h (tiles s).
Proof.
  destruct (localsOf s f) as [l|] eqn:E.
  - destruct (step_drag s f l E) as [(_ & T & _) | (a & h & D)].
    + now left.
    + right. exists a, h. apply D.
  - left. destruct (step_unprocessed s f E) as (_ & [-> | [-> | ->]]);
      reflexivity.
Qed.

(** X7.  The tile list after any frames is a permutation of the list
    before them, whatever tile is selected when the engine starts. *)
Theorem tiles_remain_a_permutation (s : Engine) (fs : list Frame) :
  Permutation (tiles (runFrames s fs)) (tiles s).
Proof.
  revert s. induction fs as [|f rest IH]; intro s; cbn [run].
  - reflexivity.
  - rewrite IH. destruct (step_tiles s f) as [-> | (a & h & ->)].
    + reflexivity.
    + apply reorderTiles_perm.
Qed.

(** X8.  A frame calls [reorderTiles] at most once, and only when the
    engine was started with a tile selected, a pinch that had already
    lasted 12 frames continues, the hovered tile is neither the selected
    tile nor the last drag target, and the last swap is more than 280 ms
    old; the call moves the selected tile onto the hovered one and restarts
    the swap cooldown. *)
Theorem drag_reorder_guard (s : Engine) (f : Frame) (a h : string) :
  In (DragReorder a h) (emitted s f) ->
  exists l,
    localsOf s f = Some l
    /\ activeTileCaptured = Some a /\ a <> EmptyString
    /\ nextPinch (frameGestures l s) = true
    /\ (12 <= dragFramesRef s)%nat
    /\ getTileAtCursor f (stableCursor l) = Some h
    /\ h <> a /\ dragTargetRef s <> Some h
    /\ 280 < now f - dragSwapCooldownRef s
    /\ filter isDragReorder (emitted s f) = [DragReorder a h]
    /\ tiles (step s f) = reorderTiles a h (tiles s)
    /\ dragSwapCooldownRef (step s f) = now f.
Proof.
  intro H. destruct (localsOf s f) as [l|] eqn:E.
  - exists l. split; [reflexivity|].
    assert (I : In (DragReorder a h) (filter isDragReorder (emitted s f)))
      by (apply filter_In; split; [exact H | reflexivity]).
    destruct (step_drag s f l E) as [(F & _) | (a' & h' & D)].
    + rewrite F in I. contradiction.
    + destruct D as (D1 & D2 & D3 & D4 & D5 & D6 & D7 & D8 & D9 & D10 & D11).
      rewrite D9 in I. destruct I as [I | []]. injection I as <- <-.
      repeat split; assumption.
  - destruct (step_unprocessed s f E) as (Ev & _). rewrite Ev in H.
    contradiction.
Qed.

Lemma dragStage_unselected f l s :
  truthy activeTileCaptured = false -> dragStage' f l s = (s, []).
Proof.
  intro H. unfold dragStage. destruct activeTileCaptured; [|reflexivity].
  rewrite H. now rewrite andb_false_r.
Qed.

(** X9.  When no tile is selected at the moment the engine starts (the
    value of [activeTile] in the closure is [null] or empty), no frame
    ever calls [reorderTiles] and the tile list never changes. *)
Theorem no_drag_without_selection (s : Engine) (fs : list Frame)
    (f : Frame) :
  truthy activeTileCaptured = false ->
  tiles (runFrames s fs) = tiles s
  /\ filter isDragReorder (emitted s f) = [].
Proof.
  intro H.
  assert (Step : forall s0 f0,
             tiles (step s0 f0) = tiles s0
             /\ filter isDragReorder (emitted s0 f0) = []).
  { intros s0 f0. destruct (localsOf s0 f0) as [l|] eqn:E.
    - destruct (step_drag s0 f0 l E) as [(F & T & _) | (a & h & D)].
      + split; assumption.
      + destruct D as (D1 & D2 & _). rewrite D1 in H. cbn in H.
        destruct a; [contradiction | discriminate].
    - destruct (step_unprocessed s0 f0 E) as (-> & [-> | [-> | ->]]);
        split; reflexivity. }
  split; [|apply Step].
  revert s. induction fs as [|f0 rest IH]; intro s; cbn [run].
  - reflexivity.
  - rewrite IH. apply Step.
Qed.

Lemma step_tile_clicks s f l :
  localsOf s f = Some l ->
  let g := frameGestures l s in
  filter isTileClick (emitted s f) = []
  \/ (exists t,
        filter isTileClick (emitted s f) = [Click t]
        /\ pinchStateRef s = true /\ nextPinch g = false
        /\ scrollGesture g = false /\ zoomGesture g = false
        /\ now f - pinchStartTimeRef s < 280
        /\ 420 < now f - clickCooldownRef s
        /\ getTileAtCursor f (stableCursor l) = Some t
        /\ clickCooldownRef (step s f) = now f)
  \/ (exists t,
        filter isTileClick (emitted s f) = [DwellClick t]
        /\ nextPinch g = false
        /\ scrollGesture g = false /\ zoomGesture g = false
        /\ getTileAtCursor f (stableCursor l) = Some t
        /\ dwell_id (dwellRef s) = Some t
        /\ 980 <= now f - startedAt (dwellRef s)
        /\ 600 < now f - clickCooldownRef s
        /\ clickCooldownRef (step s f) = now f
        /\ dwellRef (step s f) = mkDwell (Some t) (now f)).
Proof.
  intros E g.
  destruct (step_unfold s f l E)
    as (s3 & s4 & s5 & ev1 & ev2 & ev3 & r & E1 & E2 & E3 & -> & ->).
  cbv zeta in E1. fold g in E1, E2, E3 |- *.
  destruct (moded_rest_cells f l (setHandVisible true s))
    as (R1 & _ & _ & R4 & _).
  destruct (moded_pinch f l (setHandVisible true s)) as (MP & _).
  cbv zeta in MP.
  rewrite (frameGestures_same l (setHandVisible true s) s) in MP
    by reflexivity.
  fold g in MP.
  change (pinchStartTimeRef (setHandVisible true s))
    with (pinchStartTimeRef s) in MP.
  change (clickCooldownRef (setHandVisible true s))
    with (clickCooldownRef s) in R1.
  change (dwellRef (setHandVisible true s)) with (dwellRef s) in R4.
  pose proof (wasPinching_frame l s) as W. fold g in W.
  clearbody g.
  set (m := moded f l (setHandVisible true s)) in *. clearbody m.
  destruct (dragCountStage_meter g m) as (C1 & _ & C3 & _ & C5).
  injection C1 as _ _ _ _ _ _ C1.
  set (s2 := dragCountStage g m) in *. clearbody s2.
  destruct (dragStage_meter f l s2) as (D1 & D2 & _ & D4 & _).
  rewrite E1 in D1, D2, D4. cbn [fst] in D1, D2, D4.
  unfold meterView in D1. injection D1 as _ _ _ _ _ _ D1 _.
  assert (F1 : filter isTileClick ev1 = []).
  { apply (kind_filter _ isDragReorder).
    - intros e He. apply (dragStage_kind f l s2). now rewrite E1.
    - now intros []. }
  destruct (clickStage_meter f l g s3) as (_ & _ & K3). rewrite E2 in K3.
  cbn [fst] in K3.
  assert (P3 : pinchStartTimeRef s3
               = (if nextPinch g && negb (wasPinching g) then now f
                  else pinchStartTimeRef s)) by congruence.
  assert (Q3 : clickCooldownRef s3 = clickCooldownRef s) by congruence.
  assert (W4 : dwellRef s4 = dwellRef s) by congruence.
  clear C1 C3 C5 D1 D2 D4 K3 R1 R4 MP E1.
  rewrite !filter_app, F1. cbn [app].
  change (clickCooldownRef
            (set_pinchStateRef (nextPinch g)
               (set_previousPointRef
                  (Some (mkTimed (x (stableCursor l))
                                 (y (stableCursor l)) (now f))) s5)))
    with (clickCooldownRef s5).
  change (dwellRef
            (set_pinchStateRef (nextPinch g)
               (set_previousPointRef
                  (Some (mkTimed (x (stableCursor l))
                                 (y (stableCursor l)) (now f))) s5)))
    with (dwellRef s5).
  destruct (clickStage_cases f l g s3) as [(K1 & K2) | (t & K)];
    rewrite E2 in *; cbn [fst snd] in *.
  - subst ev2. cbn [filter app].
    destruct (pointerStage_cases f l g s4) as [(P1 & _) | (t & P)];
      rewrite E3 in *; cbn [fst snd] in *.
    + left. exact P1.
    + right. right. exists t.
      destruct P as (P1 & _ & P2 & P3' & P4 & P5 & P6 & P7 & P8 & P9 & P10).
      rewrite W4 in P6, P7.
      assert (Q4 : clickCooldownRef s4 = clickCooldownRef s).
      { destruct K2 as [K2 | K2]; [congruence|].
        rewrite K2 in P8. exfalso. lra. }
      rewrite Q4 in P8. repeat split; assumption.
  - right. left. exists t.
    destruct K as (-> & K2 & K3 & K4 & K5 & K6).
    unfold shouldClick in K4.
    apply andb_true_iff in K4 as [K4 Kc].
    apply andb_true_iff in K4 as [K4 Kz].
    apply andb_true_iff in K4 as [Kd Ks].
    apply negb_true_iff in Kz, Ks.
    apply Qltb_true in Kd. apply Qgtb_true in Kc.
    rewrite K2 in P3. cbn [andb] in P3. rewrite P3 in Kd. rewrite Q3 in Kc.
    rewrite K3 in W.
    destruct (pointerStage_cases f l g s4) as [(P1 & _ & P2) | (t' & P)];
      rewrite E3 in *; cbn [fst snd] in *.
    + cbn [filter isTileClick app]. rewrite P1.
      repeat split; auto; congruence.
    + exfalso.
      destruct P as (_ & _ & _ & _ & _ & _ & _ & _ & P8 & _).
      rewrite K6 in P8. lra.
Qed.

(** X10.  No frame toggles a tile twice: among the calls of one frame
    there is at most one [Click] or [DwellClick]. *)
Theorem tile_click_at_most_once (s : Engine) (f : Frame) :
  (List.length (filter isTileClick (emitted s f)) <= 1)%nat.
Proof.
  destruct (localsOf s f) as [l|] eqn:E.
  - destruct (step_tile_clicks s f l E)
      as [-> | [(t & -> & _) | (t & -> & _)]]; cbn; lia.
  - destruct (step_unprocessed s f E) as (-> & _). cbn. lia.
Qed.

(** X11.  A [Click] is called only on a processed frame that ends a pinch
    with neither lock on, less than 280 ms after the pinch began and more
    than 420 ms after the click cooldown was last set; it is the only tile
    click of its frame and sets the click cooldown to the time of the
    frame. *)
Theorem click_only_on_quick_release (s : Engine) (f : Frame) (t : string) :
  In (Click t) (emitted s f) ->
  exists l,
    localsOf s f = Some l
    /\ pinchStateRef s = true /\ pinchStateRef (step s f) = false
    /\ scrollGesture (frameGestures l s) = false
    /\ zoomGesture (frameGestures l s) = false
    /\ now f - pinchStartTimeRef s < 280
    /\ 420 < now f - clickCooldownRef s
    /\ getTileAtCursor f (stableCursor l) = Some t
    /\ filter isTileClick (emitted s f) = [Click t]
    /\ clickCooldownRef (step s f) = now f.
Proof.
  intro H.
  assert (I : In (Click t) (filter isTileClick (emitted s f)))
    by (apply filter_In; split; [exact H | reflexivity]).
  destruct (localsOf s f) as [l|] eqn:E.
  - exists l. split; [reflexivity|].
    destruct (step_meter s f l E) as (_ & _ & _ & _ & _ & _ & _ & N).
    destruct (step_tile_clicks s f l E)
      as [F | [(t' & F & K) | (t' & F & _)]]; rewrite F in I.
    + contradiction.
    + destruct I as [I | []]. injection I as <-.
      destruct K as (K1 & K2 & K3 & K4 & K5 & K6 & K7 & K8).
      rewrite N. repeat split; assumption.
    + destruct I as [I | []]. discriminate.
  - destruct (step_unprocessed s f E) as (Ev & _). rewrite Ev in H.
    contradiction.
Qed.

(** X12.  A [DwellClick] is called only on a processed frame of the
    pointer sub-mode whose hovered tile is the dwell target, at least
    980 ms after the dwell timer started and more than 600 ms after the
    click cooldown was last set; it is the only tile click of its frame,
    restarts the dwell timer on the same tile and sets the click
    cooldown. *)
Theorem dwell_click_guard (s : Engine) (f : Frame) (t : string) :
  In (DwellClick t) (emitted s f) ->
  exists l,
    localsOf s f = Some l
    /\ pinchStateRef (step s f) = false
    /\ scrollGesture (frameGestures l s) = false
    /\ zoomGesture (frameGestures l s) = false
    /\ getTileAtCursor f (stableCursor l) = Some t
    /\ dwell_id (dwellRef s) = Some t
    /\ 980 <= now f - startedAt (dwellRef s)
    /\ 600 < now f - clickCooldownRef s
    /\ filter isTileClick (emitted s f) = [DwellClick t]
    /\ clickCooldownRef (step s f) = now f
    /\ dwellRef (step s f) = mkDwell (Some t) (now f).
Proof.
  intro H.
  assert (I : In (DwellClick t) (filter isTileClick (emitted s f)))
    by (apply filter_In; split; [exact H | reflexivity]).
  destruct (localsOf s f) as [l|] eqn:E.
  - exists l. split; [reflexivity|].
    destruct (step_meter s f l E) as (_ & _ & _ & _ & _ & _ & _ & N).
    destruct (step_tile_clicks s f l E)
      as [F | [(t' & F & _) | (t' & F & K)]]; rewrite F in I.
    + contradiction.
    + destruct I as [I | []]. discriminate.
    + destruct I as [I | []]. injection I as <-.
      destruct K as (K1 & K2 & K3 & K4 & K5 & K6 & K7 & K8 & K9).
      rewrite N. repeat split; assumption.
  - destruct (step_unprocessed s f E) as (Ev & _). rewrite Ev in H.
    contradiction.
Qed.

(** ** The dwell timer *)

Lemma pointer_frame_dwell s f l :
  localsOf s f = Some l ->
  pinchStateRef s = false ->
  nextPinch (frameGestures l s) = false ->
  scrollGesture (frameGestures l s) = false ->
  zoomGesture (frameGestures l s) = false ->
  exists s1,
    dwellRef s1 = dwellRef s
    /\ clickCooldownRef s1 = clickCooldownRef s
    /\ dwellRef (step s f) = dwellRef (fst (dwellStage f l s1))
    /\ dwellProgress (step s f) = dwellProgress (fst (dwellStage f l s1))
    /\ clickCooldownRef (step s f)
       = clickCooldownRef (fst (dwellStage f l s1))
    /\ filter isTileClick (emitted s f)
       = filter isTileClick (snd (dwellStage f l s1)).
Proof.
  intros E W N S Z.
  destruct (step_unfold s f l E)
    as (s3 & s4 & s5 & ev1 & ev2 & ev3 & r & E1 & E2 & E3 & -> & ->).
  cbv zeta in E1.
  destruct (moded_rest_cells f l (setHandVisible true s))
    as (R1 & _ & _ & R4 & _).
  change (clickCooldownRef (setHandVisible true s))
    with (clickCooldownRef s) in R1.
  change (dwellRef (setHandVisible true s)) with (dwellRef s) in R4.
  pose proof (wasPinching_frame l s) as Wg. rewrite W in Wg.
  set (g := frameGestures l s) in *. clearbody g.
  set (m := moded f l (setHandVisible true s)) in *. clearbody m.
  destruct (dragCountStage_meter g m) as (_ & _ & C3 & _ & C5).
  set (s2 := dragCountStage g m) in *. clearbody s2.
  destruct (dragStage_meter f l s2) as (_ & D2 & _ & D4 & _).
  rewrite E1 in D2, D4. cbn [fst] in D2, D4.
  assert (F1 : filter isTileClick ev1 = []).
  { apply (kind_filter _ isDragReorder).
    - intros e He. apply (dragStage_kind f l s2). now rewrite E1.
    - now intros []. }
  unfold clickStage in E2. rewrite N, Wg in E2. cbn [negb andb] in E2.
  injection E2 as <- <-.
  unfold pointerStage in E3. rewrite N, S, Z in E3. cbn [negb andb] in E3.
  set (s0 := setStatus StatusPointerMode (setGestureMode pointer s3)) in *.
  destruct (swipeStage_meter f l s0) as (_ & _ & A3 & _ & A5).
  change (dwellRef s0) with (dwellRef s3) in A3.
  change (clickCooldownRef s0) with (clickCooldownRef s3) in A5.
  pose proof (swipeStage_kind f l s0) as K. clearbody s0.
  destruct (swipeStage tilesCaptured f l s0) as [[s1 evs] r1].
  cbn [fst snd] in *.
  assert (Fs : filter isTileClick evs = []).
  { apply (kind_filter _ isSwipe); [exact K | now intros []]. }
  exists s1.
  destruct (dwellStage f l s1) as [sd evd]. injection E3 as <- <- <-.
  cbn [fst snd]. rewrite !filter_app, F1, Fs. cbn [app].
  repeat split; congruence.
Qed.

(** X13.  On a processed frame with neither lock on and no pinch before
    or after it: over no tile the dwell timer is cleared; over a tile other
    than the dwell target the timer restarts on that tile with progress 0;
    over the dwell target, [DwellClick] is called once, the timer restarts
    and the click cooldown is set when at least 980 ms have passed since
    the timer started and more than 600 ms since the click cooldown was
    set, and otherwise nothing is called, the timer is kept and the
    progress is the elapsed time over 980 ms clamped to [0, 1]. *)
Theorem dwell_timer (s : Engine) (f : Frame) (l : Locals) :
  localsOf s f = Some l ->
  pinchStateRef s = false ->
  nextPinch (frameGestures l s) = false ->
  scrollGesture (frameGestures l s) = false ->
  zoomGesture (frameGestures l s) = false ->
  let hovered := getTileAtCursor f (stableCursor l) in
  let ripe :=
    980 <= now f - startedAt (dwellRef s)
    /\ 600 < now f - clickCooldownRef s in
  (truthy hovered = false ->
   dwellRef (step s f) = mkDwell None 0 /\ dwellProgress (step s f) = 0
   /\ filter isTileClick (emitted s f) = [])
  /\ (forall t,
        hovered = Some t -> t <> EmptyString ->
        (dwell_id (dwellRef s) <> Some t ->
         dwellRef (step s f) = mkDwell (Some t) (now f)
         /\ dwellProgress (step s f) = 0
         /\ filter isTileClick (emitted s f) = [])
        /\ (dwell_id (dwellRef s) = Some t -> ripe ->
            filter isTileClick (emitted s f) = [DwellClick t]
            /\ dwellRef (step s f) = mkDwell (Some t) (now f)
            /\ dwellProgress (step s f) = 0
            /\ clickCooldownRef (step s f) = now f)
        /\ (dwell_id (dwellRef s) = Some t -> ~ ripe ->
            filter isTileClick (emitted s f) = []
            /\ dwellRef (step s f) = dwellRef s
            /\ dwellProgress (step s f)
               = clamp ((now f - startedAt (dwellRef s)) / 980) 0 1)).
Proof.
  intros E W N S Z hovered ripe.
  destruct (pointer_frame_dwell s f l E W N S Z)
    as (s1 & A1 & A2 & -> & -> & -> & ->).
  assert (R : Qgeb (clamp ((now f - startedAt (dwellRef s)) / 980) 0 1) 1
              && Qgtb (now f - clickCooldownRef s) 600 = true <-> ripe).
  { rewrite andb_true_iff, progress_full, Qgtb_true. reflexivity. }
  clearbody ripe. rewrite <- A2 in R. rewrite <- A1 in R |- *. clear A1 A2.
  unfold dwellStage. fold hovered. destruct s1.
  cbn -[clamp Qgeb Qgtb Qminus Qdiv truthy opt_string_eqb triggerTileClick]
    in R |- *.
  split.
  - intros ->. repeat split.
  - intros t Ht Hne.
    assert (T : truthy hovered = true)
      by (rewrite Ht; destruct t; [contradiction | reflexivity]).
    rewrite T. split; [|split].
    + intro D.
      assert (X : opt_string_eqb (dwell_id dwellRef0) hovered = false).
      { destruct (opt_string_eqb _ _) eqn:X; [|reflexivity].
        apply opt_string_eqb_eq in X. congruence. }
      rewrite X, Ht. repeat split.
    + intros D Hr.
      assert (X : opt_string_eqb (dwell_id dwellRef0) hovered = true)
        by (apply opt_string_eqb_eq; congruence).
      rewrite X. cbn [negb]. apply R in Hr. rewrite Hr.
      unfold triggerTileClick. fold hovered. rewrite T, Ht. repeat split.
    + intros D Hr.
      assert (X : opt_string_eqb (dwell_id dwellRef0) hovered = true)
        by (apply opt_string_eqb_eq; congruence).
      rewrite X. cbn [negb].
      destruct (_ && _) eqn:B; [exfalso; now apply Hr, R|].
      repeat split.
Qed.

(** ** Swiping there and back *)

Lemma findIndex_NoDup (l : list Tile) (k : nat) (t : Tile) :
  NoDup (map tile_id l) -> nth_error l k = Some t ->
  findIndex (tile_id t) l = Some k.
Proof.
  revert k. induction l as [|a r IH]; intros k D H.
  - destruct k; discriminate.
  - cbn [map] in D. apply NoDup_cons_iff in D. destruct D as [Na D].
    destruct k as [|k]; cbn in H |- *.
    + injection H as ->. now rewrite String.eqb_refl.
    + destruct (String.eqb (tile_id a) (tile_id t)) eqn:E.
      * apply String.eqb_eq in E. exfalso. apply Na. rewrite E.
        apply in_map. eapply nth_error_In. exact H.
      * now rewrite (IH k D H).
Qed.

Lemma findIndex_bound (id : string) (l : list Tile) (i : nat) :
  findIndex id l = Some i -> (i < List.length l)%nat.
Proof.
  intro H. destruct (findIndex_nth _ _ _ H) as (t & Ht & _).
  apply nth_error_Some. congruence.
Qed.

Lemma swipeIndex_back (tiles : list Tile) (d : Direction) (i : nat)
    (t : Tile) (current : option string) :
  let safeIndex :=
    match findIndexOpt current tiles with Some i => i | None => O end in
  tiles <> [] -> NoDup (map tile_id tiles) ->
  nth_error tiles (swipeIndex tiles d current) = Some t ->
  swipeIndex tiles (opposite d) (Some (tile_id t)) = safeIndex.
Proof.
  intros safeIndex Hne D H.
  assert (Hn : (0 < List.length tiles)%nat)
    by (destruct tiles; [contradiction | cbn; lia]).
  assert (Hs : (safeIndex < List.length tiles)%nat).
  { unfold safeIndex. destruct current as [id|]; cbn; [|exact Hn].
    destruct (findIndex id tiles) eqn:E; [|exact Hn].
    now apply findIndex_bound in E. }
  unfold swipeIndex at 1. cbn [findIndexOpt].
  rewrite (findIndex_NoDup _ _ _ D H).
  unfold swipeIndex. fold safeIndex.
  set (n := List.length tiles) in *.
  destruct d; cbn [opposite]; rewrite Nat.Div0.add_mod_idemp_l.
  - replace (safeIndex + (n - 1) + 1)%nat with (safeIndex + 1 * n)%nat
      by lia.
    rewrite Nat.Div0.mod_add. now apply Nat.mod_small.
  - replace (safeIndex + 1 + (n - 1))%nat with (safeIndex + 1 * n)%nat
      by lia.
    rewrite Nat.Div0.mod_add. now apply Nat.mod_small.
Qed.

(** X14.  With a non-empty tile list whose ids are distinct, a swipe
    followed by a swipe in the other direction selects the tile the first
    swipe started from: the tile that was selected when it is on the list,
    and the first tile of the list otherwise. *)
Theorem swipe_there_and_back (tiles : list Tile) (d : Direction)
    (current : option string) :
  tiles <> [] -> NoDup (map tile_id tiles) ->
  exists next back,
    swipeUpdater tiles d current = Some (Some next)
    /\ swipeUpdater tiles (opposite d) (Some next) = Some (Some back)
    /\ (forall id, current = Some id -> In id (map tile_id tiles) ->
        back = id)
    /\ (findIndexOpt current tiles = None ->
        option_map tile_id (hd_error tiles) = Some back).
Proof.
  intros Hne D.
  destruct (swipeUpdater_index tiles d current Hne) as (t & Ht & E1).
  destruct (swipeUpdater_index tiles (opposite d) (Some (tile_id t)) Hne)
    as (b & Hb & E2).
  rewrite (swipeIndex_back tiles d (swipeIndex tiles d current) t current
             Hne D Ht) in Hb.
  exists (tile_id t), (tile_id b). split; [exact E1|]. split; [exact E2|].
  split.
  - intros id -> Hin. cbn [findIndexOpt] in Hb.
    destruct (findIndex id tiles) as [i|] eqn:F.
    + destruct (findIndex_nth _ _ _ F) as (t' & Ht' & Hid). congruence.
    + exfalso. clear - Hin F.
      induction tiles as [|a r IH]; [contradiction|].
      cbn in F. destruct (String.eqb (tile_id a) id) eqn:E;
        [discriminate|].
      destruct Hin as [Hin|Hin].
      * apply String.eqb_neq in E. contradiction.
      * apply IH; [|exact Hin].
        now destruct (findIndex id r).
  - intros F. rewrite F in Hb. destruct tiles; [contradiction|].
    cbn in Hb |- *. congruence.
Qed.

(** ** The order of the other tiles *)

Lemma otherTiles_app (id : string) (a b : list Tile) :
  otherTiles id (a ++ b) = otherTiles id a ++ otherTiles id b.
Proof. apply filter_app. Qed.

Lemma otherTiles_moved (id : string) (t : Tile) (l : list Tile) :
  tile_id t = id -> otherTiles id (t :: l) = otherTiles id l.
Proof.
  intro H. unfold otherTiles. cbn [filter].
  apply String.eqb_eq in H. now rewrite H.
Qed.

(** X15.  [reorderTiles] never changes the order of the tiles other than
    the one it moves: without the tiles whose id is [fromId], the list
    after the call is the list before it. *)
Theorem reorder_keeps_other_tiles (fromId toId : string)
    (current : list Tile) :
  otherTiles fromId (reorderTiles fromId toId current)
  = otherTiles fromId current.
Proof.
  unfold reorderTiles, reorderUpdater.
  destruct (String.eqb fromId toId); [reflexivity|].
  destruct (findIndex fromId current) as [i|] eqn:Fi; [|reflexivity].
  destruct (findIndex toId current) as [j|]; [|reflexivity].
  destruct (findIndex_nth _ _ _ Fi) as (moved & Hm & Hid).
  rewrite Hm. unfold splice_insert.
  rewrite otherTiles_app, (otherTiles_moved _ _ _ Hid), <- otherTiles_app,
    firstn_skipn.
  unfold splice_remove.
  rewrite (nth_error_split_at current i moved Hm) at 3.
  now rewrite !otherTiles_app, (otherTiles_moved _ _ _ Hid).
Qed.

(** ** Hit testing *)

Lemma find_first (A : Type) (p : A -> bool) (pre post : list A) (e : A) :
  (forall a, In a pre -> p a = false) -> p e = true ->
  find p (pre ++ e :: post) = Some e.
Proof.
  intros Hpre He. induction pre as [|a r IH]; cbn.
  - now rewrite He.
  - rewrite (Hpre a (or_introl eq_refl)). apply IH.
    intros b Hb. apply Hpre. now right.
Qed.

(** X16.  [getTileAtCursor] returns [null] without a screen element and
    when no tile element contains the page position of the cursor;
    otherwise it returns the tile id of the first element, in document
    order, whose rectangle (borders included) contains that position. *)
Theorem hit_test_first_match (rect : DOMRect) (elements : list TileElement)
    (nextCursor : CursorPoint) :
  getTileAtCursorIn None nextCursor = None
  /\ (getTileAtCursorIn (Some (rect, elements)) nextCursor = None
      <-> forall e, In e elements -> underCursor rect nextCursor e = false)
  /\ (forall pre e post,
        elements = pre ++ e :: post ->
        (forall a, In a pre -> underCursor rect nextCursor a = false) ->
        underCursor rect nextCursor e = true ->
        getTileAtCursorIn (Some (rect, elements)) nextCursor
        = Some (tileIdAttr e)).
Proof.
  split; [reflexivity|]. unfold getTileAtCursorIn. cbv zeta.
  fold (underCursor rect nextCursor).
  change (fun element => underCursor rect nextCursor element)
    with (underCursor rect nextCursor).
  split; [split|].
  - intros H e He.
    destruct (find (underCursor rect nextCursor) elements) eqn:F;
      [discriminate|].
    exact (find_none _ _ F e He).
  - intro H.
    destruct (find (underCursor rect nextCursor) elements) as [e|] eqn:F;
      [|reflexivity].
    apply find_some in F. destruct F as [He Hu].
    rewrite (H e He) in Hu. discriminate.
  - intros pre e post -> Hpre He.
    now rewrite (find_first _ _ pre post e Hpre He).
Qed.

(** ** The scroll update *)

Lemma zoomLatch_scrollView l s :
  scrollView (zoomLatch l s) = scrollView s.
Proof. unfold zoomLatch. destruct s. stage_cases; reflexivity. Qed.

Lemma scrollLatch_scrollView l s :
  scrollModeRef (scrollLatch l s) = true ->
  scrollView (scrollLatch l s) = scrollView s.
Proof.
  unfold scrollLatch. destruct s.
  repeat (cbn; break_branch); cbn; intro; try reflexivity; discriminate.
Qed.

Lemma pinchStage_scrollView t l g s :
  scrollView (pinchStage t l g s) = scrollView s.
Proof. unfold pinchStage. destruct s. stage_cases; reflexivity. Qed.

Lemma zoomStage_scrollView l g s :
  zoomGesture g = false -> scrollView (zoomStage l g s) = scrollView s.
Proof. intro H. unfold zoomStage. rewrite H. now destruct s. Qed.

Lemma scrollStage_scrollView l g s m :
  scrollGesture g = true -> middleTip l = Some m ->
  let midpointY := (y (indexTip l) + y m) * 0.5 in
  let midpointX := (x (indexTip l) + x m) * 0.5 in
  scrollView (scrollStage l g s)
  = match scrollAnchorRef s with
    | None =>
        (Some (mkPoint midpointX midpointY), scrollOffset s,
         scrollOffsetX s)
    | Some anchor =>
        (Some (mkPoint (x anchor * 0.65 + midpointX * 0.35)
                       (y anchor * 0.65 + midpointY * 0.35)),
         clamp (scrollOffset s
                + clamp ((midpointY - y anchor) * 180) (-22) 22)
               (-360) 360,
         clamp (scrollOffsetX s
                + clamp ((x anchor - midpointX) * 180) (-22) 22)
               (-360) 360)
    end.
Proof.
  intros Hg Hm. unfold scrollStage. rewrite Hg, Hm. destruct s.
  cbn -[clamp]. now destruct scrollAnchorRef0.
Qed.

Lemma moded_scrollView f l s m :
  scrollGesture (frameGestures l s) = true ->
  zoomGesture (frameGestures l s) = false ->
  middleTip l = Some m ->
  let midpointY := (y (indexTip l) + y m) * 0.5 in
  let midpointX := (x (indexTip l) + x m) * 0.5 in
  scrollView (moded f l s)
  = match scrollAnchorRef s with
    | None =>
        (Some (mkPoint midpointX midpointY), scrollOffset s,
         scrollOffsetX s)
    | Some anchor =>
        (Some (mkPoint (x anchor * 0.65 + midpointX * 0.35)
                       (y anchor * 0.65 + midpointY * 0.35)),
         clamp (scrollOffset s
                + clamp ((midpointY - y anchor) * 180) (-22) 22)
               (-360) 360,
         clamp (scrollOffsetX s
                + clamp ((x anchor - midpointX) * 180) (-22) 22)
               (-360) 360)
    end.
Proof.
  intros Hs Hz Hm. unfold moded, latched. cbv zeta.
  set (s0 := setCursor _ _).
  assert (G : gestures l (scrollLatch l (zoomLatch l s0))
              = frameGestures l s)
    by (apply (frameGestures_same l s0 s); reflexivity).
  assert (V0 : scrollView s0 = scrollView s) by reflexivity.
  pose proof (zoomLatch_scrollView l s0) as V1.
  assert (On : scrollModeRef (scrollLatch l (zoomLatch l s0)) = true).
  { rewrite <- Hs, <- G. reflexivity. }
  pose proof (scrollLatch_scrollView l (zoomLatch l s0) On) as V2.
  set (s2 := scrollLatch l (zoomLatch l s0)) in *. clearbody s2.
  rewrite G. clear G On.
  pose proof (pinchStage_scrollView (now f) l (frameGestures l s) s2) as V3.
  set (s3 := pinchStage (now f) l (frameGestures l s) s2) in *.
  clearbody s3.
  pose proof (zoomStage_scrollView l (frameGestures l s) s3 Hz) as V4.
  set (s4 := zoomStage l (frameGestures l s) s3) in *. clearbody s4.
  rewrite (scrollStage_scrollView l _ s4 m Hs Hm).
  assert (V : scrollView s4 = scrollView s) by congruence.
  unfold scrollView in V. injection V as -> -> ->. reflexivity.
Qed.

(** X17.  On a processed frame on which the scroll lock is on, the zoom
    lock is off and the middle fingertip is reported, with the midpoint of
    the index and middle fingertips: without an anchor the midpoint becomes
    the anchor and the offsets stay; with an anchor the vertical offset
    moves by [180] times the midpoint's descent below the anchor and the
    horizontal offset by [180] times its shift to the left of the anchor,
    each step clamped to [-22, 22] and each offset to [-360, 360], and the
    anchor moves 35 % of the way to the midpoint. *)
Theorem scroll_offset_update (s : Engine) (f : Frame) (l : Locals)
    (m : CursorPoint) :
  localsOf s f = Some l ->
  scrollGesture (frameGestures l s) = true ->
  zoomGesture (frameGestures l s) = false ->
  middleTip l = Some m ->
  let midpointY := (y (indexTip l) + y m) * 0.5 in
  let midpointX := (x (indexTip l) + x m) * 0.5 in
  (scrollAnchorRef s = None ->
   scrollAnchorRef (step s f) = Some (mkPoint midpointX midpointY)
   /\ scrollOffset (step s f) = scrollOffset s
   /\ scrollOffsetX (step s f) = scrollOffsetX s)
  /\ (forall anchor,
        scrollAnchorRef s = Some anchor ->
        scrollOffset (step s f)
        = clamp (scrollOffset s
                 + clamp ((midpointY - y anchor) * 180) (-22) 22)
                (-360) 360
        /\ scrollOffsetX (step s f)
           = clamp (scrollOffsetX s
                    + clamp ((x anchor - midpointX) * 180) (-22) 22)
                   (-360) 360
        /\ scrollAnchorRef (step s f)
           = Some (mkPoint (x anchor * 0.65 + midpointX * 0.35)
                           (y anchor * 0.65 + midpointY * 0.35))).
Proof.
  intros E Hs Hz Hm midpointY midpointX.
  pose proof (step_view s f l E) as V. unfold modeView in V.
  injection V as _ _ _ _ _ _ _ V _ _.
  destruct (step_meter s f l E) as (O & X & _). rewrite V, O, X.
  rewrite (frameGestures_same l s (setHandVisible true s)) in Hs, Hz
    by reflexivity.
  pose proof (moded_scrollView f l (setHandVisible true s) m Hs Hz Hm) as M.
  cbv zeta in M. fold midpointY midpointX in M.
  change (scrollAnchorRef (setHandVisible true s))
    with (scrollAnchorRef s) in M.
  change (scrollOffset (setHandVisible true s)) with (scrollOffset s) in M.
  change (scrollOffsetX (setHandVisible true s)) with (scrollOffsetX s) in M.
  set (md := moded f l (setHandVisible true s)) in *. clearbody md.
  unfold scrollView in M.
  split.
  - intro A. rewrite A in M. injection M as -> -> ->. repeat split.
  - intros anchor A. rewrite A in M. injection M as -> -> ->.
    repeat split.
Qed.

(** ** A fault in the hand guide *)

Lemma drawPoints_raises (width height : Q)
    (landmarks : list (option CursorPoint)) :
  snd (drawPoints width height landmarks) = true <-> In None landmarks.
Proof.
  induction landmarks as [|[point|] rest IH]; cbn.
  - split; [discriminate | contradiction].
  - destruct (drawPoints width height rest) as [calls raised].
    cbn in IH |- *. rewrite IH. split; [now right|].
    intros [H|H]; [discriminate | exact H].
  - split; [now left | reflexivity].
Qed.

Lemma drawHandGuide_raises (o : option Overlay)
    (landmarks : option (list (option CursorPoint))) :
  snd (drawHandGuide o landmarks) = true
  <-> overlayDraws o = true
      /\ exists lm, landmarks = Some lm /\ In None lm.
Proof.
  unfold drawHandGuide, overlayDraws. destruct o as [v|].
  2:{ split; [discriminate | now intros [? _]]. }
  destruct (_ || _); cbn [negb andb].
  { split; [discriminate | now intros [? _]]. }
  destruct (context2d v); cbn [negb].
  2:{ split; [discriminate | now intros [? _]]. }
  destruct landmarks as [lm|].
  2:{ split; [discriminate | now intros (_ & lm & ? & _)]. }
  pose proof (drawPoints_raises (videoWidth v) (videoHeight v) lm) as D.
  destruct (drawPoints (videoWidth v) (videoHeight v) lm) as [dots raised].
  cbn [snd] in D.
  assert (R : raised = true
              <-> true = true /\ exists lm', Some lm = Some lm' /\ In None lm').
  { rewrite D. split.
    - intro H. split; [reflexivity|]. now exists lm.
    - intros (_ & lm' & E & H). now injection E as <-. }
  destruct raised; [exact R|].
  rewrite <- R.
  destruct (landmark lm 8); [destruct (landmark lm 4)|]; reflexivity.
Qed.

(** X18.  [drawHandGuide], the first call of the callback, raises exactly
    when the overlay is drawn on (canvas and video present, video
    dimensions not zero, a context) and the landmark array holds an entry
    that is [undefined]; the callback then ends there: every cell is as it
    was and no collaborator is called. *)
Theorem overlay_fault_keeps_cells (s : Engine) (f : Frame) :
  (overlayRaises f = true
   <-> overlayDraws (overlay f) = true
       /\ exists lm, handLandmarks f = Some lm /\ In None lm)
  /\ (overlayRaises f = true ->
      step s f = s /\ emitted s f = [] /\ ending s f = Threw).
Proof.
  split; [apply drawHandGuide_raises|].
  intro R. unfold engineAfter, eventsOf, outcomeOf, onResults.
  rewrite R. repeat split.
Qed.

End EngineProperties.

(** * The callback on concrete frames *)

Ltac compute_done := vm_compute; reflexivity.

(** The start and hold signals read off the scenario poses. *)
Example scenario_signals :
  option_map signalsOf
    (frameLocals hypot_floor initialEngine (zoomPose 0.04 100 hitMail))
  = Some (mkSignals false false true true true)
  /\ option_map signalsOf
       (frameLocals hypot_floor initialEngine (scrollPose 100))
     = Some (mkSignals true true false false true)
  /\ option_map signalsOf
       (frameLocals hypot_floor initialEngine (openHand 100 hitNothing))
     = Some (mkSignals false false false false true)
  /\ option_map signalsOf
       (frameLocals hypot_floor initialEngine
                    (overlayOff (noMiddleTip 100)))
     = Some (mkSignals false false false false false).
Proof. repeat split; compute_done. Qed.

(** Counterexample to C3 as stated.  With the zoom lock on, the level at
    1.36 and the anchor at 0.255, a frame with middle-thumb distance 0.33
    gives [delta = 0.075]: the callback sets the level to
    [1.36 + 0.075 * 3.6 = 1.63], not to [1.36 * (1 + 0.075 * 3.6)]. *)
Lemma zoom_level_is_not_multiplied :
  let s := zoomedIn in
  let f := zoomPose 0.066 164 hitMail in
  zoomModeRef s = true
  /\ zoomModeRef (pageStep s f) = true
  /\ zoomLevel s == 1.36
  /\ exists base l,
       zoomStateRef s = Some base
       /\ frameLocals hypot_floor s f = Some l
       /\ middleThumbDistance l - lastDistance base == 0.075
       /\ zoomLevel (pageStep s f) == 1.63
       /\ ~ zoomLevel (pageStep s f)
            == zoomLevelAsSpecified (zoomLevel s)
                 (middleThumbDistance l - lastDistance base).
Proof.
  cbv zeta. split; [compute_done|]. split; [compute_done|].
  split; [compute_done|].
  eexists. eexists. split; [compute_done|]. split; [reflexivity|].
  split; [compute_done|]. split; [compute_done|].
  intro H. vm_compute in H. discriminate.
Qed.

(** The amended C3 on the same frame. *)
Lemma zoom_level_update_witness :
  zoomLevel (pageStep zoomedIn (zoomPose 0.066 164 hitMail)) == 1.63.
Proof.
  epose proof (zoom_level_update hypot_floor None INITIAL_TILES zoomedIn
                 (zoomPose 0.066 164 hitMail) _ _ eq_refl) as W.
  cbv zeta in W.
  destruct W as [W _]; [compute_done | compute_done |].
  destruct W as [W _]; [compute_done|].
  unfold pageStep. rewrite W. compute_done.
Defined.

(** Counterexample to C4 as stated.  The zoom lock is on with a release
    counter of 0; after five consecutive frames whose hold signal is false
    the lock is still on. *)
Lemma lock_survives_five_frames :
  zoomModeRef zoomLocked = true
  /\ zoomReleaseFramesRef zoomLocked = 0%nat
  /\ Forall (zoomHeld hypot_floor false) fiveOpenFrames
  /\ List.length fiveOpenFrames = 5%nat
  /\ zoomModeRef (pageRun zoomLocked fiveOpenFrames) = true.
Proof.
  split; [compute_done|]. split; [compute_done|].
  split; [|split; compute_done].
  repeat constructor; intro s; eexists; (split; [reflexivity|compute_done]).
Qed.

(** The amended C4 on the same frames: on after five, off after the
    sixth. *)
Lemma lock_releases_on_sixth_frame_witness :
  zoomModeRef (pageRun zoomLocked fiveOpenFrames) = true
  /\ zoomModeRef
       (pageRun zoomLocked (fiveOpenFrames ++ [openHand 228 hitNothing]))
     = false.
Proof.
  destruct (lock_releases_on_sixth_frame hypot_floor None INITIAL_TILES
              zoomArmingFrames) as [Z _].
  destruct Z as (_ & _ & Z); [compute_done|].
  destruct (Z ltac:(compute_done) fiveOpenFrames (openHand 228 hitNothing))
    as [Z5 Z6].
  - repeat constructor; intro s; eexists;
      (split; [reflexivity|compute_done]).
  - reflexivity.
  - intro s; eexists; (split; [reflexivity|compute_done]).
  - split; [exact (Z5 5%nat) | exact Z6].
Defined.

(** C2 on the scenario: the scroll lock is on, a frame without a hand
    clears it, and two frames with the scroll hold signal do not bring it
    back. *)
Lemma no_hand_resets_witness :
  scrollModeRef scrollLocked = true
  /\ handLandmarks (noHandFrame 148) = None
  /\ scrollModeRef (pageStep scrollLocked (noHandFrame 148)) = false
  /\ scrollFramesRef (pageStep scrollLocked (noHandFrame 148)) = 0%nat
  /\ scrollModeRef
       (pageRun (pageStep scrollLocked (noHandFrame 148))
                [scrollPose 164; scrollPose 180])
     = false.
Proof.
  split; [compute_done|]. split; [reflexivity|].
  pose proof (no_hand_resets hypot_floor None INITIAL_TILES scrollLocked
                (noHandFrame 148) eq_refl) as W.
  cbv zeta in W. destruct W as (W1 & W2 & _).
  destruct W1 as (a & _ & _ & _ & b & _).
  destruct (W2 (scrollPose 164) (scrollPose 180)) as (_ & _ & c & _).
  split; [exact a|]. split; [exact b | exact c].
Defined.

(** C5 on the scenario: a pinch started at 1000 ms over the tile [mail]
    and released at 1200 ms clicks the tile once. *)
Lemma pinch_release_clicks_witness :
  filter isClick (pageEvents pinching1000 (openHand 1200 hitMail))
  = [Click "mail"%string].
Proof.
  epose proof (pinch_release_clicks hypot_floor None INITIAL_TILES
                 pinching1000 (openHand 1200 hitMail) _ "mail"%string
                 eq_refl) as W.
  cbv zeta in W.
  destruct W as (_ & W & _);
    [compute_done | compute_done | compute_done | compute_done
     | reflexivity | discriminate |].
  apply W. split; compute_done.
Defined.

(** The same pinch released at 1300 ms clicks nothing. *)
Example slow_pinch_does_not_click :
  pageEvents pinching1000 (openHand 1300 hitMail) = [].
Proof. compute_done. Qed.

(** Counterexample to C6 as stated.  The dwell timer runs on the tile
    [mail] since 100 ms; on the frame that turns the zoom lock on the dwell
    target and its start time are those of the frame before. *)
Lemma dwell_target_survives_zoom_lock :
  let s := hoveringThenArming in
  let f := zoomPose 0.04 148 hitMail in
  zoomModeRef (pageStep s f) = true
  /\ dwell_id (dwellRef s) = Some "mail"%string
  /\ dwellRef (pageStep s f) = dwellRef s
  /\ dwellRef (pageStep s f) <> mkDwell None 0.
Proof.
  cbv zeta. split; [compute_done|]. split; [compute_done|].
  split; [compute_done|]. vm_compute. discriminate.
Qed.

(** The amended C6 on the same frame. *)
Lemma locked_frame_clears_pinch_and_drag_witness :
  let s := hoveringThenArming in
  let f := zoomPose 0.04 148 hitMail in
  pinchStateRef (pageStep s f) = false
  /\ dragFramesRef (pageStep s f) = 0%nat
  /\ dwellProgress (pageStep s f) = 0
  /\ dwellRef (pageStep s f) = dwellRef s.
Proof.
  cbv zeta.
  epose proof (locked_frame_clears_pinch_and_drag hypot_floor None
                 INITIAL_TILES hoveringThenArming
                 (zoomPose 0.04 148 hitMail) _ eq_refl) as W.
  destruct W as (a & _ & _ & b & _ & _ & c & d & _); [compute_done|].
  split; [exact a|]. split; [exact b|]. split; [|exact d].
  apply c. left. compute_done.
Defined.

(** C8 on the scenario: with [docs], the ninth tile, selected, the cursor
    crosses from 0.1 towards 1 within 16 ms; the frame selects to the
    right and the tenth tile, [music], becomes the active one. *)
Lemma swipe_select_in_pointer_mode_witness :
  let f := openHandAt 0 2016 in
  activeTile docsSelected = Some "docs"%string
  /\ filter isSwipe (pageEvents docsSelected f) = [SwipeSelect swipe_right]
  /\ swipeCooldownRef (pageStep docsSelected f) = 2016
  /\ activeTile (pageStep docsSelected f) = Some "music"%string.
Proof.
  cbv zeta. split; [compute_done|].
  epose proof (swipe_select_in_pointer_mode hypot_floor None INITIAL_TILES
                 docsSelected (openHandAt 0 2016) _ _ eq_refl) as W.
  cbv zeta in W.
  destruct W as (R & _ & W & _ & _ & _ & _ & T & _);
    [compute_done | compute_done | compute_done | compute_done
     | discriminate |].
  destruct W as (W1 & W2); [repeat split; compute_done|].
  rewrite R in W1 by compute_done.
  split; [exact W1|]. split; [exact W2|].
  destruct (T ltac:(repeat split; compute_done) ltac:(compute_done)
              8%nat (mkTile "docs" "Docs" "AI spec draft"))
    as (t & T1 & T2).
  - reflexivity.
  - compute_done.
  - intros j tj Hj Hn.
    do 8 (destruct j as [|j];
          [cbn in Hn; injection Hn as <-; discriminate|]).
    lia.
  - unfold pageStep. rewrite T2. rewrite R in T1 by compute_done.
    vm_compute in T1. injection T1 as <-. reflexivity.
Defined.

(** Counterexample to C9 as stated.  The frame reports a hand whose middle
    tip is [undefined].  With no overlay to draw on, the callback runs to
    its end and the cells change; with the overlay of the running camera,
    a [TypeError] escapes [drawHandGuide]. *)
Lemma missing_middle_tip_is_not_skipped :
  let f := noMiddleTip 100 in
  (exists lm, handLandmarks f = Some lm /\ landmark lm 12 = None)
  /\ pageOutcome initialEngine (overlayOff f) = Completed
  /\ pageStep initialEngine (overlayOff f) <> initialEngine
  /\ previousPointRef (pageStep initialEngine (overlayOff f))
     = Some (mkTimed 0.5 0.4 100)
  /\ pageOutcome initialEngine f = Threw.
Proof.
  cbv zeta. split; [eexists; split; reflexivity|].
  split; [compute_done|]. split; [|split; compute_done].
  intro H. apply (f_equal previousPointRef) in H. vm_compute in H.
  discriminate.
Qed.

(** A hand reported up to landmark 16 has its tips but no pinky base: the
    callback raises in [distance], after it has set [handVisible]. *)
Example missing_pinky_base_raises :
  pageOutcome initialEngine (shortHand 17 100) = Threw
  /\ pageStep initialEngine (shortHand 17 100)
     = setHandVisible true initialEngine
  /\ pageOutcome initialEngine (overlayOff (noWrist 100)) = Threw.
Proof. repeat split; compute_done. Qed.

(** The amended C9 on a hand reported up to landmark 7: the thumb tip is
    there, the index tip is not, and the hand guide draws what it has. *)
Lemma missing_tip_frames_witness :
  onResults hypot_floor None INITIAL_TILES zoomLocked (shortHand 8 148)
  = (zoomLocked, [], Skipped).
Proof.
  destruct (missing_tip_frames hypot_floor None INITIAL_TILES zoomLocked
              (shortHand 8 148) _ eq_refl) as [W _].
  - compute_done.
  - apply W. left. reflexivity.
Defined.

(** C10 on the initial tiles: [mail] dragged onto [tasks]. *)
Lemma reorderTiles_permutes_witness :
  map tile_id (reorderTiles "mail" "tasks" INITIAL_TILES)
  = ["media"; "tasks"; "mail"; "notes"; "stats"; "lights"; "code";
     "boards"; "docs"; "music"; "camera"; "chat"]%string
  /\ Permutation (reorderTiles "mail" "tasks" INITIAL_TILES) INITIAL_TILES
  /\ nth_error (reorderTiles "mail" "tasks" INITIAL_TILES) 2
     = nth_error INITIAL_TILES 0.
Proof.
  split; [reflexivity|].
  destruct (reorderTiles_permutes "mail" "tasks" INITIAL_TILES)
    as (P & _ & _ & M).
  split; [exact P|].
  destruct (M 0%nat 2%nat) as (moved & M1 & _ & _ & M2);
    [discriminate | reflexivity | reflexivity |].
  rewrite M2, M1. reflexivity.
Defined.

(** * The further properties on concrete frames *)

(** X4 on the scenario: during the pinch that started at 1000 ms both
    locks are off. *)
Lemma pinch_only_without_lock_witness :
  pinchStateRef pinching1000 = true
  /\ scrollModeRef pinching1000 = false
  /\ zoomModeRef pinching1000 = false.
Proof.
  split; [compute_done|].
  apply (pinch_only_without_lock hypot_floor None INITIAL_TILES
           [pinchPose 1000 hitMail]).
  compute_done.
Defined.

(** X5 on the scenario: thumb and index tips 0.2 palm scales apart set the
    pinch flag and the pinch start time. *)
Lemma pinch_hysteresis_witness :
  pinchStateRef (pageStep initialEngine (pinchPose 1000 hitMail)) = true
  /\ pinchStartTimeRef (pageStep initialEngine (pinchPose 1000 hitMail))
     = 1000.
Proof.
  epose proof (pinch_hysteresis hypot_floor None INITIAL_TILES
                 initialEngine (pinchPose 1000 hitMail) _ eq_refl _ _)
    as (W & _ & _ & T).
  split.
  - apply W. compute_done.
  - unfold pageStep. rewrite T. compute_done.
  Unshelve. all: compute_done.
Defined.

(** X8 on the scenario: the thirteenth frame of a pinch, over the tile
    [media] with [mail] selected, moves [mail] onto [media]. *)
Lemma drag_reorder_guard_witness :
  let f := pinchPose 1192 hitMedia in
  mailEvents longPinch f = [DragReorder "mail" "media"]%string
  /\ dragFramesRef longPinch = 12%nat
  /\ tiles (mailStep longPinch f)
     = reorderTiles "mail" "media" INITIAL_TILES
  /\ dragSwapCooldownRef (mailStep longPinch f) = 1192.
Proof.
  cbv zeta.
  destruct (drag_reorder_guard hypot_floor (Some "mail"%string)
              INITIAL_TILES longPinch (pinchPose 1192 hitMedia)
              "mail"%string "media"%string)
    as (l & _ & _ & _ & _ & _ & _ & _ & _ & _ & _ & T & C).
  - vm_compute. left. reflexivity.
  - split; [compute_done|]. split; [compute_done|].
    split; [exact T | exact C].
Defined.

(** X9 on the scenario: the same pinch with no tile selected calls
    nothing and leaves the tiles alone. *)
Lemma no_drag_without_selection_witness :
  tiles (pageRun initialEngine (pinchFrames 13 hitMedia))
  = tiles initialEngine
  /\ filter isDragReorder
       (pageEvents initialEngine (pinchPose 1208 hitMedia)) = [].
Proof.
  exact (no_drag_without_selection hypot_floor None INITIAL_TILES
           initialEngine (pinchFrames 13 hitMedia)
           (pinchPose 1208 hitMedia) eq_refl).
Defined.

(** X11 on the scenario: the release at 1200 ms of the pinch that started
    at 1000 ms sets the click cooldown. *)
Lemma click_only_on_quick_release_witness :
  let f := openHand 1200 hitMail in
  filter isTileClick (pageEvents pinching1000 f) = [Click "mail"%string]
  /\ clickCooldownRef (pageStep pinching1000 f) = 1200.
Proof.
  cbv zeta.
  destruct (click_only_on_quick_release hypot_floor None INITIAL_TILES
              pinching1000 (openHand 1200 hitMail) "mail"%string)
    as (l & _ & _ & _ & _ & _ & _ & _ & _ & F & C).
  - vm_compute. left. reflexivity.
  - split; [exact F | exact C].
Defined.

(** X12 on the scenario: a hover over [mail] since 100 ms clicks at
    1100 ms and restarts the timer. *)
Lemma dwell_click_guard_witness :
  let f := openHand 1100 hitMail in
  filter isTileClick (pageEvents hoveringMail f)
  = [DwellClick "mail"%string]
  /\ dwellRef (pageStep hoveringMail f) = mkDwell (Some "mail"%string) 1100.
Proof.
  cbv zeta.
  destruct (dwell_click_guard hypot_floor None INITIAL_TILES
              hoveringMail (openHand 1100 hitMail) "mail"%string)
    as (l & _ & _ & _ & _ & _ & _ & _ & _ & F & _ & D).
  - vm_compute. left. reflexivity.
  - split; [exact F | exact D].
Defined.

(** X13 on the scenario: the same hover at 600 ms clicks nothing and
    shows the progress 500 / 980. *)
Lemma dwell_timer_witness :
  let f := openHand 600 hitMail in
  filter isTileClick (pageEvents hoveringMail f) = []
  /\ dwellRef (pageStep hoveringMail f) = dwellRef hoveringMail
  /\ dwellProgress (pageStep hoveringMail f) == 500 / 980.
Proof.
  cbv zeta.
  epose proof (dwell_timer hypot_floor None INITIAL_TILES hoveringMail
                 (openHand 600 hitMail) _ eq_refl _ _ _ _) as W.
  cbv zeta in W. destruct W as (_ & W).
  destruct (W "mail"%string) as (_ & _ & W3);
    [compute_done | discriminate |].
  destruct W3 as (F & D & P).
  - compute_done.
  - intros [A _]. vm_compute in A. apply A. reflexivity.
  - split; [exact F|]. split; [exact D|]. unfold pageStep. rewrite P. compute_done.
  Unshelve. all: compute_done.
Defined.

Lemma INITIAL_TILES_ids : NoDup (map tile_id INITIAL_TILES).
Proof.
  cbn. repeat (constructor; [cbn; intuition discriminate|]). constructor.
Defined.

(** X14 on the initial tiles: a swipe to the right from [mail] and a swipe
    to the left come back to [mail]. *)
Lemma swipe_there_and_back_witness :
  exists next,
    swipeUpdater INITIAL_TILES swipe_right (Some "mail"%string)
    = Some (Some next)
    /\ swipeUpdater INITIAL_TILES swipe_left (Some next)
       = Some (Some "mail"%string).
Proof.
  destruct (swipe_there_and_back INITIAL_TILES swipe_right
              (Some "mail"%string))
    as (next & back & E1 & E2 & B & _).
  - discriminate.
  - exact INITIAL_TILES_ids.
  - exists next. split; [exact E1|].
    cbn [opposite] in E2.
    rewrite E2, (B "mail"%string eq_refl); [reflexivity|].
    cbn. left. reflexivity.
Defined.

(** X16 on the layout: on the line the two tiles share, the first tile
    wins. *)
Lemma hit_test_first_match_witness :
  let c := mkPoint 0.5 0.5 in
  underCursor pageRect c mediaElement = true
  /\ getTileAtCursorIn twoTileScreen c = Some "mail"%string.
Proof.
  cbv zeta. split; [compute_done|].
  destruct (hit_test_first_match pageRect [mailElement; mediaElement]
              (mkPoint 0.5 0.5)) as (_ & _ & W).
  apply (W [] mailElement [mediaElement]).
  - reflexivity.
  - intros a [].
  - compute_done.
Defined.

(** X17 on the scenario: with the scroll lock on and the anchor at height
    0.4, fingertips 0.05 lower move the vertical offset by 9. *)
Lemma scroll_offset_update_witness :
  let f := scrollPoseAt 0.05 148 in
  scrollOffset (pageStep scrollLocked f) == 9
  /\ scrollOffsetX (pageStep scrollLocked f) == 0.
Proof.
  cbv zeta.
  epose proof (scroll_offset_update hypot_floor None INITIAL_TILES
                 scrollLocked (scrollPoseAt 0.05 148) _ _ eq_refl _ _
                 eq_refl)
    as W.
  cbv zeta in W. destruct W as (_ & W).
  destruct (W (mkPoint ((0.5 + 0.54) * 0.5) ((0.4 + 0.4) * 0.5)))
    as (Y & X & _).
  - compute_done.
  - unfold pageStep. rewrite Y, X. split; compute_done.
  Unshelve. all: compute_done.
Defined.

(** X18 on the scenario: with the zoom lock on, a frame whose index tip
    is [undefined] raises in the hand guide and leaves the lock on. *)
Lemma overlay_fault_keeps_cells_witness :
  overlayRaises (noIndexTip 148) = true
  /\ pageStep zoomLocked (noIndexTip 148) = zoomLocked
  /\ pageOutcome zoomLocked (noIndexTip 148) = Threw.
Proof.
  destruct (overlay_fault_keeps_cells hypot_floor None INITIAL_TILES
              zoomLocked (noIndexTip 148)) as (R & W).
  assert (H : overlayRaises (noIndexTip 148) = true).
  { apply R. split; [reflexivity|].
    eexists. split; [reflexivity|]. vm_compute. tauto. }
  split; [exact H|]. destruct (W H) as (A & _ & B). split; assumption.
Defined.
